(** * AudioPattern: the SP-404 pattern codec and its MIDI conversions

    A shallow embedding of [src/audio-pattern.js] (class [AudioPattern]) and
    of the parts of [DataBuffer] and [AudioMIDI] it calls, followed by the
    properties of the timing converter, the record parser and the pad tables.

    Conventions of the embedding.
    - JavaScript numbers that hold integers are [Z].  The two places where the
      source multiplies by the floating point quotient [patternPPQN / midiPPQN]
      and rounds are modelled with the exact quotient ([Math_round_mul]); both
      agree whenever the quotient is a whole number (in particular for equal
      resolutions) and the product stays below 2^53, which is where the
      statements on conversions at two resolutions are made.  [NaN] and
      [undefined] numbers are [None].
    - Objects used as dictionaries are [gmap string _], holding their own
      properties; a missing key is the JavaScript [undefined], except where
      the key names a property every object inherits ([Object_prototype_keys]).
    - An array given to a constructor is copied into a typed array, which
      keeps every value modulo 256 ([toUint8Array]); in a plain array that is
      only read through such a copy, a hole and an [undefined] are kept as 0.
    - [throw] is the [Throw] result; loops that the source writes with [while]
      carry fuel, and running out of it is the distinct error [OutOfFuel],
      shown below never to happen.
    - Strings are kept as byte strings (UTF-8). *)

From Stdlib Require Import ZArith Lia List String Ascii Sorted Permutation.
From stdpp Require Import base option list gmap strings pretty.

Local Open Scope string_scope.
Local Open Scope list_scope.
Local Open Scope Z_scope.

(** ** Errors and results *)

Inductive error : Type :=
| Error (message : string)          (* [new Error(message)] *)
| UnderflowError (message : string) (* thrown by [DataBuffer] reads *)
| TypeError (message : string)      (* raised by the runtime itself *)
| Unmodelled (what : string)        (* a value the embedding does not follow *)
| OutOfFuel.                        (* artefact of the embedding *)

Inductive result (A : Type) : Type :=
| Ok (a : A)
| Throw (e : error).
Arguments Ok {A} a.
Arguments Throw {A} e.

Definition bind {A B : Type} (r : result A) (k : A -> result B) : result B :=
  match r with
  | Ok a => k a
  | Throw e => Throw e
  end.

Notation "'do' x <- r ; k" := (bind r (fun x => k))
  (at level 10, x pattern, r at level 100, k at level 200).

Definition is_Ok {A : Type} (r : result A) : Prop := exists a, r = Ok a.

(** ** JavaScript helpers *)

(** [Math.round(x * (p / m))] for integers [x], [p] and [m <> 0], with the
    exact quotient: [Math.round] is [floor (y + 1/2)]. *)
Definition Math_round_mul (x p m : Z) : Z := (2 * x * p + m) / (2 * m).

(** [Math.round(a / b)] for integers, [b <> 0]. *)
Definition Math_round_div (a b : Z) : Z := (2 * a + b) / (2 * b).

(** [Math.floor(a / b)]. *)
Definition Math_floor_div (a b : Z) : Z := a / b.

(** The remainder operator [a % b]: the sign follows the dividend. *)
Definition js_rem (a b : Z) : Z := Z.rem a b.

(** [String(n)] and the template substitution of a number. *)
Definition String_of_number (n : Z) : string := pretty n.

(** [String.fromCharCode(c)] for an integer: the code unit is [c] modulo
    2^16, kept here in (generalised) UTF-8, one to three bytes. *)
Definition fromCharCode (c : Z) : string :=
  let c := c mod 65536 in
  if c <? 128 then String (ascii_of_N (Z.to_N c)) EmptyString
  else if c <? 2048 then
    String (ascii_of_N (Z.to_N (Z.lor 192 (Z.shiftr c 6))))
      (String (ascii_of_N (Z.to_N (Z.lor 128 (Z.land c 63)))) EmptyString)
  else
    String (ascii_of_N (Z.to_N (Z.lor 224 (Z.shiftr c 12))))
      (String (ascii_of_N (Z.to_N (Z.lor 128 (Z.land (Z.shiftr c 6) 63))))
         (String (ascii_of_N (Z.to_N (Z.lor 128 (Z.land c 63)))) EmptyString)).

(** The names of the properties of [Object.prototype]: indexing an object
    literal with one of them gives the inherited function (or, for
    [__proto__], the prototype), not [undefined]. *)
Definition Object_prototype_keys : list string :=
  ["constructor"; "__defineGetter__"; "__defineSetter__"; "hasOwnProperty";
   "__lookupGetter__"; "__lookupSetter__"; "isPrototypeOf"; "propertyIsEnumerable";
   "toString"; "valueOf"; "__proto__"; "toLocaleString"].

(** ['A'.charCodeAt(0)] *)
Definition charCode_A : Z := 65.

(** [Array.prototype.sort] with the comparator [(a, b) => key a - key b].
    The sort is stable (ECMAScript 2019), so its result is the one stable
    arrangement, computed here by insertion from the right. *)
Section Sort.
Context {A : Type} (key : A -> Z).

Fixpoint insert_by (x : A) (l : list A) : list A :=
  match l with
  | [] => [x]
  | y :: l' => if key x <=? key y then x :: y :: l' else y :: insert_by x l'
  end.

Fixpoint sort_by (l : list A) : list A :=
  match l with
  | [] => []
  | x :: l' => insert_by x (sort_by l')
  end.

End Sort.

(** The 32-bit integer operators.  [ToInt32] reduces modulo 2^32 into the
    signed range; [&], [|] and the shifts work on that value ([>>] keeps the
    sign, [<<] wraps). *)
Definition to_int32 (x : Z) : Z := (x + 2147483648) mod 4294967296 - 2147483648.
Definition js_and (a b : Z) : Z := Z.land (to_int32 a) (to_int32 b).
Definition js_or (a b : Z) : Z := Z.lor (to_int32 a) (to_int32 b).
Definition js_shr (a n : Z) : Z := Z.shiftr (to_int32 a) n.
Definition js_shl (a n : Z) : Z := to_int32 (Z.shiftl (to_int32 a) n).

(** ** DataBuffer *)

Module DataBuffer.

(** [data] is the typed array given to the constructor, [buffer] the plain
    array the write operations fill, [writing] is set by [new DataBuffer()]. *)
Record t : Type := mk {
  data : list Z;
  buffer : list Z;
  offset : nat;
  writing : bool
}.

(** [new Uint8Array(array)]: every element is reduced modulo 256. *)
Definition toUint8Array (l : list Z) : list Z := map (fun v => v mod 256) l.

(** [new DataBuffer(input)] for a typed array of bytes: [data] is the array
    itself, [buffer] a copy of it. *)
Definition ofUint8Array (input : list Z) : t := mk input input 0 false.

(** [new DataBuffer(input)] for an array of integers, which is copied into a
    typed array first. *)
Definition ofBytes (input : list Z) : t := ofUint8Array (toUint8Array input).

(** [new DataBuffer()] *)
Definition empty : t := mk [] [] 0 true.

Definition remainingBytes (b : t) : Z :=
  Z.of_nat (List.length (data b)) - Z.of_nat (offset b).

Definition available (bytes : Z) (b : t) : bool :=
  writing b || (bytes <=? remainingBytes b).

Definition readUInt8 (b : t) : result (Z * t) :=
  if negb (available 1 b) then Throw (UnderflowError "Insufficient Bytes: 1")
  else match data b !! offset b with
       | Some output => Ok (output, mk (data b) (buffer b) (S (offset b)) (writing b))
       | None => Throw (Unmodelled "undefined read past the end in write mode")
       end.

(** [read(bytes)] with [littleEndian = false]: the bytes in stream order. *)
Fixpoint read (bytes : nat) (b : t) : result (list Z * t) :=
  match bytes with
  | O => Ok ([], b)
  | S n =>
      do (x, b1) <- readUInt8 b;
      do (xs, b2) <- read n b1;
      Ok (x :: xs, b2)
  end.

(** [DataView.getUint16(0, littleEndian)] on the two bytes read. *)
Definition getUint16 (uint8 : list Z) (littleEndian : bool) : Z :=
  let b0 := uint8 !!! 0%nat in
  let b1 := uint8 !!! 1%nat in
  if littleEndian then b0 + 256 * b1 else 256 * b0 + b1.

(** [readUInt16(littleEndian)]: two bytes in stream order, then the view. *)
Definition readUInt16 (littleEndian : bool) (b : t) : result (Z * t) :=
  do (uint8, b1) <- read 2 b;
  Ok (getUint16 uint8 littleEndian, b1).

(** [array[i] = v] on a plain array: in range it overwrites, past the end it
    extends (the holes read as 0 once copied into a typed array). *)
Definition array_set (i : nat) (v : Z) (l : list Z) : list Z :=
  if (i <? List.length l)%nat then <[i:=v]> l
  else l ++ replicate (i - List.length l) 0 ++ [v].

(** [writeUInt8(data)] with the default [offset = this.offset], [advance = true]. *)
Definition writeUInt8 (d : Z) (b : t) : t :=
  mk (data b) (array_set (offset b) d (buffer b)) (S (offset b)) (writing b).

(** [writeUInt16(data, this.offset, true, true)]: little endian, advancing. *)
Definition writeUInt16_le (d : Z) (b : t) : t :=
  let buf1 := array_set (offset b) (Z.land d 255) (buffer b) in
  let buf2 := array_set (S (offset b)) (Z.shiftr (Z.land d 65280) 8) buf1 in
  mk (data b) buf2 (S (S (offset b))) (writing b).

(** [writeBytes(data)] with the defaults: the loop over [data], then the
    advance by [data.length]. *)
Fixpoint writeBytes_loop (i : nat) (d : list Z) (off : nat) (buf : list Z) : list Z :=
  match d with
  | [] => buf
  | x :: d' => writeBytes_loop (S i) d' off (array_set (off + i) x buf)
  end.

Definition writeBytes (d : list Z) (b : t) : t :=
  mk (data b) (writeBytes_loop 0 d (offset b) (buffer b))
     (offset b + List.length d) (writing b).

(** [commit()]: [data] becomes [new Uint8Array(buffer)]. *)
Definition commit (b : t) : t :=
  mk (toUint8Array (buffer b)) (buffer b) (offset b) false.

(** *** The rest of the cursor: positioning, peeking, wide integers *)

Definition availableAt (bytes : Z) (off : nat) (b : t) : bool :=
  writing b || (bytes <=? Z.of_nat (List.length (data b)) - Z.of_nat off).

(** [advance(bytes)], [rewind(bytes)] and [seek(position)] for counts and
    positions that are natural numbers. *)
Definition advance (bytes : nat) (b : t) : result t :=
  if negb (available (Z.of_nat bytes) b) then
    Throw (UnderflowError ("Insufficient Bytes: " +:+ pretty bytes +:+ " <= "
                           +:+ pretty (remainingBytes b)))
  else Ok (mk (data b) (buffer b) (offset b + bytes) (writing b)).

Definition rewind (bytes : nat) (b : t) : result t :=
  if (offset b <? bytes)%nat then
    Throw (UnderflowError ("Insufficient Bytes: " +:+ pretty bytes +:+ " > "
                           +:+ pretty (offset b)))
  else Ok (mk (data b) (buffer b) (offset b - bytes) (writing b)).

Definition seek (position : nat) (b : t) : result t :=
  do b1 <- (if (offset b <? position)%nat then advance (position - offset b) b else Ok b);
  if (position <? offset b1)%nat then rewind (offset b1 - position) b1 else Ok b1.

(** [peekUInt8(offset)]: the offset is absolute, the cursor plays no part. *)
Definition peekUInt8 (off : nat) (b : t) : result Z :=
  if negb (availableAt 1 off b) then
    Throw (UnderflowError ("Insufficient Bytes: " +:+ pretty off +:+ " + 1"))
  else match data b !! off with
       | Some output => Ok output
       | None => Throw (Unmodelled "undefined read past the end in write mode")
       end.

(** The bytes [peek] visits, in stream order. *)
Fixpoint peek_from (bytes off : nat) (b : t) : result (list Z) :=
  match bytes with
  | O => Ok []
  | S n =>
      do x <- peekUInt8 off b;
      do xs <- peek_from n (S off) b;
      Ok (x :: xs)
  end.

(** [peek(bytes, offset, littleEndian)]: the little-endian loop stores the
    byte at [offset + i] in slot [bytes - i - 1]. *)
Definition peek (bytes off : nat) (littleEndian : bool) (b : t) : result (list Z) :=
  do xs <- peek_from bytes off b;
  Ok (if littleEndian then rev xs else xs).

(** [read(bytes, true)]: slot [bytes - 1] is filled first. *)
Fixpoint read_littleEndian (bytes : nat) (b : t) : result (list Z * t) :=
  match bytes with
  | O => Ok ([], b)
  | S n =>
      do (x, b1) <- readUInt8 b;
      do (xs, b2) <- read_littleEndian n b1;
      Ok (xs ++ [x], b2)
  end.

(** [DataView.getUint32(0, littleEndian)] on the four bytes read. *)
Definition getUint32 (uint8 : list Z) (littleEndian : bool) : Z :=
  let b0 := uint8 !!! 0%nat in
  let b1 := uint8 !!! 1%nat in
  let b2 := uint8 !!! 2%nat in
  let b3 := uint8 !!! 3%nat in
  if littleEndian then b0 + 256 * b1 + 65536 * b2 + 16777216 * b3
  else 16777216 * b0 + 65536 * b1 + 256 * b2 + b3.

Definition readUInt32 (littleEndian : bool) (b : t) : result (Z * t) :=
  do (uint8, b1) <- read 4 b;
  Ok (getUint32 uint8 littleEndian, b1).

(** [readUInt24(littleEndian)]: a 16-bit read and an 8-bit read, joined by a
    shift. *)
Definition readUInt24 (littleEndian : bool) (b : t) : result (Z * t) :=
  if littleEndian then
    do (w, b1) <- readUInt16 true b;
    do (x, b2) <- readUInt8 b1;
    Ok (w + js_shl x 16, b2)
  else
    do (w, b1) <- readUInt16 false b;
    do (x, b2) <- readUInt8 b1;
    Ok (js_shl w 8 + x, b2).

(** The write operations with all their arguments: the value goes to
    [offset], the cursor moves by the width only when [advance] is set. *)
Definition writeUInt8_at (d : Z) (off : nat) (advance : bool) (b : t) : t :=
  mk (data b) (array_set off d (buffer b))
     (if advance then S (offset b) else offset b) (writing b).

Definition writeUInt16 (d : Z) (off : nat) (advance littleEndian : bool) (b : t) : t :=
  let lo := js_and d 255 in
  let hi := js_shr (js_and d 65280) 8 in
  let buf :=
    if littleEndian then array_set (off + 1) hi (array_set off lo (buffer b))
    else array_set (off + 1) lo (array_set off hi (buffer b)) in
  mk (data b) buf (if advance then (offset b + 2)%nat else offset b) (writing b).

Definition writeUInt24 (d : Z) (off : nat) (advance littleEndian : bool) (b : t) : t :=
  let b0 := js_and d 255 in
  let b1 := js_shr (js_and d 65280) 8 in
  let b2 := js_shr (js_and d 16711680) 16 in
  let buf :=
    if littleEndian then
      array_set (off + 2) b2 (array_set (off + 1) b1 (array_set off b0 (buffer b)))
    else
      array_set (off + 2) b0 (array_set (off + 1) b1 (array_set off b2 (buffer b))) in
  mk (data b) buf (if advance then (offset b + 3)%nat else offset b) (writing b).

Definition writeUInt32 (d : Z) (off : nat) (advance littleEndian : bool) (b : t) : t :=
  let b0 := js_and d 255 in
  let b1 := js_shr (js_and d 65280) 8 in
  let b2 := js_shr (js_and d 16711680) 16 in
  let b3 := js_shr (js_and d 4278190080) 24 in
  let buf :=
    if littleEndian then
      array_set (off + 3) b3 (array_set (off + 2) b2
        (array_set (off + 1) b1 (array_set off b0 (buffer b))))
    else
      array_set (off + 3) b0 (array_set (off + 2) b1
        (array_set (off + 1) b2 (array_set off b3 (buffer b)))) in
  mk (data b) buf (if advance then (offset b + 4)%nat else offset b) (writing b).

(** [slice(position, length)] and [compare(input, offset)] for a non-negative
    position; [input] is an array of integers, which [new DataBuffer(input)]
    copies into a typed array. *)
Definition slice (position len : nat) (b : t) : t :=
  if (position =? 0)%nat && (List.length (data b) <=? len)%nat then ofUint8Array (data b)
  else ofUint8Array (take len (drop position (data b))).

Definition compare (input : list Z) (off : nat) (b : t) : bool :=
  let buffer := ofBytes input in
  let len := List.length (data buffer) in
  if (len =? 0)%nat then false
  else
    let local := slice off len b in
    forallb (fun i => match data local !! i, data buffer !! i with
                      | Some x, Some y => x =? y
                      | _, _ => false
                      end) (seq 0 len).

End DataBuffer.

(** ** Pad tables *)

Module PadMapping.
Record t : Type := mk { midiNote : Z; pad : string; bankSwitch : Z }.
End PadMapping.

Definition defaultPPQOG : Z := 96.
Definition defaultPPQ : Z := 480.

Definition defaultMap_entries : list (string * PadMapping.t) :=
  [ ("A1", PadMapping.mk 47 "A1" 64); ("A2", PadMapping.mk 48 "A2" 64);
    ("A3", PadMapping.mk 49 "A3" 64); ("A4", PadMapping.mk 50 "A4" 64);
    ("A5", PadMapping.mk 51 "A5" 64); ("A6", PadMapping.mk 52 "A6" 64);
    ("A7", PadMapping.mk 53 "A7" 64); ("A8", PadMapping.mk 54 "A8" 64);
    ("A9", PadMapping.mk 55 "A9" 64); ("A10", PadMapping.mk 56 "A10" 64);
    ("A11", PadMapping.mk 57 "A11" 64); ("A12", PadMapping.mk 58 "A12" 64);
    ("A13", PadMapping.mk 59 "A13" 64); ("A14", PadMapping.mk 60 "A14" 64);
    ("A15", PadMapping.mk 61 "A15" 64); ("A16", PadMapping.mk 62 "A16" 64);
    ("B1", PadMapping.mk 63 "B1" 64); ("B2", PadMapping.mk 64 "B2" 64);
    ("B3", PadMapping.mk 65 "B3" 64); ("B4", PadMapping.mk 66 "B4" 64);
    ("B5", PadMapping.mk 67 "B5" 64); ("B6", PadMapping.mk 68 "B6" 64);
    ("B7", PadMapping.mk 69 "B7" 64); ("B8", PadMapping.mk 70 "B8" 64);
    ("B9", PadMapping.mk 71 "B9" 64); ("B10", PadMapping.mk 72 "B10" 64);
    ("B11", PadMapping.mk 73 "B11" 64); ("B12", PadMapping.mk 74 "B12" 64);
    ("B13", PadMapping.mk 75 "B13" 64); ("B14", PadMapping.mk 76 "B14" 64);
    ("B15", PadMapping.mk 77 "B15" 64); ("B16", PadMapping.mk 78 "B16" 64);
    ("C1", PadMapping.mk 79 "C1" 64); ("C2", PadMapping.mk 80 "C2" 64);
    ("C3", PadMapping.mk 81 "C3" 64); ("C4", PadMapping.mk 82 "C4" 64);
    ("C5", PadMapping.mk 83 "C5" 64); ("C6", PadMapping.mk 84 "C6" 64);
    ("C7", PadMapping.mk 85 "C7" 64); ("C8", PadMapping.mk 86 "C8" 64);
    ("C9", PadMapping.mk 87 "C9" 64); ("C10", PadMapping.mk 88 "C10" 64);
    ("C11", PadMapping.mk 89 "C11" 64); ("C12", PadMapping.mk 90 "C12" 64);
    ("C13", PadMapping.mk 91 "C13" 64); ("C14", PadMapping.mk 92 "C14" 64);
    ("C15", PadMapping.mk 93 "C15" 64); ("C16", PadMapping.mk 94 "C16" 64);
    ("D1", PadMapping.mk 95 "D1" 64); ("D2", PadMapping.mk 96 "D2" 64);
    ("D3", PadMapping.mk 97 "D3" 64); ("D4", PadMapping.mk 98 "D4" 64);
    ("D5", PadMapping.mk 99 "D5" 64); ("D6", PadMapping.mk 100 "D6" 64);
    ("D7", PadMapping.mk 101 "D7" 64); ("D8", PadMapping.mk 102 "D8" 64);
    ("D9", PadMapping.mk 103 "D9" 64); ("D10", PadMapping.mk 104 "D10" 64);
    ("D11", PadMapping.mk 105 "D11" 64); ("D12", PadMapping.mk 106 "D12" 64);
    ("D13", PadMapping.mk 107 "D13" 64); ("D14", PadMapping.mk 108 "D14" 64);
    ("D15", PadMapping.mk 109 "D15" 64); ("D16", PadMapping.mk 110 "D16" 64);
    ("E1", PadMapping.mk 111 "E1" 64); ("E2", PadMapping.mk 112 "E2" 64);
    ("E3", PadMapping.mk 113 "E3" 64); ("E4", PadMapping.mk 114 "E4" 64);
    ("E5", PadMapping.mk 115 "E5" 64); ("E6", PadMapping.mk 116 "E6" 64);
    ("E7", PadMapping.mk 117 "E7" 64); ("E8", PadMapping.mk 118 "E8" 64);
    ("E9", PadMapping.mk 119 "E9" 64); ("E10", PadMapping.mk 120 "E10" 64);
    ("E11", PadMapping.mk 121 "E11" 64); ("E12", PadMapping.mk 122 "E12" 64);
    ("E13", PadMapping.mk 123 "E13" 64); ("E14", PadMapping.mk 124 "E14" 64);
    ("E15", PadMapping.mk 125 "E15" 64); ("E16", PadMapping.mk 126 "E16" 64);
    ("F1", PadMapping.mk 47 "F1" 65); ("F2", PadMapping.mk 48 "F2" 65);
    ("F3", PadMapping.mk 49 "F3" 65); ("F4", PadMapping.mk 50 "F4" 65);
    ("F5", PadMapping.mk 51 "F5" 65); ("F6", PadMapping.mk 52 "F6" 65);
    ("F7", PadMapping.mk 53 "F7" 65); ("F8", PadMapping.mk 54 "F8" 65);
    ("F9", PadMapping.mk 55 "F9" 65); ("F10", PadMapping.mk 56 "F10" 65);
    ("F11", PadMapping.mk 57 "F11" 65); ("F12", PadMapping.mk 58 "F12" 65);
    ("F13", PadMapping.mk 59 "F13" 65); ("F14", PadMapping.mk 60 "F14" 65);
    ("F15", PadMapping.mk 61 "F15" 65); ("F16", PadMapping.mk 62 "F16" 65);
    ("G1", PadMapping.mk 63 "G1" 65); ("G2", PadMapping.mk 64 "G2" 65);
    ("G3", PadMapping.mk 65 "G3" 65); ("G4", PadMapping.mk 66 "G4" 65);
    ("G5", PadMapping.mk 67 "G5" 65); ("G6", PadMapping.mk 68 "G6" 65);
    ("G7", PadMapping.mk 69 "G7" 65); ("G8", PadMapping.mk 70 "G8" 65);
    ("G9", PadMapping.mk 71 "G9" 65); ("G10", PadMapping.mk 72 "G10" 65);
    ("G11", PadMapping.mk 73 "G11" 65); ("G12", PadMapping.mk 74 "G12" 65);
    ("G13", PadMapping.mk 75 "G13" 65); ("G14", PadMapping.mk 76 "G14" 65);
    ("G15", PadMapping.mk 77 "G15" 65); ("G16", PadMapping.mk 78 "G16" 65);
    ("H1", PadMapping.mk 79 "H1" 65); ("H2", PadMapping.mk 80 "H2" 65);
    ("H3", PadMapping.mk 81 "H3" 65); ("H4", PadMapping.mk 82 "H4" 65);
    ("H5", PadMapping.mk 83 "H5" 65); ("H6", PadMapping.mk 84 "H6" 65);
    ("H7", PadMapping.mk 85 "H7" 65); ("H8", PadMapping.mk 86 "H8" 65);
    ("H9", PadMapping.mk 87 "H9" 65); ("H10", PadMapping.mk 88 "H10" 65);
    ("H11", PadMapping.mk 89 "H11" 65); ("H12", PadMapping.mk 90 "H12" 65);
    ("H13", PadMapping.mk 91 "H13" 65); ("H14", PadMapping.mk 92 "H14" 65);
    ("H15", PadMapping.mk 93 "H15" 65); ("H16", PadMapping.mk 94 "H16" 65);
    ("I1", PadMapping.mk 95 "I1" 65); ("I2", PadMapping.mk 96 "I2" 65);
    ("I3", PadMapping.mk 97 "I3" 65); ("I4", PadMapping.mk 98 "I4" 65);
    ("I5", PadMapping.mk 99 "I5" 65); ("I6", PadMapping.mk 100 "I6" 65);
    ("I7", PadMapping.mk 101 "I7" 65); ("I8", PadMapping.mk 102 "I8" 65);
    ("I9", PadMapping.mk 103 "I9" 65); ("I10", PadMapping.mk 104 "I10" 65);
    ("I11", PadMapping.mk 105 "I11" 65); ("I12", PadMapping.mk 106 "I12" 65);
    ("I13", PadMapping.mk 107 "I13" 65); ("I14", PadMapping.mk 108 "I14" 65);
    ("I15", PadMapping.mk 109 "I15" 65); ("I16", PadMapping.mk 110 "I16" 65);
    ("J1", PadMapping.mk 111 "J1" 65); ("J2", PadMapping.mk 112 "J2" 65);
    ("J3", PadMapping.mk 113 "J3" 65); ("J4", PadMapping.mk 114 "J4" 65);
    ("J5", PadMapping.mk 115 "J5" 65); ("J6", PadMapping.mk 116 "J6" 65);
    ("J7", PadMapping.mk 117 "J7" 65); ("J8", PadMapping.mk 118 "J8" 65);
    ("J9", PadMapping.mk 119 "J9" 65); ("J10", PadMapping.mk 120 "J10" 65);
    ("J11", PadMapping.mk 121 "J11" 65); ("J12", PadMapping.mk 122 "J12" 65);
    ("J13", PadMapping.mk 123 "J13" 65); ("J14", PadMapping.mk 124 "J14" 65);
    ("J15", PadMapping.mk 125 "J15" 65); ("J16", PadMapping.mk 126 "J16" 65) ].

Definition defaultMapOG_entries : list (string * PadMapping.t) :=
  [ ("A1", PadMapping.mk 47 "A1" 0); ("A2", PadMapping.mk 48 "A2" 0);
    ("A3", PadMapping.mk 49 "A3" 0); ("A4", PadMapping.mk 50 "A4" 0);
    ("A5", PadMapping.mk 51 "A5" 0); ("A6", PadMapping.mk 52 "A6" 0);
    ("A7", PadMapping.mk 53 "A7" 0); ("A8", PadMapping.mk 54 "A8" 0);
    ("A9", PadMapping.mk 55 "A9" 0); ("A10", PadMapping.mk 56 "A10" 0);
    ("A11", PadMapping.mk 57 "A11" 0); ("A12", PadMapping.mk 58 "A12" 0);
    ("B1", PadMapping.mk 59 "B1" 0); ("B2", PadMapping.mk 60 "B2" 0);
    ("B3", PadMapping.mk 61 "B3" 0); ("B4", PadMapping.mk 62 "B4" 0);
    ("B5", PadMapping.mk 63 "B5" 0); ("B6", PadMapping.mk 64 "B6" 0);
    ("B7", PadMapping.mk 65 "B7" 0); ("B8", PadMapping.mk 66 "B8" 0);
    ("B9", PadMapping.mk 67 "B9" 0); ("B10", PadMapping.mk 68 "B10" 0);
    ("B11", PadMapping.mk 69 "B11" 0); ("B12", PadMapping.mk 70 "B12" 0);
    ("C1", PadMapping.mk 71 "C1" 0); ("C2", PadMapping.mk 72 "C2" 0);
    ("C3", PadMapping.mk 73 "C3" 0); ("C4", PadMapping.mk 74 "C4" 0);
    ("C5", PadMapping.mk 75 "C5" 0); ("C6", PadMapping.mk 76 "C6" 0);
    ("C7", PadMapping.mk 77 "C7" 0); ("C8", PadMapping.mk 78 "C8" 0);
    ("C9", PadMapping.mk 79 "C9" 0); ("C10", PadMapping.mk 80 "C10" 0);
    ("C11", PadMapping.mk 81 "C11" 0); ("C12", PadMapping.mk 82 "C12" 0);
    ("D1", PadMapping.mk 83 "D1" 0); ("D2", PadMapping.mk 84 "D2" 0);
    ("D3", PadMapping.mk 85 "D3" 0); ("D4", PadMapping.mk 86 "D4" 0);
    ("D5", PadMapping.mk 87 "D5" 0); ("D6", PadMapping.mk 88 "D6" 0);
    ("D7", PadMapping.mk 89 "D7" 0); ("D8", PadMapping.mk 90 "D8" 0);
    ("D9", PadMapping.mk 91 "D9" 0); ("D10", PadMapping.mk 92 "D10" 0);
    ("D11", PadMapping.mk 93 "D11" 0); ("D12", PadMapping.mk 94 "D12" 0);
    ("E1", PadMapping.mk 95 "E1" 0); ("E2", PadMapping.mk 96 "E2" 0);
    ("E3", PadMapping.mk 97 "E3" 0); ("E4", PadMapping.mk 98 "E4" 0);
    ("E5", PadMapping.mk 99 "E5" 0); ("E6", PadMapping.mk 100 "E6" 0);
    ("E7", PadMapping.mk 101 "E7" 0); ("E8", PadMapping.mk 102 "E8" 0);
    ("E9", PadMapping.mk 103 "E9" 0); ("E10", PadMapping.mk 104 "E10" 0);
    ("E11", PadMapping.mk 105 "E11" 0); ("E12", PadMapping.mk 106 "E12" 0);
    ("F1", PadMapping.mk 107 "F1" 0); ("F2", PadMapping.mk 108 "F2" 0);
    ("F3", PadMapping.mk 109 "F3" 0); ("F4", PadMapping.mk 110 "F4" 0);
    ("F5", PadMapping.mk 111 "F5" 0); ("F6", PadMapping.mk 112 "F6" 0);
    ("F7", PadMapping.mk 113 "F7" 0); ("F8", PadMapping.mk 114 "F8" 0);
    ("F9", PadMapping.mk 115 "F9" 0); ("F10", PadMapping.mk 116 "F10" 0);
    ("F11", PadMapping.mk 117 "F11" 0); ("F12", PadMapping.mk 118 "F12" 0);
    ("G1", PadMapping.mk 71 "G1" 64); ("G2", PadMapping.mk 72 "G2" 64);
    ("G3", PadMapping.mk 73 "G3" 64); ("G4", PadMapping.mk 74 "G4" 64);
    ("G5", PadMapping.mk 75 "G5" 64); ("G6", PadMapping.mk 76 "G6" 64);
    ("G7", PadMapping.mk 77 "G7" 64); ("G8", PadMapping.mk 78 "G8" 64);
    ("G9", PadMapping.mk 79 "G9" 64); ("G10", PadMapping.mk 80 "G10" 64);
    ("G11", PadMapping.mk 81 "G11" 64); ("G12", PadMapping.mk 82 "G12" 64);
    ("H1", PadMapping.mk 83 "H1" 64); ("H2", PadMapping.mk 84 "H2" 64);
    ("H3", PadMapping.mk 85 "H3" 64); ("H4", PadMapping.mk 86 "H4" 64);
    ("H5", PadMapping.mk 87 "H5" 64); ("H6", PadMapping.mk 88 "H6" 64);
    ("H7", PadMapping.mk 89 "H7" 64); ("H8", PadMapping.mk 90 "H8" 64);
    ("H9", PadMapping.mk 91 "H9" 64); ("H10", PadMapping.mk 92 "H10" 64);
    ("H11", PadMapping.mk 93 "H11" 64); ("H12", PadMapping.mk 94 "H12" 64);
    ("I1", PadMapping.mk 95 "I1" 64); ("I2", PadMapping.mk 96 "I2" 64);
    ("I3", PadMapping.mk 97 "I3" 64); ("I4", PadMapping.mk 98 "I4" 64);
    ("I5", PadMapping.mk 99 "I5" 64); ("I6", PadMapping.mk 100 "I6" 64);
    ("I7", PadMapping.mk 101 "I7" 64); ("I8", PadMapping.mk 102 "I8" 64);
    ("I9", PadMapping.mk 103 "I9" 64); ("I10", PadMapping.mk 104 "I10" 64);
    ("I11", PadMapping.mk 105 "I11" 64); ("I12", PadMapping.mk 106 "I12" 64);
    ("J1", PadMapping.mk 107 "J1" 64); ("J2", PadMapping.mk 108 "J2" 64);
    ("J3", PadMapping.mk 109 "J3" 64); ("J4", PadMapping.mk 110 "J4" 64);
    ("J5", PadMapping.mk 111 "J5" 64); ("J6", PadMapping.mk 112 "J6" 64);
    ("J7", PadMapping.mk 113 "J7" 64); ("J8", PadMapping.mk 114 "J8" 64);
    ("J9", PadMapping.mk 115 "J9" 64); ("J10", PadMapping.mk 116 "J10" 64);
    ("J11", PadMapping.mk 117 "J11" 64); ("J12", PadMapping.mk 118 "J12" 64) ].

(** [AudioPattern.defaultMap]: pads [A1] to [J16] of the MKii. *)
Definition defaultMap : gmap string PadMapping.t := list_to_map defaultMap_entries.

(** [AudioPattern.defaultMapOG]: pads [A1] to [J12] of the original SP-404. *)
Definition defaultMapOG : gmap string PadMapping.t := list_to_map defaultMapOG_entries.

(** ** Notes and [parse] *)

Module Note.
Record t : Type := mk {
  ticks : Z;
  midiNote : Z;
  bankSwitch : Z;
  pitchMode : Z;
  velocity : Z;
  unknown3 : Z;
  length : Z;
  sampleNumber : Z;
  padLabel : string
}.
End Note.

(** The options of [parse], with the defaults of its destructuring; the two
    numbers are whole numbers. *)
Record ParseOptions : Type := mkOptions {
  bytesPerNote : Z;
  padsPerBank : Z;
  og : bool
}.

Definition defaultOptions : ParseOptions := mkOptions 8 16 false.

(** The sample number of a record: the two hardware revisions read
    [bankSwitch] differently, an unexpected value gives 160. *)
Definition sampleNumber_of (og : bool) (padsPerBank midiNote bankSwitch : Z) : Z :=
  if og then
    if bankSwitch =? 0 then midiNote - 46
    else if bankSwitch =? 64 then midiNote - 46 + padsPerBank * 5
    else 160
  else
    if (bankSwitch =? 0) || (bankSwitch =? 64) then midiNote - 46
    else if (bankSwitch =? 1) || (bankSwitch =? 65) then midiNote - 46 + padsPerBank * 5
    else 160.

(** The pad label built from the sample number.  With no pads in a bank the
    quotient is infinite or [NaN], which [String.fromCharCode] takes for the
    code unit 0, and the remainder is [NaN]. *)
Definition padLabel_of (padsPerBank sampleNumber : Z) : string :=
  let padNumber := sampleNumber - 1 in
  if padsPerBank =? 0 then fromCharCode 0 +:+ "NaN" else
  let bankNumber := Math_floor_div padNumber padsPerBank in
  let bankLetter := fromCharCode (charCode_A + bankNumber) in
  let bankPadNumber := js_rem padNumber padsPerBank + 1 in
  bankLetter +:+ String_of_number bankPadNumber.

(** The note object built from the eight bytes of a record. *)
Definition make_note (opts : ParseOptions)
    (ticks midiNote bankSwitch pitchMode velocity unknown3 length : Z) : Note.t :=
  let sampleNumber := sampleNumber_of (og opts) (padsPerBank opts) midiNote bankSwitch in
  Note.mk ticks midiNote bankSwitch pitchMode velocity unknown3 length
    sampleNumber (padLabel_of (padsPerBank opts) sampleNumber).

(** One turn of the record loop: six bytes and a little-endian word. *)
Definition read_note (opts : ParseOptions) (b : DataBuffer.t) : result (Note.t * DataBuffer.t) :=
  do (ticks, b) <- DataBuffer.readUInt8 b;
  do (midiNote, b) <- DataBuffer.readUInt8 b;
  do (bankSwitch, b) <- DataBuffer.readUInt8 b;
  do (pitchMode, b) <- DataBuffer.readUInt8 b;
  do (velocity, b) <- DataBuffer.readUInt8 b;
  do (unknown3, b) <- DataBuffer.readUInt8 b;
  do (length, b) <- DataBuffer.readUInt16 true b;
  Ok (make_note opts ticks midiNote bankSwitch pitchMode velocity unknown3 length, b).

(** [i < totalNotes] where [totalNotes = remainingBytes / bytesPerNote - 2]
    is a quotient that the source does not truncate; for a positive
    [bytesPerNote] the comparison is the one below. *)
Definition below_totalNotes (i remaining bytesPerNote : Z) : bool :=
  (i + 2) * bytesPerNote <? remaining.

(** [while (i < totalNotes) { ...; this.notes.push(note); i++ }] *)
Fixpoint parse_notes (fuel : nat) (opts : ParseOptions) (remaining i : Z)
    (b : DataBuffer.t) (notes : list Note.t) : result (list Note.t * DataBuffer.t) :=
  if below_totalNotes i remaining (bytesPerNote opts) then
    match fuel with
    | O => Throw OutOfFuel
    | S fuel' =>
        do (note, b') <- read_note opts b;
        parse_notes fuel' opts remaining (i + 1) b' (notes ++ [note])
    end
  else Ok (notes, b).

(** What [parse] leaves in the object. *)
Record Pattern : Type := mkPattern {
  notes : list Note.t;
  bars : Z;
  timeSignature : Z;
  footer : list Z
}.

(** [parse(options)].  The footer checks of the source only log. *)
Definition parse (opts : ParseOptions) (b : DataBuffer.t) : result Pattern :=
  let remaining := DataBuffer.remainingBytes b in
  do (notes, b1) <- parse_notes (S (List.length (DataBuffer.data b))) opts remaining 0 b [];
  do (footer, b2) <- DataBuffer.read 16 b1;
  Ok (mkPattern notes (footer !!! 8%nat) (footer !!! 12%nat) footer).

(** [new AudioPattern(input, options)] for an array of integers; a typed
    array of bytes gives the same, its values being their own residues. *)
Definition AudioPattern (input : list Z) (opts : ParseOptions) : result Pattern :=
  parse opts (DataBuffer.ofBytes input).

(** [getUsedPads()]: a [Set] keeps its elements in insertion order. *)
Definition Set_add (x : string) (s : list string) : list string :=
  if bool_decide (x ∈ s) then s else s ++ [x].

Fixpoint getUsedPads_loop (notes : list Note.t) (padMap : list string) : list string :=
  match notes with
  | [] => padMap
  | note :: rest => getUsedPads_loop rest (Set_add (Note.padLabel note) padMap)
  end.

Definition getUsedPads (notes : list Note.t) : list string := getUsedPads_loop notes [].

(** ** MIDI events, as [AudioMIDI] holds them *)

Module NoteData.
(** The [data] object of a channel voice event; [length] is absent on a
    parsed Note On that no Note Off has closed. *)
Record t : Type := mk { note : string; velocity : Z; length : option Z }.
End NoteData.

Inductive EventData : Type :=
| DataNote (d : NoteData.t)
| DataTempo (byte1 byte2 byte3 tempo bpm : Z)
| DataString (s : string)
| DataOther.                      (* an object without a [velocity] key *)

Module MidiEvent.
(** [absoluteTime] is the extra property [toMidi] leaves on its note events;
    [channel] and the two meta fields exist on the events that have them. *)
Record t : Type := mk {
  absoluteTime : option Z;
  deltaTime : Z;
  type : Z;
  channel : option Z;
  metaType : option Z;
  metaEventLength : option Z;
  data : EventData;
  label : string
}.

Definition set_deltaTime (delta : Z) (e : t) : t :=
  mk (absoluteTime e) delta (type e) (channel e) (metaType e)
     (metaEventLength e) (data e) (label e).

(** [event.absoluteTime] read as a number. *)
Definition time (e : t) : Z := default 0 (absoluteTime e).
End MidiEvent.

Inductive Chunk : Type :=
| MTrk (chunkLength : Z) (events : list MidiEvent.t)
| OtherChunk.                     (* a chunk without an [events] key *)

Module AudioMIDI.
Record t : Type := mk {
  format : Z;
  trackCount : Z;
  timeDivision : Z;
  chunks : list Chunk
}.

Definition generateTempoEvent (bpm : Z) : MidiEvent.t :=
  let tempo := Math_round_div 60000000 bpm in
  let byte1 := Z.land (Z.shiftr tempo 16) 255 in
  let byte2 := Z.land (Z.shiftr tempo 8) 255 in
  let byte3 := Z.land tempo 255 in
  MidiEvent.mk None 0 255 None (Some 81) (Some 3)
    (DataTempo byte1 byte2 byte3 tempo bpm) "Set Tempo".


Definition generateEndOfTrackEvent : MidiEvent.t :=
  MidiEvent.mk None 0 255 None (Some 47) (Some 0) (DataString "") "End of Track".
(** [writeVariableLengthValue(dataBuffer, value)] for an integer value: the
    groups of seven bits are pushed lowest first, then popped, all but the
    last popped with the continuation bit. *)
Fixpoint push_groups (fuel : nat) (value : Z) (buffer : list Z) : result (list Z) :=
  match fuel with
  | O => Throw OutOfFuel
  | S fuel' =>
      let buffer := buffer ++ [js_and value 127] in
      let value := js_shr value 7 in
      if 0 <? value then push_groups fuel' value buffer else Ok buffer
  end.

Fixpoint pop_groups (stack : list Z) (b : DataBuffer.t) : result DataBuffer.t :=
  match stack with
  | [] => Throw (Unmodelled "pop of an empty array")
  | [last] => Ok (DataBuffer.writeUInt8 last b)
  | g :: stack' => pop_groups stack' (DataBuffer.writeUInt8 (js_or g 128) b)
  end.

Definition writeVariableLengthValue (b : DataBuffer.t) (value : Z) : result DataBuffer.t :=
  do buffer <- push_groups 5 value [];
  pop_groups (rev buffer) b.

(** [readVariableLengthValues()] *)
Fixpoint readVariableLengthValues_loop (fuel : nat) (value : Z) (b : DataBuffer.t)
    : result (Z * DataBuffer.t) :=
  match fuel with
  | O => Throw OutOfFuel
  | S fuel' =>
      do (byte, b1) <- DataBuffer.readUInt8 b;
      let value := js_shl value 7 + js_and byte 127 in
      if negb (js_and byte 128 =? 0) && (0 <? DataBuffer.remainingBytes b1)
      then readVariableLengthValues_loop fuel' value b1
      else Ok (value, b1)
  end.

Definition readVariableLengthValues (b : DataBuffer.t) : result (Z * DataBuffer.t) :=
  readVariableLengthValues_loop (S (List.length (DataBuffer.data b))) 0 b.

(** [writeEventData(dataBuffer, data)] for an array of defined bytes. *)
Definition writeEventData (b : DataBuffer.t) (data : list Z) : DataBuffer.t :=
  fold_left (fun b byte => DataBuffer.writeUInt8 byte b) data b.

(** The Set Tempo case of [parse] when the declared length is 3. *)
Definition parseTempo (b : DataBuffer.t) : result (EventData * DataBuffer.t) :=
  do (byte1, b) <- DataBuffer.readUInt8 b;
  do (byte2, b) <- DataBuffer.readUInt8 b;
  do (byte3, b) <- DataBuffer.readUInt8 b;
  let tempo := js_shl byte1 16 + js_shl byte2 8 + byte3 in
  let bpm := Math_round_div 60000000 tempo in
  Ok (DataTempo byte1 byte2 byte3 tempo bpm, b).

(** The Set Tempo case of [writeEvent]: the three bytes of the event's data. *)
Definition writeTempoData (b : DataBuffer.t) (data : EventData) : result DataBuffer.t :=
  match data with
  | DataTempo byte1 byte2 byte3 _ _ => Ok (writeEventData b [byte1; byte2; byte3])
  | _ => Throw (Unmodelled "Set Tempo event without tempo data")
  end.
End AudioMIDI.

(** ** Pattern to MIDI: [toMidi] *)


Definition noteOnEvent (absoluteTime midiNote : Z) (note : Note.t) : MidiEvent.t :=
  MidiEvent.mk (Some absoluteTime) 0 144 (Some 0) None None
    (DataNote (NoteData.mk (String_of_number midiNote) (Note.velocity note)
                 (Some (Note.length note))))
    "Note On".

Definition noteOffEvent (absoluteTime midiNote : Z) (note : Note.t) : MidiEvent.t :=
  MidiEvent.mk (Some (absoluteTime + Note.length note)) 0 128 (Some 0) None None
    (DataNote (NoteData.mk (String_of_number midiNote) 0 (Some (Note.length note))))
    "Note Off".

(** [!midiNote] for the value found under a pad label that is not the name
    of an inherited property: absent or zero. *)
Definition lookup_truthy (noteMap : gmap string Z) (padLabel : string) : option Z :=
  match noteMap !! padLabel with
  | Some midiNote => if midiNote =? 0 then None else Some midiNote
  | None => None
  end.

(** The events one note contributes, at its absolute time. *)
Definition note_events (noteMap : gmap string Z) (absoluteTime : Z) (note : Note.t)
    : list MidiEvent.t :=
  match lookup_truthy noteMap (Note.padLabel note) with
  | None => []                                            (* [continue] *)
  | Some midiNote =>
      noteOnEvent absoluteTime midiNote note ::
      (if 0 <? Note.length note then [noteOffEvent absoluteTime midiNote note] else [])
  end.

(** [for (const note of this.notes)]: the running time and the pushes. *)
Fixpoint gather_events (noteMap : gmap string Z) (absoluteTime : Z)
    (notes : list Note.t) : list MidiEvent.t :=
  match notes with
  | [] => []
  | note :: rest =>
      let absoluteTime := absoluteTime + Note.ticks note in
      note_events noteMap absoluteTime note ++ gather_events noteMap absoluteTime rest
  end.

(** The loop that turns absolute times into delta times. *)
Fixpoint assign_deltas (lastAbs : Z) (events : list MidiEvent.t) : list MidiEvent.t :=
  match events with
  | [] => []
  | event :: rest =>
      let delta := MidiEvent.time event - lastAbs in
      MidiEvent.set_deltaTime delta event :: assign_deltas (MidiEvent.time event) rest
  end.

(** [allEvents] as pushed into the track. *)
Definition toMidi_noteEvents (noteMap : gmap string Z) (notes : list Note.t)
    : list MidiEvent.t :=
  assign_deltas 0 (sort_by MidiEvent.time (gather_events noteMap 0 notes)).


(** ** MIDI to pattern: [fromMidi] *)

Module NoteOn.
(** An element of the flattened list [allEvents] of [fromMidi]. *)
Record t : Type := mk {
  absoluteTime : Z;
  note : string;
  velocity : Z;
  length : option Z
}.
End NoteOn.

Definition maxBars : Z := 64.
Definition maxTicksInGap : Z := 255.

(** The eight writes of an empty note carrying [ticksToInsert]. *)
Definition write_empty_note (ticksToInsert : Z) (b : DataBuffer.t) : DataBuffer.t :=
  let b := DataBuffer.writeUInt8 ticksToInsert b in
  let b := DataBuffer.writeUInt8 128 b in
  let b := DataBuffer.writeUInt8 0 b in
  let b := DataBuffer.writeUInt8 0 b in
  let b := DataBuffer.writeUInt8 0 b in
  let b := DataBuffer.writeUInt8 0 b in
  DataBuffer.writeUInt16_le 0 b.

(** [while (gap > 0) { ...; gap -= ticksToInsert }] *)
Fixpoint insertEmptyNotes_loop (fuel : nat) (gap : Z) (b : DataBuffer.t)
    : result DataBuffer.t :=
  if 0 <? gap then
    match fuel with
    | O => Throw OutOfFuel
    | S fuel' =>
        let ticksToInsert := Z.min gap maxTicksInGap in
        insertEmptyNotes_loop fuel' (gap - ticksToInsert) (write_empty_note ticksToInsert b)
    end
  else Ok b.

Definition insertEmptyNotes (gap : Z) (b : DataBuffer.t) : result DataBuffer.t :=
  insertEmptyNotes_loop (Z.to_nat gap) gap b.

(** The inner loop over the events of one track. *)
Fixpoint collect_track (absoluteTime : Z) (events : list MidiEvent.t) : list NoteOn.t :=
  match events with
  | [] => []
  | event :: rest =>
      let absoluteTime := absoluteTime + MidiEvent.deltaTime event in
      match MidiEvent.data event with
      | DataNote d =>
          if (MidiEvent.type event =? 144) && (0 <? NoteData.velocity d) then
            NoteOn.mk absoluteTime (NoteData.note d) (NoteData.velocity d) (NoteData.length d)
            :: collect_track absoluteTime rest
          else collect_track absoluteTime rest
      | _ => collect_track absoluteTime rest
      end
  end.

(** The outer loop over [audioMIDI.chunks]. *)
Fixpoint collect_events (chunks : list Chunk) : list NoteOn.t :=
  match chunks with
  | [] => []
  | MTrk _ events :: rest => collect_track 0 events ++ collect_events rest
  | OtherChunk :: rest => collect_events rest
  end.

(** The variables the conversion loop updates; a [NaN] total is [None]. *)
Record ConvState : Type := mkState {
  dataBuffer : DataBuffer.t;
  currentTime : Z;
  totalTrackLength : option Z;
  lastAbsoluteTime : Z
}.

(** What indexing a pad table gives: an entry of the table, a property that
    the table object inherits (a function or the prototype, on which
    [bankSwitch] and [midiNote] are [undefined]), or [undefined]. *)
Inductive TableValue : Type :=
| Entry (m : PadMapping.t)
| Inherited
| Undefined.

Definition table_get (table : gmap string PadMapping.t) (key : string) : TableValue :=
  match table !! key with
  | Some m => Entry m
  | None => if bool_decide (key ∈ Object_prototype_keys) then Inherited else Undefined
  end.

(** [og ? AudioPattern.defaultMapOG[pad] : AudioPattern.defaultMap[pad]]
    where [pad = noteMap[note]].  A [note] that is not a key of [noteMap]
    gives a [pad] that is [undefined], or an inherited function or object
    whose text is no key of either kind: the table then gives [undefined]. *)
Definition resolve_pad (og : bool) (noteMap : gmap string string) (note : string)
    : TableValue :=
  let table := if og then defaultMapOG else defaultMap in
  match noteMap !! note with
  | Some pad => table_get table pad
  | None => Undefined
  end.

(** [Math.round(length * conversionRatio)] *)
Definition correctLength (length : option Z) (patternPPQN midiPPQN : Z) : option Z :=
  match length with
  | Some l => Some (Math_round_mul l patternPPQN midiPPQN)
  | None => None
  end.

(** An [undefined] handed to [writeUInt8]: the plain array keeps it, every
    typed-array copy of the array reads it as 0. *)
Definition undefined_byte : Z := 0.

(** The eight writes of a note record. *)
Definition write_note (ticks midiNote bankSwitch velocity : Z) (correctedLength : option Z)
    (b : DataBuffer.t) : DataBuffer.t :=
  let pitchMode := 0 in
  let b := DataBuffer.writeUInt8 ticks b in
  let b := DataBuffer.writeUInt8 midiNote b in
  let b := DataBuffer.writeUInt8 bankSwitch b in
  let b := DataBuffer.writeUInt8 pitchMode b in
  let b := DataBuffer.writeUInt8 velocity b in
  let b := DataBuffer.writeUInt8 64 b in
  DataBuffer.writeUInt16_le (default 0 correctedLength) b.

(** The body of [for (const event of allEvents)]. *)
Definition convert_event (og : bool) (noteMap : gmap string string)
    (patternPPQN midiPPQN : Z) (st : ConvState) (event : NoteOn.t) : result ConvState :=
  let ticks :=
    Math_round_mul (NoteOn.absoluteTime event - lastAbsoluteTime st) patternPPQN midiPPQN in
  let gap := ticks - currentTime st in
  do b <- (if 255 <? gap then insertEmptyNotes gap (dataBuffer st) else Ok (dataBuffer st));
  do (midiNote, bankSwitch) <-
    match resolve_pad og noteMap (NoteOn.note event) with
    | Entry m => Ok (PadMapping.midiNote m, PadMapping.bankSwitch m)
    | Inherited => Ok (undefined_byte, undefined_byte)
    | Undefined => Throw (TypeError "Cannot destructure property 'bankSwitch' of undefined")
    end;
  let correctedLength := correctLength (NoteOn.length event) patternPPQN midiPPQN in
  let b := write_note ticks midiNote bankSwitch (NoteOn.velocity event) correctedLength b in
  Ok (mkState b (currentTime st + ticks)
        (match totalTrackLength st, correctedLength with
         | Some t, Some c => Some (t + c)
         | _, _ => None
         end)
        (NoteOn.absoluteTime event)).

Fixpoint convert_events (og : bool) (noteMap : gmap string string)
    (patternPPQN midiPPQN : Z) (st : ConvState) (events : list NoteOn.t) : result ConvState :=
  match events with
  | [] => Ok st
  | event :: rest =>
      do st' <- convert_event og noteMap patternPPQN midiPPQN st event;
      convert_events og noteMap patternPPQN midiPPQN st' rest
  end.

(** Rounding the pattern up to whole bars: the buffer and [currentTime]
    after the [if] that follows the loop. *)
Definition round_to_bar (ticksPerBar : Z) (st : ConvState) : result (DataBuffer.t * Z) :=
  if (currentTime st =? 0) && (match totalTrackLength st with Some t => 0 <? t | None => false end)
  then
    do b <- insertEmptyNotes ticksPerBar (dataBuffer st);
    Ok (b, currentTime st)
  else
    let remainder := js_rem (currentTime st) ticksPerBar in
    if negb (remainder =? 0) then
      let ticksToNextBar := ticksPerBar - remainder in
      if currentTime st + ticksToNextBar <=? maxBars * ticksPerBar then
        do b <- insertEmptyNotes ticksToNextBar (dataBuffer st);
        Ok (b, currentTime st + ticksToNextBar)
      else Ok (dataBuffer st, maxBars * ticksPerBar)
    else Ok (dataBuffer st, currentTime st).

(** The sixteen footer bytes; the array is a [Uint8Array]. *)
Definition make_footer (og : bool) (bars : Z) : list Z :=
  DataBuffer.toUint8Array
    [0; 140; 0; 0; 0; 0; 0; 0;
     (if og then 0 else bars); (if og then 2 else 0); 0; 0;
     0; (if og then 0 else 128); (if og then 0 else bars); (if og then 0 else 1)].

Definition msg_no_audioMIDI : string :=
  "No audioMIDI provided, please provide an AudioMIDI instance.".
Definition msg_no_noteMap : string :=
  "No noteMap provided, please provide a mapping of MIDI notes to pads.".
Definition msg_no_patternPPQN : string :=
  "No patternPPQN provided, please provide a PPQN for the pattern: OG is 96, MKii is 480.".

(** [!patternPPQN] *)
Definition falsy_number (n : option Z) : bool :=
  match n with
  | Some v => v =? 0
  | None => true
  end.

(** [AudioPattern.fromMidi(audioMIDI, noteMap, patternPPQN, og)].  An argument
    that is [undefined], or an [audioMIDI] that is not an object with the keys
    [timeDivision] and [chunks], is [None]. *)
Definition fromMidi (audioMIDI : option AudioMIDI.t) (noteMap : option (gmap string string))
    (patternPPQN : option Z) (og : bool) : result DataBuffer.t :=
  match audioMIDI with
  | None => Throw (Error msg_no_audioMIDI)
  | Some midi =>
  match noteMap with
  | None => Throw (Error msg_no_noteMap)
  | Some noteMap =>
  if falsy_number patternPPQN then Throw (Error msg_no_patternPPQN) else
  let patternPPQN := default 0 patternPPQN in
  let midiPPQN := AudioMIDI.timeDivision midi in
  let ticksPerBar := patternPPQN * 4 in
  let allEvents := sort_by NoteOn.absoluteTime (collect_events (AudioMIDI.chunks midi)) in
  do st <- convert_events og noteMap patternPPQN midiPPQN
             (mkState DataBuffer.empty 0 (Some 0) 0) allEvents;
  do (b, currentTime) <- round_to_bar ticksPerBar st;
  let bars := Math_round_div currentTime ticksPerBar in
  Ok (DataBuffer.writeBytes (make_footer og bars) b)
  end
  end.

(** ** Vocabulary of the statements *)

(** The buffer [b] with its cursor moved to [o]. *)
Definition at_offset (o : nat) (b : DataBuffer.t) : DataBuffer.t :=
  DataBuffer.mk (DataBuffer.data b) (DataBuffer.buffer b) o (DataBuffer.writing b).

(** The note that the eight bytes at offset [o] of [input] decode to. *)
Definition note_at (opts : ParseOptions) (input : list Z) (o : nat) : Note.t :=
  make_note opts (input !!! o) (input !!! (o + 1)%nat) (input !!! (o + 2)%nat)
    (input !!! (o + 3)%nat) (input !!! (o + 4)%nat) (input !!! (o + 5)%nat)
    (input !!! (o + 6)%nat + 256 * input !!! (o + 7)%nat).

(** The number of turns of the record loop on [n] bytes. *)
Definition record_turns (n : nat) : nat := (n - 9) / 8.

(** The values of [bankSwitch] that [parse] gives a meaning to. *)
Definition recognized_bankSwitch (og : bool) (bankSwitch : Z) : bool :=
  if og then (bankSwitch =? 0) || (bankSwitch =? 64)
  else (bankSwitch =? 0) || (bankSwitch =? 64) || (bankSwitch =? 1) || (bankSwitch =? 65).

(** The check that the label derived from a table entry is its key. *)
Definition label_check (e : string * PadMapping.t) : bool :=
  String.eqb
    (padLabel_of 16 (sampleNumber_of false 16 (PadMapping.midiNote e.2) (PadMapping.bankSwitch e.2)))
    e.1.

(** A result that is a value or one of the runtime's own type errors: no
    [Error] was thrown and the fuel sufficed. *)
Definition Ok_or_TypeError {A : Type} (r : result A) : Prop :=
  match r with
  | Ok _ => True
  | Throw (TypeError _) => True
  | Throw _ => False
  end.

(** The sum of a list of integers. *)
Fixpoint Zsum (l : list Z) : Z :=
  match l with
  | [] => 0
  | x :: l' => x + Zsum l'
  end.






(** A Note On event as the MIDI parser leaves it: channel 0, no length yet. *)
Definition parsed_noteOn (deltaTime : Z) (note : string) (velocity : Z) : MidiEvent.t :=
  MidiEvent.mk None deltaTime 144 (Some 0) None None
    (DataNote (NoteData.mk note velocity None)) "Note On".

(** The same with the length that a later Note Off has filled in. *)
Definition closed_noteOn (deltaTime : Z) (note : string) (velocity length : Z) : MidiEvent.t :=
  MidiEvent.mk None deltaTime 144 (Some 0) None None
    (DataNote (NoteData.mk note velocity (Some length))) "Note On".

(** A one-track file at the resolution [ppq]. *)
Definition single_track (ppq : Z) (events : list MidiEvent.t) : AudioMIDI.t :=
  AudioMIDI.mk 1 1 ppq [MTrk 0 events].

(** The ticks bytes of the records of a pattern buffer: every eighth value,
    the sixteen footer bytes left out. *)
Fixpoint ticks_bytes (records : nat) (buf : list Z) : list Z :=
  match records with
  | O => []
  | S n => default 0 (head buf) :: ticks_bytes n (drop 8 buf)
  end.

Definition written_ticks (b : DataBuffer.t) : list Z :=
  ticks_bytes ((List.length (DataBuffer.buffer b) - 16) / 8) (DataBuffer.buffer b).

(** The buffer [b] with [bytes] written at its end. *)
Definition append_bytes (bytes : list Z) (b : DataBuffer.t) : DataBuffer.t :=
  DataBuffer.mk (DataBuffer.data b) (DataBuffer.buffer b ++ bytes)
    (DataBuffer.offset b + List.length bytes) (DataBuffer.writing b).

(** The cursor of a buffer that was only ever appended to is at its end. *)
Definition at_end (b : DataBuffer.t) : Prop :=
  DataBuffer.offset b = List.length (DataBuffer.buffer b).

(** The eight values of a note record and of an empty note. *)
Definition record_bytes (ticks midiNote bankSwitch velocity length : Z) : list Z :=
  [ticks; midiNote; bankSwitch; 0; velocity; 64;
   Z.land length 255; Z.shiftr (Z.land length 65280) 8].

Definition rest_bytes (ticks : Z) : list Z := [ticks; 128; 0; 0; 0; 0; 0; 0].










(** The Note On test of [fromMidi] on an event. *)
Definition is_true_noteOn (e : MidiEvent.t) : bool :=
  match MidiEvent.data e with
  | DataNote d => (MidiEvent.type e =? 144) && (0 <? NoteData.velocity d)
  | _ => false
  end.


(** The table check behind the byte range of the written records. *)
Definition entry_in_bytes (e : string * PadMapping.t) : bool :=
  (0 <=? PadMapping.midiNote e.2) && (PadMapping.midiNote e.2 <? 256)
  && (0 <=? PadMapping.bankSwitch e.2) && (PadMapping.bankSwitch e.2 <? 256).

(** The label with its bank letter moved one bank up. *)
Definition next_bank (label : string) : string :=
  match label with
  | String c rest => String (ascii_of_nat (S (nat_of_ascii c))) rest
  | EmptyString => EmptyString
  end.

(** The label [parse] derives for a table entry on the original SP-404. *)
Definition derived_label_OG (m : PadMapping.t) : string :=
  padLabel_of 12 (sampleNumber_of true 12 (PadMapping.midiNote m) (PadMapping.bankSwitch m)).

Definition label_check_OG (e : string * PadMapping.t) : bool :=
  if PadMapping.bankSwitch e.2 =? 0 then String.eqb (derived_label_OG e.2) e.1
  else (PadMapping.bankSwitch e.2 =? 64)
       && String.eqb (derived_label_OG e.2) (next_bank e.1)
       && negb (String.eqb (derived_label_OG e.2) e.1).

(** The check that a sample number has its entry in the MKii table. *)
Definition sample_check (s : nat) : bool :=
  match defaultMap !! padLabel_of 16 (Z.of_nat s) with
  | Some m =>
      sampleNumber_of false 16 (PadMapping.midiNote m) (PadMapping.bankSwitch m)
      =? Z.of_nat s
  | None => false
  end.

(** The records [fromMidi] writes for one Note On: the empty notes of its gap,
    then its own record, with the pad the maps resolve. *)
Definition group_of (og : bool) (noteMap : gmap string string) (e : NoteOn.t)
    (g : list (list Z)) : Prop :=
  exists (ts : list Z) (midiNote bankSwitch ticks length : Z),
    g = map rest_bytes ts
        ++ [record_bytes ticks midiNote bankSwitch (NoteOn.velocity e) length]
    /\ match resolve_pad og noteMap (NoteOn.note e) with
       | Entry pm => midiNote = PadMapping.midiNote pm /\ bankSwitch = PadMapping.bankSwitch pm
       | Inherited => midiNote = 0 /\ bankSwitch = 0
       | Undefined => False
       end
    /\ Forall (fun t => 0 < t <= 255) ts.

(** The Note On events of a file, as the description of the conversion
    reads: in every track the events that pass the Note On test, each at the
    sum of the delta times up to and including its own; the tracks one after
    the other. *)
Definition noteOn_at (t : Z) (e : MidiEvent.t) : NoteOn.t :=
  match MidiEvent.data e with
  | DataNote d => NoteOn.mk t (NoteData.note d) (NoteData.velocity d) (NoteData.length d)
  | _ => NoteOn.mk t "" 0 None
  end.

Definition track_noteOns (events : list MidiEvent.t) : list NoteOn.t :=
  concat (imap (fun i e =>
            if is_true_noteOn e
            then [noteOn_at (Zsum (map MidiEvent.deltaTime (take (S i) events))) e]
            else []) events).

Definition file_noteOns (chunks : list Chunk) : list NoteOn.t :=
  concat (map (fun c => match c with
                        | MTrk _ events => track_noteOns events
                        | OtherChunk => []
                        end) chunks).

(** How a record of the pattern read back stands for a Note On of the file:
    the note map gives a pad for the note, the record carries the velocity as
    a byte, and either the pad is one of the table and the record is on it,
    or the pad names an inherited property and the record holds 0 for the
    pad's two bytes, which is read as the label [>-14]. *)
Definition record_of_noteOn (noteMap : gmap string string) (n : Note.t) (e : NoteOn.t)
    : Prop :=
  exists pad,
    noteMap !! NoteOn.note e = Some pad
    /\ Note.velocity n = NoteOn.velocity e mod 256
    /\ ((exists m, defaultMap !! pad = Some m
                   /\ Note.padLabel n = pad
                   /\ Note.midiNote n = PadMapping.midiNote m
                   /\ Note.bankSwitch n = PadMapping.bankSwitch m)
        \/ (pad ∈ Object_prototype_keys
            /\ defaultMap !! pad = None
            /\ Note.midiNote n = 0 /\ Note.bankSwitch n = 0
            /\ Note.padLabel n = ">-14")).

(** The Note On list [fromMidi] converts, in the order it converts it. *)
Definition ordered_noteOns (midi : AudioMIDI.t) : list NoteOn.t :=
  sort_by NoteOn.absoluteTime (collect_events (AudioMIDI.chunks midi)).

(** A record that is not an empty note. *)
Definition is_pad_note (n : Note.t) : bool := negb (Note.midiNote n =? 128).

(** The note a written record is parsed into, once committed. *)
Definition decode_record (opts : ParseOptions) (c : list Z) : Note.t :=
  note_at opts (DataBuffer.toUint8Array c) 0.

Definition entry_not_rest (e : string * PadMapping.t) : bool :=
  negb (PadMapping.midiNote e.2 =? 128).

(** No event of any track passes the Note On test of [fromMidi]. *)
Fixpoint no_noteOn (chunks : list Chunk) : Prop :=
  match chunks with
  | [] => True
  | MTrk _ events :: rest => Forall (fun e => is_true_noteOn e = false) events /\ no_noteOn rest
  | OtherChunk :: rest => no_noteOn rest
  end.

(** [l] with the values [ws] stored from index [o] on. *)
Definition overwrite (o : nat) (ws : list Z) (l : list Z) : list Z :=
  take o l ++ ws ++ drop (o + List.length ws) l.

(** The bytes of a number, lowest first. *)
Definition byte_of (v : Z) (k : Z) : Z := (v / 256 ^ k) mod 256.


(** The variable-length encoding as the MIDI file format states it: groups
    of seven bits, the highest first, the flag 128 on every byte but the
    last.  [vlq_high] gives the flagged bytes of the groups above the lowest. *)
Fixpoint vlq_high (fuel : nat) (w : Z) : list Z :=
  match fuel with
  | O => []
  | S fuel' => if 0 <? w then vlq_high fuel' (w / 128) ++ [w mod 128 + 128] else []
  end.

Definition vlq_bytes (v : Z) : list Z := vlq_high 4 (v / 128) ++ [v mod 128].

(** The value a reader accumulates over the bytes of one encoded number. *)
Definition vlq_value (bytes : list Z) : Z :=
  fold_left (fun value byte => js_shl value 7 + byte mod 128) bytes 0.
(** * Properties *)

(** ** Reading bytes *)

Section Reading.
Import DataBuffer.

Lemma readUInt8_ok (b : t) :
  (offset b < List.length (data b))%nat ->
  readUInt8 b = Ok (data b !!! offset b, at_offset (S (offset b)) b).
Proof.
  intros Hlt. unfold readUInt8, available, remainingBytes.
  replace (1 <=? _) with true by (symmetry; apply Z.leb_le; lia).
  rewrite orb_true_r. simpl.
  rewrite (list_lookup_lookup_total_lt _ _ Hlt). reflexivity.
Qed.

Lemma readUInt8_underflow (b : t) :
  writing b = false ->
  (List.length (data b) <= offset b)%nat ->
  readUInt8 b = Throw (UnderflowError "Insufficient Bytes: 1").
Proof.
  intros Hw Hge. unfold readUInt8, available, remainingBytes. rewrite Hw.
  replace (1 <=? _) with false by (symmetry; apply Z.leb_gt; lia).
  reflexivity.
Qed.

Lemma read_ok (n : nat) : forall b : t,
  (offset b + n <= List.length (data b))%nat ->
  read n b = Ok (take n (drop (offset b) (data b)), at_offset (offset b + n) b).
Proof.
  induction n as [|n IH]; intros b Hle.
  - simpl. rewrite take_0, Nat.add_0_r. destruct b; reflexivity.
  - simpl. rewrite readUInt8_ok by lia. simpl.
    rewrite IH by (simpl; lia). simpl.
    rewrite (drop_S _ (data b !!! offset b) (offset b))
      by (apply list_lookup_lookup_total_lt; lia).
    simpl. unfold at_offset. simpl. repeat f_equal. lia.
Qed.

Lemma read_underflow (n : nat) : forall b : t,
  writing b = false ->
  (offset b <= List.length (data b))%nat ->
  (List.length (data b) < offset b + n)%nat ->
  read n b = Throw (UnderflowError "Insufficient Bytes: 1").
Proof.
  induction n as [|n IH]; intros b Hw Hin0 Hlt; [lia|].
  simpl. destruct (decide (offset b < List.length (data b))%nat) as [Hin|Hout].
  - rewrite readUInt8_ok by assumption. simpl.
    rewrite IH; [reflexivity|assumption|simpl; lia|simpl; lia].
  - rewrite readUInt8_underflow by (assumption || lia). reflexivity.
Qed.

End Reading.

Lemma read_note_ok (opts : ParseOptions) (b : DataBuffer.t) :
  (DataBuffer.offset b + 8 <= List.length (DataBuffer.data b))%nat ->
  read_note opts b
  = Ok (note_at opts (DataBuffer.data b) (DataBuffer.offset b),
        at_offset (DataBuffer.offset b + 8) b).
Proof.
  intros Hle. unfold read_note.
  do 6 (rewrite readUInt8_ok by (simpl; lia); simpl).
  unfold DataBuffer.readUInt16.
  rewrite read_ok by (simpl; lia). simpl.
  set (o := DataBuffer.offset b) in *.
  set (d := DataBuffer.data b) in *.
  assert (H6 : d !! (S (S (S (S (S (S o))))))%nat = Some (d !!! (o + 6)%nat)).
  { replace (S (S (S (S (S (S o)))))) with (o + 6)%nat by lia.
    apply list_lookup_lookup_total_lt; lia. }
  assert (H7 : d !! (S (S (S (S (S (S (S o)))))))%nat = Some (d !!! (o + 7)%nat)).
  { replace (S (S (S (S (S (S (S o))))))) with (o + 7)%nat by lia.
    apply list_lookup_lookup_total_lt; lia. }
  rewrite (drop_S _ _ _ H6), (drop_S _ _ _ H7). simpl.
  unfold note_at, at_offset. simpl.
  replace (S o) with (o + 1)%nat by lia.
  replace (S (o + 1)) with (o + 2)%nat by lia.
  replace (S (o + 2)) with (o + 3)%nat by lia.
  replace (S (o + 3)) with (o + 4)%nat by lia.
  replace (S (o + 4)) with (o + 5)%nat by lia.
  replace (S (S (S (o + 5)))) with (o + 8)%nat by lia.
  reflexivity.
Qed.

(** The record loop on a stride of 8: it runs [j] more turns when the loop
    test holds up to [i + j] and fails there, and the bytes are present. *)
Lemma parse_notes_run (ppb : Z) (g : bool) (n : Z) :
  forall (j i fuel : nat) (b : DataBuffer.t) (acc : list Note.t),
  DataBuffer.offset b = (8 * i)%nat ->
  Z.of_nat (List.length (DataBuffer.data b)) = n ->
  (j = 0%nat \/ 8 * (Z.of_nat (i + j) + 1) < n) ->
  n <= 8 * (Z.of_nat (i + j) + 2) ->
  (j <= fuel)%nat ->
  parse_notes fuel (mkOptions 8 ppb g) n (Z.of_nat i) b acc
  = Ok (acc ++ map (fun x => note_at (mkOptions 8 ppb g) (DataBuffer.data b) (8 * x))
                (seq i j),
        at_offset (8 * (i + j)) b).
Proof.
  induction j as [|j IH]; intros i fuel b acc Hoff Hlen Hrun Hstop Hfuel.
  - assert (Hc : below_totalNotes (Z.of_nat i) n 8 = false).
    { unfold below_totalNotes. apply Z.ltb_ge. lia. }
    destruct fuel; cbn [parse_notes bytesPerNote]; rewrite Hc; cbn [seq map];
      rewrite app_nil_r, Nat.add_0_r, <- Hoff; destruct b; reflexivity.
  - assert (Hc : below_totalNotes (Z.of_nat i) n 8 = true).
    { unfold below_totalNotes. apply Z.ltb_lt. lia. }
    destruct fuel as [|fuel]; [lia|]. cbn [parse_notes bytesPerNote]. rewrite Hc.
    rewrite read_note_ok by (rewrite Hoff; lia). cbn [bind].
    replace (Z.of_nat i + 1) with (Z.of_nat (S i)) by lia.
    rewrite (IH (S i) fuel); cbn [at_offset DataBuffer.offset DataBuffer.data]; try lia.
    rewrite <- app_assoc. cbn [seq map app].
    unfold at_offset. cbn [DataBuffer.data DataBuffer.buffer DataBuffer.writing].
    rewrite Hoff. replace (8 * (S i + j))%nat with (8 * (i + S j))%nat by lia.
    reflexivity.
Qed.

Lemma toUint8Array_length (l : list Z) :
  List.length (DataBuffer.toUint8Array l) = List.length l.
Proof. unfold DataBuffer.toUint8Array. apply length_map. Qed.

Lemma toUint8Array_idem (l : list Z) :
  DataBuffer.toUint8Array (DataBuffer.toUint8Array l) = DataBuffer.toUint8Array l.
Proof.
  unfold DataBuffer.toUint8Array. rewrite map_map. apply map_ext.
  intros v. apply Z.mod_mod. lia.
Qed.

Lemma toUint8Array_lookup_total (l : list Z) (i : nat) :
  (i < List.length l)%nat ->
  DataBuffer.toUint8Array l !!! i = (l !!! i) mod 256.
Proof.
  intros Hi. unfold DataBuffer.toUint8Array.
  apply list_lookup_total_correct. rewrite list_lookup_fmap.
  rewrite (list_lookup_lookup_total_lt l i Hi). reflexivity.
Qed.

Lemma parse_notes_total (ppb : Z) (g : bool) (d : list Z) :
  parse_notes (S (List.length d)) (mkOptions 8 ppb g)
    (Z.of_nat (List.length d)) 0 (DataBuffer.ofUint8Array d) []
  = Ok (map (fun x => note_at (mkOptions 8 ppb g) d (8 * x))
          (seq 0 (record_turns (List.length d))),
        at_offset (8 * record_turns (List.length d)) (DataBuffer.ofUint8Array d)).
Proof.
  unfold record_turns.
  generalize (Nat.div_mod_eq (List.length d - 9) 8).
  generalize (Nat.mod_upper_bound (List.length d - 9) 8 ltac:(lia)).
  generalize ((List.length d - 9) mod 8)%nat.
  generalize ((List.length d - 9) / 8)%nat.
  intros q r Hr Hdm.
  change 0 with (Z.of_nat 0).
  rewrite (parse_notes_run ppb g (Z.of_nat (List.length d)) q 0).
  - reflexivity.
  - reflexivity.
  - reflexivity.
  - destruct q; [left; reflexivity|right; lia].
  - lia.
  - lia.
Qed.

(** ** Fuel: the gap loop always terminates *)

Lemma insertEmptyNotes_loop_Ok : forall (fuel : nat) (gap : Z) (b : DataBuffer.t),
  gap <= Z.of_nat fuel -> is_Ok (insertEmptyNotes_loop fuel gap b).
Proof.
  induction fuel as [|fuel IH]; intros gap b Hle; simpl.
  - replace (0 <? gap) with false by (symmetry; apply Z.ltb_ge; lia).
    eexists; reflexivity.
  - destruct (0 <? gap) eqn:Hpos; [|eexists; reflexivity].
    apply Z.ltb_lt in Hpos. apply IH. unfold maxTicksInGap. lia.
Qed.

Lemma insertEmptyNotes_Ok (gap : Z) (b : DataBuffer.t) : is_Ok (insertEmptyNotes gap b).
Proof. apply insertEmptyNotes_loop_Ok. lia. Qed.

(** ** The record parser *)

Lemma record_turns_exact (k : nat) : record_turns (8 * k + 16) = k.
Proof.
  unfold record_turns. replace (8 * k + 16 - 9)%nat with (7 + k * 8)%nat by lia.
  rewrite Nat.div_add by lia. reflexivity.
Qed.

Lemma record_turns_short (n : nat) :
  (forall k : nat, n <> (8 * k + 16)%nat) ->
  (8 * record_turns n <= n /\ n < 8 * record_turns n + 16)%nat.
Proof.
  intros Hn. unfold record_turns.
  pose proof (Nat.div_mod_eq (n - 9) 8) as Hdm.
  pose proof (Nat.mod_upper_bound (n - 9) 8 ltac:(lia)) as Hr.
  specialize (Hn ((n - 9) / 8)%nat). lia.
Qed.

(** An array of [8k + 16] values parses into the [k] notes that the first
    [8k] bytes of its typed copy decode to, and the last sixteen bytes are the
    footer. *)
Lemma AudioPattern_ok (ppb : Z) (g : bool) (input : list Z) (k : nat) :
  List.length input = (8 * k + 16)%nat ->
  AudioPattern input (mkOptions 8 ppb g)
  = Ok (mkPattern
          (map (fun i => note_at (mkOptions 8 ppb g) (DataBuffer.toUint8Array input) (8 * i))
             (seq 0 k))
          (drop (8 * k) (DataBuffer.toUint8Array input) !!! 8%nat)
          (drop (8 * k) (DataBuffer.toUint8Array input) !!! 12%nat)
          (drop (8 * k) (DataBuffer.toUint8Array input))).
Proof.
  intros Hlen. unfold AudioPattern, parse, DataBuffer.ofBytes.
  rewrite <- toUint8Array_length in Hlen.
  set (d := DataBuffer.toUint8Array input) in *.
  replace (DataBuffer.remainingBytes (DataBuffer.ofUint8Array d))
    with (Z.of_nat (List.length d))
    by (unfold DataBuffer.remainingBytes; simpl; lia).
  cbn [DataBuffer.ofUint8Array DataBuffer.data].
  change (DataBuffer.mk d d 0 false) with (DataBuffer.ofUint8Array d).
  rewrite parse_notes_total. cbn [bind].
  rewrite Hlen, record_turns_exact.
  rewrite read_ok by (simpl; lia). cbn [bind at_offset DataBuffer.offset DataBuffer.data
    DataBuffer.ofUint8Array].
  rewrite take_ge by (rewrite length_drop; lia). reflexivity.
Qed.

(** Any other length makes the parse run out of bytes. *)
Lemma AudioPattern_underflow (ppb : Z) (g : bool) (input : list Z) :
  (forall k : nat, List.length input <> (8 * k + 16)%nat) ->
  AudioPattern input (mkOptions 8 ppb g) = Throw (UnderflowError "Insufficient Bytes: 1").
Proof.
  intros Hn. unfold AudioPattern, parse, DataBuffer.ofBytes.
  rewrite <- toUint8Array_length in Hn.
  set (d := DataBuffer.toUint8Array input) in *.
  replace (DataBuffer.remainingBytes (DataBuffer.ofUint8Array d))
    with (Z.of_nat (List.length d))
    by (unfold DataBuffer.remainingBytes; simpl; lia).
  cbn [DataBuffer.ofUint8Array DataBuffer.data].
  change (DataBuffer.mk d d 0 false) with (DataBuffer.ofUint8Array d).
  rewrite parse_notes_total. cbn [bind].
  destruct (record_turns_short _ Hn) as [Hlo Hhi].
  rewrite read_underflow; [reflexivity|reflexivity|simpl; lia|simpl; lia].
Qed.

Lemma sampleNumber_unrecognized (g : bool) (ppb midiNote bankSwitch : Z) :
  recognized_bankSwitch g bankSwitch = false ->
  sampleNumber_of g ppb midiNote bankSwitch = 160.
Proof.
  unfold recognized_bankSwitch, sampleNumber_of.
  destruct g, (bankSwitch =? 0), (bankSwitch =? 64), (bankSwitch =? 1), (bankSwitch =? 65);
    simpl; intros H; (discriminate || reflexivity).
Qed.

(** ** The pad tables *)

Lemma defaultMap_entries_checked : forallb label_check defaultMap_entries = true.
Proof. vm_compute. reflexivity. Qed.

(** The tables hold one entry per pad: ten banks of sixteen and of twelve. *)
Lemma pad_tables_size : size defaultMap = 160%nat /\ size defaultMapOG = 120%nat.
Proof. split; vm_compute; reflexivity. Qed.

Lemma defaultMap_lookup_entry (L : string) (m : PadMapping.t) :
  defaultMap !! L = Some m -> (L, m) ∈ defaultMap_entries.
Proof. unfold defaultMap. apply elem_of_list_to_map_2. Qed.

Lemma defaultMap_label (L : string) (m : PadMapping.t) :
  defaultMap !! L = Some m ->
  padLabel_of 16 (sampleNumber_of false 16 (PadMapping.midiNote m) (PadMapping.bankSwitch m)) = L.
Proof.
  intros H%defaultMap_lookup_entry%list_elem_of_In.
  pose proof defaultMap_entries_checked as Hall.
  rewrite forallb_forall in Hall. specialize (Hall _ H).
  unfold label_check in Hall. simpl in Hall. apply String.eqb_eq in Hall. exact Hall.
Qed.

Lemma note_at_fields (opts : ParseOptions) (input : list Z) (o : nat) :
  (o + 8 <= List.length input)%nat ->
  let n := note_at opts (DataBuffer.toUint8Array input) o in
  Note.ticks n = (input !!! o) mod 256
  /\ Note.midiNote n = (input !!! (o + 1)%nat) mod 256
  /\ Note.bankSwitch n = (input !!! (o + 2)%nat) mod 256
  /\ Note.pitchMode n = (input !!! (o + 3)%nat) mod 256
  /\ Note.velocity n = (input !!! (o + 4)%nat) mod 256
  /\ Note.unknown3 n = (input !!! (o + 5)%nat) mod 256
  /\ Note.length n
     = (input !!! (o + 6)%nat) mod 256 + 256 * ((input !!! (o + 7)%nat) mod 256).
Proof.
  intros Ho n. subst n. unfold note_at, make_note.
  cbn [Note.ticks Note.midiNote Note.bankSwitch Note.pitchMode Note.velocity
       Note.unknown3 Note.length].
  rewrite !toUint8Array_lookup_total by lia. repeat split.
Qed.

(** C9 (as amended).  With the default stride of 8, an input of [8k + 16]
    values, each taken modulo 256 as the typed array of the constructor holds
    it, is parsed into exactly [k = totalBytes / 8 - 2] note records; record
    [i] has for ticks, midiNote, bankSwitch, pitchMode, velocity and the
    reserved field the bytes [8i] to [8i + 5] in this order, and for length
    the bytes [8i + 6] and [8i + 7] read as a little-endian 16-bit number; the
    last sixteen bytes are the footer.  An input of any other length makes the
    parse throw an underflow error, because the record count is the quotient
    [totalBytes / 8 - 2] without truncation. *)
Theorem parse_record_count (ppb : Z) (g : bool) (input : list Z) :
  (forall k : nat, List.length input = (8 * k + 16)%nat ->
     exists p, AudioPattern input (mkOptions 8 ppb g) = Ok p
       /\ Z.of_nat (List.length (notes p)) = Z.of_nat (List.length input) / 8 - 2
       /\ (forall i : nat, (i < k)%nat ->
             exists n, notes p !! i = Some n
               /\ Note.ticks n = (input !!! (8 * i)%nat) mod 256
               /\ Note.midiNote n = (input !!! (8 * i + 1)%nat) mod 256
               /\ Note.bankSwitch n = (input !!! (8 * i + 2)%nat) mod 256
               /\ Note.pitchMode n = (input !!! (8 * i + 3)%nat) mod 256
               /\ Note.velocity n = (input !!! (8 * i + 4)%nat) mod 256
               /\ Note.unknown3 n = (input !!! (8 * i + 5)%nat) mod 256
               /\ Note.length n
                  = (input !!! (8 * i + 6)%nat) mod 256
                    + 256 * ((input !!! (8 * i + 7)%nat) mod 256))
       /\ footer p = map (fun v => v mod 256) (drop (8 * k) input)
       /\ List.length (footer p) = 16%nat
       /\ bars p = (input !!! (8 * k + 8)%nat) mod 256
       /\ timeSignature p = (input !!! (8 * k + 12)%nat) mod 256)
  /\ ((forall k : nat, List.length input <> (8 * k + 16)%nat) ->
      AudioPattern input (mkOptions 8 ppb g)
      = Throw (UnderflowError "Insufficient Bytes: 1")).
Proof.
  split; [|apply AudioPattern_underflow].
  intros k Hlen. eexists. split; [apply AudioPattern_ok; exact Hlen|].
  cbn [notes footer bars timeSignature].
  split; [|split; [|split; [|split; [|split]]]].
  - rewrite length_map, length_seq, Hlen.
    replace (Z.of_nat (8 * k + 16)) with ((Z.of_nat k + 2) * 8) by lia.
    rewrite Z.div_mul by lia. lia.
  - intros i Hi.
    exists (note_at (mkOptions 8 ppb g) (DataBuffer.toUint8Array input) (8 * i)). split.
    + rewrite list_lookup_fmap, lookup_seq_lt by assumption. reflexivity.
    + apply (note_at_fields (mkOptions 8 ppb g) input (8 * i)). lia.
  - unfold DataBuffer.toUint8Array. rewrite skipn_map. reflexivity.
  - rewrite length_drop, toUint8Array_length. lia.
  - rewrite lookup_total_drop. apply toUint8Array_lookup_total. lia.
  - rewrite lookup_total_drop. apply toUint8Array_lookup_total. lia.
Qed.

Lemma parse_record_count_witness :
  exists p n, AudioPattern [266; 63; 64; 0; 100; 64; 44; 1;
                            0; 140; 0; 0; 0; 0; 0; 0; 1; 0; 0; 0; 0; 128; 1; 1]
                (mkOptions 8 16 false) = Ok p
    /\ List.length (notes p) = 1%nat
    /\ notes p !! 0%nat = Some n
    /\ Note.ticks n = 10
    /\ Note.length n = 300.
Proof.
  destruct (proj1 (parse_record_count 16 false
              [266; 63; 64; 0; 100; 64; 44; 1;
               0; 140; 0; 0; 0; 0; 0; 0; 1; 0; 0; 0; 0; 128; 1; 1]) 1%nat eq_refl)
    as (p & Hp & Hn & Hrec & _).
  destruct (Hrec 0%nat ltac:(lia)) as (n & Hi & Ht & _ & _ & _ & _ & _ & Hl).
  exists p, n. split; [exact Hp|].
  change (Z.of_nat (List.length (notes p)) = 1) in Hn.
  split; [lia|]. split; [exact Hi|]. split; [exact Ht|exact Hl].
Defined.

(** C9 (as stated) fails on a buffer of 20 bytes: the loop test [0 < 20/8 - 2]
    holds, one record is read, the footer then lacks four bytes and the parse
    throws instead of returning [floor(20/8) - 2 = 0] records and a footer. *)
Lemma parse_20_bytes_throws :
  (exists ns b, parse_notes 21 defaultOptions 20 0 (DataBuffer.ofBytes (replicate 20 0)) []
                = Ok (ns, b) /\ List.length ns = 1%nat)
  /\ AudioPattern (replicate 20 0) defaultOptions
     = Throw (UnderflowError "Insufficient Bytes: 1")
  /\ ~ (exists p, AudioPattern (replicate 20 0) defaultOptions = Ok p
          /\ Z.of_nat (List.length (notes p)) = 20 / 8 - 2).
Proof.
  split; [|split].
  - eexists _, _. split; [vm_compute; reflexivity|reflexivity].
  - vm_compute. reflexivity.
  - intros (p & Hp & _). vm_compute in Hp. discriminate Hp.
Qed.

(** C7 (as amended).  A record whose bankSwitch byte is not one the hardware
    revision knows (0 and 64 on the original SP-404; 0, 64, 1 and 65 on the
    MKii) gets the sample number 160 and the pad label built from 160, and
    the parse goes on: every record of the input is returned.  The value is a
    fixed one, not a function of the record (a known bankSwitch gives
    [midiNote - 46], plus five banks for the upper half), and it is not
    outside the pads of sixteen-pad banks: there 160 is the sample number of
    pad J16, and the label is J16; with twelve pads per bank the label is N4,
    beyond the last bank J. *)
Theorem parse_unrecognized_bankSwitch (ppb : Z) (g : bool) (input : list Z) (k i : nat) :
  List.length input = (8 * k + 16)%nat ->
  (i < k)%nat ->
  exists p n, AudioPattern input (mkOptions 8 ppb g) = Ok p
    /\ List.length (notes p) = k
    /\ notes p !! i = Some n
    /\ Note.midiNote n = (input !!! (8 * i + 1)%nat) mod 256
    /\ Note.bankSwitch n = (input !!! (8 * i + 2)%nat) mod 256
    /\ (recognized_bankSwitch g (Note.bankSwitch n) = false ->
        Note.sampleNumber n = 160
        /\ Note.padLabel n = padLabel_of ppb 160
        /\ (ppb = 16 -> Note.padLabel n = "J16")
        /\ (ppb = 12 -> Note.padLabel n = "N4"))
    /\ (Note.bankSwitch n = 0 -> Note.sampleNumber n = Note.midiNote n - 46)
    /\ (Note.bankSwitch n = 64 ->
        Note.sampleNumber n = Note.midiNote n - 46 + (if g then ppb * 5 else 0))
    /\ (g = false -> Note.bankSwitch n = 1 \/ Note.bankSwitch n = 65 ->
        Note.sampleNumber n = Note.midiNote n - 46 + ppb * 5).
Proof.
  intros Hlen Hi.
  eexists _, (note_at (mkOptions 8 ppb g) (DataBuffer.toUint8Array input) (8 * i)).
  split; [apply AudioPattern_ok; exact Hlen|]. cbn [notes].
  split; [rewrite length_map, length_seq; reflexivity|].
  split; [rewrite list_lookup_fmap, lookup_seq_lt by assumption; reflexivity|].
  destruct (note_at_fields (mkOptions 8 ppb g) input (8 * i) ltac:(lia))
    as (_ & Hm & Hb & _).
  split; [exact Hm|]. split; [exact Hb|].
  unfold note_at, make_note.
  cbn [Note.sampleNumber Note.padLabel Note.bankSwitch Note.midiNote og padsPerBank].
  set (m := DataBuffer.toUint8Array input !!! (8 * i + 1)%nat).
  set (bs := DataBuffer.toUint8Array input !!! (8 * i + 2)%nat).
  split; [|split; [|split]].
  - intros Hbs. rewrite (sampleNumber_unrecognized g ppb m bs Hbs).
    split; [reflexivity|]. split; [reflexivity|].
    split; intros ->; reflexivity.
  - intros ->. unfold sampleNumber_of. destruct g; reflexivity.
  - intros ->. unfold sampleNumber_of. destruct g; cbn; lia.
  - intros -> [-> | ->]; unfold sampleNumber_of; cbn; lia.
Qed.

Lemma parse_unrecognized_bankSwitch_witness :
  exists p n, AudioPattern [0; 63; 7; 0; 100; 64; 0; 0;
                            5; 47; 64; 0; 90; 64; 0; 0;
                            0; 140; 0; 0; 0; 0; 0; 0; 1; 0; 0; 0; 0; 128; 1; 1]
                (mkOptions 8 16 false) = Ok p
    /\ List.length (notes p) = 2%nat
    /\ notes p !! 0%nat = Some n
    /\ Note.bankSwitch n = 7
    /\ Note.sampleNumber n = 160
    /\ Note.padLabel n = "J16".
Proof.
  destruct (parse_unrecognized_bankSwitch 16 false
           [0; 63; 7; 0; 100; 64; 0; 0;
            5; 47; 64; 0; 90; 64; 0; 0;
            0; 140; 0; 0; 0; 0; 0; 0; 1; 0; 0; 0; 0; 128; 1; 1]
           2 0 eq_refl ltac:(lia))
    as (p & n & Hp & Hlen & Hn & _ & Hb & Hun & _).
  change (Note.bankSwitch n = 7) in Hb.
  destruct (Hun ltac:(rewrite Hb; reflexivity)) as (Hs & _ & HJ & _).
  exists p, n. split; [exact Hp|]. split; [exact Hlen|]. split; [exact Hn|].
  split; [exact Hb|]. split; [exact Hs|exact (HJ eq_refl)].
Defined.

(** C7 (as stated) fails under the default options: 160 is not out of range
    there.  Of two records, one on pad J16 (midiNote 126, bankSwitch 65, the
    entry of the pad table) and one with the unknown bankSwitch 7, both are
    parsed with sample number 160 and pad label J16, and 160 lies within the
    160 pads of ten banks of sixteen. *)
Lemma unrecognized_bankSwitch_reads_as_J16 :
  exists p n1 n2,
    AudioPattern [0; 126; 65; 0; 100; 64; 0; 0;
                  0; 47; 7; 0; 100; 64; 0; 0;
                  0; 140; 0; 0; 0; 0; 0; 0; 1; 0; 0; 0; 0; 128; 1; 1]
      defaultOptions = Ok p
    /\ notes p = [n1; n2]
    /\ defaultMap !! "J16" = Some (PadMapping.mk (Note.midiNote n1) "J16" (Note.bankSwitch n1))
    /\ recognized_bankSwitch false (Note.bankSwitch n1) = true
    /\ recognized_bankSwitch false (Note.bankSwitch n2) = false
    /\ Note.sampleNumber n1 = 160 /\ Note.sampleNumber n2 = 160
    /\ Note.padLabel n1 = "J16" /\ Note.padLabel n2 = "J16"
    /\ 1 <= 160 <= 10 * padsPerBank defaultOptions.
Proof.
  eexists _, _, _. split; [vm_compute; reflexivity|].
  split; [reflexivity|]. vm_compute. repeat split; discriminate.
Qed.

(** C8.  Under the options of the current hardware (og = false, sixteen pads
    per bank) a record with midiNote 63 and bankSwitch 64 is parsed into a note
    with sample number 17 and pad label B1, whatever its other bytes are. *)
Theorem parse_record_63_64_is_B1 (ticks pitchMode velocity unknown3 len0 len1 : Z)
    (foot : list Z) :
  List.length foot = 16%nat ->
  exists p n,
    AudioPattern ([ticks; 63; 64; pitchMode; velocity; unknown3; len0; len1] ++ foot)
      (mkOptions 8 16 false) = Ok p
    /\ notes p = [n]
    /\ Note.midiNote n = 63 /\ Note.bankSwitch n = 64
    /\ Note.sampleNumber n = 17
    /\ Note.padLabel n = "B1"
    /\ Note.padLabel n
       = fromCharCode (charCode_A + Math_floor_div (Note.sampleNumber n - 1) 16)
         +:+ String_of_number (js_rem (Note.sampleNumber n - 1) 16 + 1).
Proof.
  intros Hfoot. eexists _, _.
  split; [apply (AudioPattern_ok 16 false _ 1); simpl; rewrite Hfoot; reflexivity|].
  cbn [notes seq map]. split; [reflexivity|].
  unfold note_at, make_note. cbn [Note.midiNote Note.bankSwitch Note.sampleNumber Note.padLabel].
  repeat split.
Qed.

Lemma parse_record_63_64_is_B1_witness :
  exists p n,
    AudioPattern ([0; 63; 64; 0; 127; 64; 96; 0]
                  ++ [0; 140; 0; 0; 0; 0; 0; 0; 1; 0; 0; 0; 0; 128; 1; 1])
      (mkOptions 8 16 false) = Ok p
    /\ notes p = [n]
    /\ Note.midiNote n = 63 /\ Note.bankSwitch n = 64
    /\ Note.sampleNumber n = 17
    /\ Note.padLabel n = "B1"
    /\ Note.padLabel n
       = fromCharCode (charCode_A + Math_floor_div (Note.sampleNumber n - 1) 16)
         +:+ String_of_number (js_rem (Note.sampleNumber n - 1) 16 + 1).
Proof.
  exact (parse_record_63_64_is_B1 0 0 127 64 96 0
           [0; 140; 0; 0; 0; 0; 0; 0; 1; 0; 0; 0; 0; 128; 1; 1] eq_refl).
Defined.



(** ** The argument checks of [fromMidi] *)

Lemma convert_event_Ok_or_TypeError og noteMap p m st event :
  Ok_or_TypeError (convert_event og noteMap p m st event).
Proof.
  unfold convert_event.
  destruct (255 <? _).
  - destruct (insertEmptyNotes_Ok
                (Math_round_mul (NoteOn.absoluteTime event - lastAbsoluteTime st) p m
                 - currentTime st) (dataBuffer st)) as [b Hb].
    rewrite Hb. cbn [bind]. destruct (resolve_pad _ _ _); exact I.
  - cbn [bind]. destruct (resolve_pad _ _ _); exact I.
Qed.

Lemma convert_events_Ok_or_TypeError og noteMap p m events : forall st,
  Ok_or_TypeError (convert_events og noteMap p m st events).
Proof.
  induction events as [|event rest IH]; intros st; simpl; [exact I|].
  pose proof (convert_event_Ok_or_TypeError og noteMap p m st event) as H.
  destruct (convert_event og noteMap p m st event) as [st'|e]; simpl.
  - apply IH.
  - exact H.
Qed.

Lemma round_to_bar_Ok (ticksPerBar : Z) (st : ConvState) :
  is_Ok (round_to_bar ticksPerBar st).
Proof.
  unfold round_to_bar.
  destruct (_ && _).
  - destruct (insertEmptyNotes_Ok ticksPerBar (dataBuffer st)) as [b Hb].
    rewrite Hb. eexists; reflexivity.
  - destruct (negb _); [|eexists; reflexivity].
    destruct (_ <=? _); [|eexists; reflexivity].
    destruct (insertEmptyNotes_Ok (ticksPerBar - js_rem (currentTime st) ticksPerBar)
                (dataBuffer st)) as [b Hb].
    rewrite Hb. eexists; reflexivity.
Qed.

Lemma fromMidi_Ok_or_TypeError midi noteMap (p : Z) og :
  p <> 0 -> Ok_or_TypeError (fromMidi (Some midi) (Some noteMap) (Some p) og).
Proof.
  intros Hp. unfold fromMidi. cbv zeta. cbn [falsy_number default]. unfold id.
  replace (p =? 0) with false by (symmetry; apply Z.eqb_neq; exact Hp).
  pose proof (convert_events_Ok_or_TypeError og noteMap p (AudioMIDI.timeDivision midi)
                (sort_by NoteOn.absoluteTime (collect_events (AudioMIDI.chunks midi)))
                (mkState DataBuffer.empty 0 (Some 0) 0)) as H.
  destruct (convert_events _ _ _ _ _ _) as [st|e]; cbn [bind]; [|exact H].
  destruct (round_to_bar_Ok (p * 4) st) as [[b t] Hb]. rewrite Hb. exact I.
Qed.

(** C6.  [fromMidi] throws an [Error] naming the missing argument when the
    AudioMIDI instance, the note map or the pattern PPQN is missing (a PPQN of
    0 counts as missing); the checks come first, so no buffer exists yet.
    With the three arguments present no such [Error] is thrown. *)
Theorem fromMidi_missing_arguments (midi : AudioMIDI.t) (noteMap : gmap string string)
    (anyMap : option (gmap string string)) (anyPPQN : option Z) (p : Z) (og : bool) :
  fromMidi None anyMap anyPPQN og = Throw (Error msg_no_audioMIDI)
  /\ fromMidi (Some midi) None anyPPQN og = Throw (Error msg_no_noteMap)
  /\ fromMidi (Some midi) (Some noteMap) None og = Throw (Error msg_no_patternPPQN)
  /\ fromMidi (Some midi) (Some noteMap) (Some 0) og = Throw (Error msg_no_patternPPQN)
  /\ (p <> 0 ->
      forall message, fromMidi (Some midi) (Some noteMap) (Some p) og <> Throw (Error message)).
Proof.
  repeat split.
  intros Hp message Heq.
  pose proof (fromMidi_Ok_or_TypeError midi noteMap p og Hp) as H.
  rewrite Heq in H. exact H.
Qed.

Lemma fromMidi_missing_arguments_witness :
  fromMidi (Some (AudioMIDI.mk 1 1 480 [])) (Some ∅) (Some 480) false
  <> Throw (Error msg_no_patternPPQN).
Proof.
  exact (proj2 (proj2 (proj2 (proj2
    (fromMidi_missing_arguments (AudioMIDI.mk 1 1 480 []) ∅ None None 480 false))))
    ltac:(discriminate) msg_no_patternPPQN).
Defined.

(** ** Stable sorting *)

Section SortFacts.
Context {A : Type} (key : A -> Z).

Lemma insert_by_Permutation (x : A) (l : list A) : insert_by key x l ≡ₚ x :: l.
Proof.
  induction l as [|y l IH]; simpl; [reflexivity|].
  destruct (key x <=? key y); [reflexivity|].
  rewrite IH. apply perm_swap.
Qed.

Lemma sort_by_Permutation (l : list A) : sort_by key l ≡ₚ l.
Proof.
  induction l as [|x l IH]; simpl; [reflexivity|].
  rewrite insert_by_Permutation, IH. reflexivity.
Qed.

Lemma sort_by_length (l : list A) : List.length (sort_by key l) = List.length l.
Proof. apply Permutation_length, sort_by_Permutation. Qed.

Lemma insert_by_sorted (x : A) (l : list A) :
  StronglySorted Z.le (map key l) -> StronglySorted Z.le (map key (insert_by key x l)).
Proof.
  induction l as [|y l IH]; simpl; intros Hs.
  - constructor; constructor.
  - destruct (key x <=? key y) eqn:Hxy; simpl.
    + apply Z.leb_le in Hxy. constructor; [exact Hs|].
      inversion_clear Hs as [|? ? _ Hall].
      constructor; [exact Hxy|].
      eapply Forall_impl; [exact Hall|]. simpl. intros; lia.
    + apply Z.leb_gt in Hxy. inversion_clear Hs as [|? ? Hl Hall].
      constructor; [apply IH, Hl|].
      rewrite List.Forall_forall in Hall |- *.
      intros z Hz. apply in_map_iff in Hz as (w & <- & Hw).
      apply (Permutation_in _ (insert_by_Permutation x l)) in Hw as [<-|Hw]; [lia|].
      apply Hall, in_map, Hw.
Qed.

Lemma sort_by_sorted (l : list A) : StronglySorted Z.le (map key (sort_by key l)).
Proof.
  induction l as [|x l IH]; simpl; [constructor|]. apply insert_by_sorted, IH.
Qed.

Lemma insert_by_head (x : A) (l : list A) :
  Forall (fun y => key x <= key y) l -> insert_by key x l = x :: l.
Proof.
  destruct l as [|y l]; simpl; [reflexivity|].
  intros H. inversion_clear H as [|? ? Hxy _].
  apply Z.leb_le in Hxy. rewrite Hxy. reflexivity.
Qed.

(** A list already in time order is left as it is. *)
Lemma sort_by_sorted_id (l : list A) :
  StronglySorted Z.le (map key l) -> sort_by key l = l.
Proof.
  induction l as [|x l IH]; simpl; intros Hs; [reflexivity|].
  inversion_clear Hs as [|? ? Hl Hall]. rewrite (IH Hl).
  apply insert_by_head. rewrite Forall_map in Hall. exact Hall.
Qed.

Lemma filter_insert_by (f : A -> bool) (x : A) (l : list A) :
  StronglySorted Z.le (map key l) ->
  List.filter f (insert_by key x l)
  = if f x then insert_by key x (List.filter f l) else List.filter f l.
Proof.
  induction l as [|y l IH]; simpl; intros Hs.
  - destruct (f x); reflexivity.
  - inversion_clear Hs as [|? ? Hl Hall]. rewrite Forall_map in Hall.
    destruct (key x <=? key y) eqn:Hxy; simpl.
    + apply Z.leb_le in Hxy. destruct (f x) eqn:Hfx, (f y) eqn:Hfy; simpl;
        rewrite ?Hfx, ?Hfy; try reflexivity.
      * apply Z.leb_le in Hxy. rewrite Hxy. reflexivity.
      * symmetry. apply insert_by_head.
        rewrite List.Forall_forall in Hall |- *. intros z Hz.
        apply filter_In in Hz as [Hz _]. specialize (Hall z Hz). simpl in Hall. lia.
    + rewrite (IH Hl). destruct (f x) eqn:Hfx, (f y) eqn:Hfy; simpl;
        rewrite ?Hxy; reflexivity.
Qed.

(** Stability: selecting commutes with sorting. *)
Lemma filter_sort_by (f : A -> bool) (l : list A) :
  List.filter f (sort_by key l) = sort_by key (List.filter f l).
Proof.
  induction l as [|x l IH]; simpl; [reflexivity|].
  rewrite filter_insert_by by apply sort_by_sorted.
  rewrite IH. destruct (f x); reflexivity.
Qed.

End SortFacts.

(** ** Pattern to MIDI *)
















(** ** Where the converter departs from its description *)

(** C1 (evaluation at the failing input).  Two Note On events 600 ticks
    apart, both resolutions 480: three rests of 255, 255 and 90 ticks are
    written, and then the note record itself is written with the whole gap of
    600 as its ticks value, which the byte array made from the buffer holds as
    88.  With the first note at tick 100 instead, the rests before the second
    note add up to 500, not to the gap of 600; and of three notes 300 ticks
    apart the third gets no rest at all and 300 as its ticks value. *)
Theorem fromMidi_gap_600_ticks_overflow :
  (exists b,
     fromMidi (Some (single_track 480 [parsed_noteOn 0 "60" 100; parsed_noteOn 600 "60" 100]))
       (Some {[ "60" := "A1" ]}) (Some 480) false = Ok b
     /\ take 5 (written_ticks b) = [0; 255; 255; 90; 600]
     /\ DataBuffer.buffer b !! 32%nat = Some 600
     /\ DataBuffer.data (DataBuffer.commit b) !! 32%nat = Some 88)
  /\ (exists b,
        fromMidi (Some (single_track 480 [parsed_noteOn 100 "60" 100; parsed_noteOn 600 "60" 100]))
          (Some {[ "60" := "A1" ]}) (Some 480) false = Ok b
        /\ take 4 (written_ticks b) = [100; 255; 245; 600])
  /\ (exists b,
        fromMidi (Some (single_track 480 [parsed_noteOn 0 "60" 100; parsed_noteOn 300 "60" 100;
                                          parsed_noteOn 300 "60" 100]))
          (Some {[ "60" := "A1" ]}) (Some 480) false = Ok b
        /\ take 5 (written_ticks b) = [0; 255; 45; 300; 300]).
Proof.
  repeat split; eexists; (split; [vm_compute; reflexivity|]); vm_compute; repeat split.
Qed.

(** C3 (evaluation at the failing input).  Two Note On events 65 bars apart
    (124800 ticks at 480 per quarter note): the total is a whole number of
    bars, the branch that caps at 64 bars is not entered, and 65 is written to
    the footer bytes 8 and 14.  A single note at tick 0 with a length gets one
    bar of rests, while the bar count written stays 0. *)
Theorem fromMidi_bar_count_unbounded :
  (exists b,
     fromMidi (Some (single_track 480 [parsed_noteOn 0 "60" 100; parsed_noteOn 124800 "60" 100]))
       (Some {[ "60" := "A1" ]}) (Some 480) false = Ok b
     /\ drop (List.length (DataBuffer.buffer b) - 16) (DataBuffer.buffer b)
        = [0; 140; 0; 0; 0; 0; 0; 0; 65; 0; 0; 0; 0; 128; 65; 1])
  /\ (exists b,
        fromMidi (Some (single_track 480 [closed_noteOn 0 "60" 100 240]))
          (Some {[ "60" := "A1" ]}) (Some 480) false = Ok b
        /\ written_ticks b = [0; 255; 255; 255; 255; 255; 255; 255; 135]
        /\ drop (List.length (DataBuffer.buffer b) - 16) (DataBuffer.buffer b)
           = [0; 140; 0; 0; 0; 0; 0; 0; 0; 0; 0; 0; 0; 128; 0; 1]).
Proof.
  split; eexists; (split; [vm_compute; reflexivity|]); vm_compute; repeat split.
Qed.

(** C4 (evaluation at the failing input).  [toMidi] passes over a note whose
    pad has no entry and converts the next one; [fromMidi] given a Note On
    whose note has no entry stops with a type error. *)
Theorem unmapped_note_skipped_or_thrown :
  toMidi_noteEvents {[ "B1" := 37 ]}
    [make_note defaultOptions 10 47 64 0 127 64 0;
     make_note defaultOptions 20 63 64 0 90 64 0]
  = [MidiEvent.set_deltaTime 30
       (noteOnEvent 30 37 (make_note defaultOptions 20 63 64 0 90 64 0))]
  /\ fromMidi (Some (single_track 480 [parsed_noteOn 0 "60" 100]))
       (Some {[ "61" := "A1" ]}) (Some 480) false
     = Throw (TypeError "Cannot destructure property 'bankSwitch' of undefined").
Proof. split; vm_compute; reflexivity. Qed.

(** ** Writing at the end of a buffer *)

Lemma array_set_end (v : Z) (l : list Z) :
  DataBuffer.array_set (List.length l) v l = l ++ [v].
Proof.
  unfold DataBuffer.array_set. rewrite Nat.ltb_irrefl, Nat.sub_diag. reflexivity.
Qed.

Lemma append_bytes_at_end (bytes : list Z) (b : DataBuffer.t) :
  at_end b -> at_end (append_bytes bytes b).
Proof. unfold at_end, append_bytes. simpl. intros ->. rewrite length_app. reflexivity. Qed.

Lemma append_bytes_app (x y : list Z) (b : DataBuffer.t) :
  append_bytes y (append_bytes x b) = append_bytes (x ++ y) b.
Proof.
  unfold append_bytes. simpl. rewrite <- app_assoc, length_app, Nat.add_assoc. reflexivity.
Qed.

Lemma append_bytes_nil (b : DataBuffer.t) : append_bytes [] b = b.
Proof. unfold append_bytes. simpl. rewrite app_nil_r, Nat.add_0_r. destruct b; reflexivity. Qed.

Lemma writeUInt8_append (v : Z) (b : DataBuffer.t) :
  at_end b -> DataBuffer.writeUInt8 v b = append_bytes [v] b.
Proof.
  unfold at_end, DataBuffer.writeUInt8, append_bytes. intros ->.
  rewrite array_set_end, Nat.add_1_r. reflexivity.
Qed.

Lemma writeUInt16_le_append (v : Z) (b : DataBuffer.t) :
  at_end b ->
  DataBuffer.writeUInt16_le v b
  = append_bytes [Z.land v 255; Z.shiftr (Z.land v 65280) 8] b.
Proof.
  unfold at_end, DataBuffer.writeUInt16_le, append_bytes. intros ->.
  cbv zeta. rewrite array_set_end.
  replace (S (List.length (DataBuffer.buffer b)))
    with (List.length (DataBuffer.buffer b ++ [Z.land v 255]))
    by (rewrite length_app; simpl; lia).
  rewrite array_set_end, <- app_assoc, length_app. simpl.
  f_equal. lia.
Qed.

Lemma writeBytes_loop_append (d : list Z) : forall (i off : nat) (buf : list Z),
  (off + i)%nat = List.length buf ->
  DataBuffer.writeBytes_loop i d off buf = buf ++ d.
Proof.
  induction d as [|x d IH]; intros i off buf Hlen; simpl.
  - rewrite app_nil_r. reflexivity.
  - rewrite Hlen, array_set_end, IH by (rewrite length_app; simpl; lia).
    rewrite <- app_assoc. reflexivity.
Qed.

Lemma writeBytes_append (d : list Z) (b : DataBuffer.t) :
  at_end b -> DataBuffer.writeBytes d b = append_bytes d b.
Proof.
  unfold at_end, DataBuffer.writeBytes, append_bytes. intros H.
  rewrite writeBytes_loop_append by lia. reflexivity.
Qed.

Lemma writeUInt8_append_more (v : Z) (x : list Z) (b : DataBuffer.t) :
  at_end b -> DataBuffer.writeUInt8 v (append_bytes x b) = append_bytes (x ++ [v]) b.
Proof.
  intros H. rewrite writeUInt8_append by (apply append_bytes_at_end, H).
  apply append_bytes_app.
Qed.

Lemma writeUInt16_le_append_more (v : Z) (x : list Z) (b : DataBuffer.t) :
  at_end b ->
  DataBuffer.writeUInt16_le v (append_bytes x b)
  = append_bytes (x ++ [Z.land v 255; Z.shiftr (Z.land v 65280) 8]) b.
Proof.
  intros H. rewrite writeUInt16_le_append by (apply append_bytes_at_end, H).
  apply append_bytes_app.
Qed.

Lemma write_note_append (ticks midiNote bankSwitch velocity length : Z) (b : DataBuffer.t) :
  at_end b ->
  write_note ticks midiNote bankSwitch velocity (Some length) b
  = append_bytes (record_bytes ticks midiNote bankSwitch velocity length) b.
Proof.
  intros H. unfold write_note. cbv zeta.
  rewrite (writeUInt8_append ticks b H).
  rewrite !writeUInt8_append_more by exact H.
  rewrite writeUInt16_le_append_more by exact H. reflexivity.
Qed.

Lemma write_empty_note_append (ticks : Z) (b : DataBuffer.t) :
  at_end b -> write_empty_note ticks b = append_bytes (rest_bytes ticks) b.
Proof.
  intros H. unfold write_empty_note. cbv zeta.
  rewrite (writeUInt8_append ticks b H).
  rewrite !writeUInt8_append_more by exact H.
  rewrite writeUInt16_le_append_more by exact H. reflexivity.
Qed.

(** The gap loop appends empty notes, each with 1 to 255 ticks, that add up
    to the gap. *)
Lemma insertEmptyNotes_loop_append : forall (fuel : nat) (gap : Z) (b : DataBuffer.t),
  at_end b ->
  gap <= Z.of_nat fuel ->
  exists ts : list Z,
    insertEmptyNotes_loop fuel gap b = Ok (append_bytes (concat (map rest_bytes ts)) b)
    /\ Forall (fun t => 0 < t <= 255) ts
    /\ Zsum ts = Z.max 0 gap.
Proof.
  induction fuel as [|fuel IH]; intros gap b Hb Hfuel; simpl.
  - replace (0 <? gap) with false by (symmetry; apply Z.ltb_ge; lia).
    exists []. simpl. rewrite append_bytes_nil. repeat split; [constructor|lia].
  - destruct (0 <? gap) eqn:Hpos.
    + apply Z.ltb_lt in Hpos.
      destruct (IH (gap - Z.min gap maxTicksInGap)
                  (write_empty_note (Z.min gap maxTicksInGap) b)) as (ts & Hrun & Hts & Hsum).
      { rewrite write_empty_note_append by exact Hb. apply append_bytes_at_end, Hb. }
      { unfold maxTicksInGap. lia. }
      exists (Z.min gap maxTicksInGap :: ts). split; [|split].
      * rewrite Hrun, write_empty_note_append by exact Hb.
        rewrite append_bytes_app. reflexivity.
      * constructor; [unfold maxTicksInGap; lia|exact Hts].
      * simpl. rewrite Hsum. unfold maxTicksInGap. lia.
    + apply Z.ltb_ge in Hpos. exists []. simpl. rewrite append_bytes_nil.
      repeat split; [constructor|lia].
Qed.

Lemma insertEmptyNotes_append (gap : Z) (b : DataBuffer.t) :
  at_end b ->
  exists ts : list Z,
    insertEmptyNotes gap b = Ok (append_bytes (concat (map rest_bytes ts)) b)
    /\ Forall (fun t => 0 < t <= 255) ts
    /\ Zsum ts = Z.max 0 gap.
Proof. intros Hb. apply insertEmptyNotes_loop_append; [exact Hb|lia]. Qed.

(** ** The round trip through a MIDI file *)










Lemma round_to_bar_append (ticksPerBar : Z) (st : ConvState) :
  at_end (dataBuffer st) ->
  exists (ts : list Z) (t : Z),
    round_to_bar ticksPerBar st
    = Ok (append_bytes (concat (map rest_bytes ts)) (dataBuffer st), t)
    /\ Forall (fun t => 0 < t <= 255) ts.
Proof.
  intros Hend. unfold round_to_bar.
  assert (Hnone : forall t,
    exists (ts : list Z) (t' : Z),
      Ok (dataBuffer st, t) = Ok (append_bytes (concat (map rest_bytes ts)) (dataBuffer st), t')
      /\ Forall (fun t => 0 < t <= 255) ts).
  { intros t. exists [], t. simpl. rewrite append_bytes_nil. split; [reflexivity|constructor]. }
  destruct (_ && _).
  - destruct (insertEmptyNotes_append ticksPerBar _ Hend) as (ts & Hrun & Hts & _).
    rewrite Hrun. exists ts, (currentTime st). split; [reflexivity|exact Hts].
  - destruct (negb _); [|apply Hnone].
    destruct (_ <=? _); [|apply Hnone].
    destruct (insertEmptyNotes_append (ticksPerBar - js_rem (currentTime st) ticksPerBar)
                _ Hend) as (ts & Hrun & Hts & _).
    rewrite Hrun. eexists ts, _. split; [reflexivity|exact Hts].
Qed.


(** ** Parsing what was written *)

Lemma note_at_chunks (opts : ParseOptions) (rest : list Z) (chunks : list (list Z)) :
  Forall (fun c => List.length c = 8%nat) chunks ->
  forall (i : nat) (c : list Z),
  chunks !! i = Some c ->
  note_at opts (concat chunks ++ rest) (8 * i) = note_at opts c 0.
Proof.
  induction 1 as [|c0 chunks Hc0 _ IH]; intros i c Hi; [destruct i; discriminate|].
  destruct i as [|i]; simpl in Hi.
  - injection Hi as <-. unfold note_at. cbn [concat]. rewrite <- app_assoc.
    rewrite !(lookup_total_app_l c0) by (simpl; lia). reflexivity.
  - rewrite <- (IH i c Hi). unfold note_at. cbn [concat]. rewrite <- app_assoc.
    rewrite !(lookup_total_app_r c0) by lia. rewrite Hc0.
    repeat match goal with
           | |- context [(8 * S i + ?j - 8)%nat] =>
               replace (8 * S i + j - 8)%nat with (8 * i + j)%nat by lia
           end.
    replace (8 * S i - 8)%nat with (8 * i)%nat by lia.
    reflexivity.
Qed.

Lemma concat_length_8 (chunks : list (list Z)) :
  Forall (fun c => List.length c = 8%nat) chunks ->
  List.length (concat chunks) = (8 * List.length chunks)%nat.
Proof. induction 1 as [|c l Hc _ IH]; simpl; [reflexivity|]. rewrite length_app, Hc, IH. lia. Qed.

Lemma toUint8Array_concat (recs : list (list Z)) (foot : list Z) :
  DataBuffer.toUint8Array (concat recs ++ foot)
  = concat (map DataBuffer.toUint8Array recs) ++ DataBuffer.toUint8Array foot.
Proof. unfold DataBuffer.toUint8Array. rewrite map_app, concat_map. reflexivity. Qed.

(** An array of records of eight values and a footer of sixteen is parsed
    into one note per record, decoded from the bytes of its typed copy. *)
Lemma AudioPattern_chunks (ppb : Z) (g : bool) (chunks : list (list Z)) (foot : list Z) :
  Forall (fun c => List.length c = 8%nat) chunks ->
  List.length foot = 16%nat ->
  AudioPattern (concat chunks ++ foot) (mkOptions 8 ppb g)
  = Ok (mkPattern (map (decode_record (mkOptions 8 ppb g)) chunks)
          (DataBuffer.toUint8Array foot !!! 8%nat) (DataBuffer.toUint8Array foot !!! 12%nat)
          (DataBuffer.toUint8Array foot)).
Proof.
  intros Hchunks Hfoot.
  pose proof (concat_length_8 chunks Hchunks) as Hlen.
  rewrite (AudioPattern_ok ppb g _ (List.length chunks))
    by (rewrite length_app, Hlen, Hfoot; reflexivity).
  rewrite toUint8Array_concat.
  assert (Hchunks' : Forall (fun c => List.length c = 8%nat)
                       (map DataBuffer.toUint8Array chunks)).
  { apply Forall_map. eapply Forall_impl; [exact Hchunks|]. simpl.
    intros c Hc. rewrite toUint8Array_length. exact Hc. }
  pose proof (concat_length_8 _ Hchunks') as Hlen'. rewrite length_map in Hlen'.
  rewrite <- Hlen', drop_app_length. f_equal. f_equal.
  apply list_eq. intros i. rewrite !list_lookup_fmap.
  destruct (chunks !! i) as [c|] eqn:Hi.
  - rewrite lookup_seq_lt by (apply lookup_lt_Some in Hi; lia). simpl.
    f_equal. apply note_at_chunks; [exact Hchunks'|].
    rewrite list_lookup_fmap, Hi. reflexivity.
  - rewrite lookup_seq_ge by (apply lookup_ge_None in Hi; lia). reflexivity.
Qed.

(** The same for the bytes of a committed buffer. *)
Lemma AudioPattern_committed (ppb : Z) (g : bool) (chunks : list (list Z)) (foot : list Z) :
  Forall (fun c => List.length c = 8%nat) chunks ->
  List.length foot = 16%nat ->
  AudioPattern (DataBuffer.toUint8Array (concat chunks ++ foot)) (mkOptions 8 ppb g)
  = Ok (mkPattern (map (decode_record (mkOptions 8 ppb g)) chunks)
          (DataBuffer.toUint8Array foot !!! 8%nat) (DataBuffer.toUint8Array foot !!! 12%nat)
          (DataBuffer.toUint8Array foot)).
Proof.
  intros Hchunks Hfoot. rewrite toUint8Array_concat.
  rewrite AudioPattern_chunks.
  - rewrite toUint8Array_idem, map_map. f_equal. f_equal.
    apply map_ext. intros c. unfold decode_record. rewrite toUint8Array_idem. reflexivity.
  - apply Forall_map. eapply Forall_impl; [exact Hchunks|]. simpl.
    intros c Hc. rewrite toUint8Array_length. exact Hc.
  - rewrite toUint8Array_length. exact Hfoot.
Qed.

Lemma toUint8Array_bytes (l : list Z) :
  Forall (fun v => 0 <= v < 256) l -> DataBuffer.toUint8Array l = l.
Proof.
  unfold DataBuffer.toUint8Array. induction 1 as [|v l Hv _ IH]; simpl; [reflexivity|].
  rewrite IH, Z.mod_small by lia. reflexivity.
Qed.

Lemma make_footer_values (og : bool) (bars : Z) :
  make_footer og bars
  = [0; 140; 0; 0; 0; 0; 0; 0;
     (if og then 0 else bars mod 256); (if og then 2 else 0); 0; 0;
     0; (if og then 0 else 128); (if og then 0 else bars mod 256); (if og then 0 else 1)].
Proof. destruct og; reflexivity. Qed.

Lemma make_footer_committed (og : bool) (bars : Z) :
  DataBuffer.toUint8Array (make_footer og bars) = make_footer og bars.
Proof.
  apply toUint8Array_bytes. rewrite make_footer_values.
  pose proof (Z.mod_pos_bound bars 256 ltac:(lia)).
  destruct og; repeat constructor; lia.
Qed.

Lemma defaultMap_entries_in_bytes : forallb entry_in_bytes defaultMap_entries = true.
Proof. vm_compute. reflexivity. Qed.

Lemma defaultMap_in_bytes (L : string) (m : PadMapping.t) :
  defaultMap !! L = Some m ->
  0 <= PadMapping.midiNote m < 256 /\ 0 <= PadMapping.bankSwitch m < 256.
Proof.
  intros H%defaultMap_lookup_entry%list_elem_of_In.
  pose proof defaultMap_entries_in_bytes as Hall.
  rewrite forallb_forall in Hall. specialize (Hall _ H).
  unfold entry_in_bytes in Hall. simpl in Hall.
  rewrite !andb_true_iff in Hall. destruct Hall as [[[H1 H2] H3] H4].
  apply Z.leb_le in H1, H3. apply Z.ltb_lt in H2, H4. lia.
Qed.











(** * Further properties of the code *)

(** ** Pads *)

Lemma Set_add_spec (x : string) (s : list string) :
  NoDup s -> NoDup (Set_add x s) /\ (forall y, y ∈ Set_add x s <-> y ∈ s \/ y = x).
Proof.
  intros Hs. unfold Set_add. case_bool_decide as Hx.
  - split; [exact Hs|]. intros y. split; [tauto|]. intros [H| ->]; assumption.
  - split.
    + apply NoDup_app. split; [exact Hs|]. split; [|apply NoDup_singleton].
      intros y Hy Hy'. apply list_elem_of_singleton in Hy'. subst y. exact (Hx Hy).
    + intros y. rewrite elem_of_app, list_elem_of_singleton. reflexivity.
Qed.

Lemma getUsedPads_loop_spec (notes : list Note.t) : forall padMap : list string,
  NoDup padMap ->
  NoDup (getUsedPads_loop notes padMap)
  /\ (forall l, l ∈ getUsedPads_loop notes padMap
                <-> l ∈ padMap \/ exists n, n ∈ notes /\ Note.padLabel n = l).
Proof.
  induction notes as [|n notes IH]; intros padMap Hnd; simpl.
  - split; [exact Hnd|]. intros l. split; [tauto|].
    intros [H|(n & Hn & _)]; [exact H|]. inversion Hn.
  - destruct (Set_add_spec (Note.padLabel n) padMap Hnd) as [Hnd' Hin].
    destruct (IH _ Hnd') as [Hres Hmem]. split; [exact Hres|].
    intros l. rewrite Hmem, Hin. split.
    + intros [[H| ->]|(x & Hx & Hl)].
      * left. exact H.
      * right. exists n. split; [constructor|reflexivity].
      * right. exists x. split; [constructor; exact Hx|exact Hl].
    + intros [H|(x & Hx & Hl)]; [left; left; exact H|].
      apply elem_of_cons in Hx as [->|Hx].
      * left. right. symmetry. exact Hl.
      * right. exists x. split; assumption.
Qed.

(** X1: [getUsedPads] lists every pad label that occurs in the notes, the
    labels of empty notes included, each one once. *)
Theorem getUsedPads_distinct_labels (notes : list Note.t) :
  NoDup (getUsedPads notes)
  /\ (forall l, l ∈ getUsedPads notes <-> exists n, n ∈ notes /\ Note.padLabel n = l).
Proof.
  destruct (getUsedPads_loop_spec notes [] (NoDup_nil_2)) as [Hnd Hmem].
  split; [exact Hnd|]. intros l. unfold getUsedPads. rewrite Hmem.
  split; [|tauto]. intros [H|H]; [inversion H|exact H].
Qed.

Lemma sample_numbers_checked : forallb sample_check (seq 1 160) = true.
Proof. vm_compute. reflexivity. Qed.

(** X2: Every sample number from 1 to 160 has its pad in the MKii table: the
    label [parse] derives for it is a key of [defaultMap], and the entry found
    there gives the sample number back.  With the left inverse above the
    labels A1 to J16 and the sample numbers 1 to 160 correspond one to one. *)
Theorem defaultMap_covers_sample_numbers (s : Z) :
  1 <= s <= 160 ->
  exists m, defaultMap !! padLabel_of 16 s = Some m
    /\ sampleNumber_of false 16 (PadMapping.midiNote m) (PadMapping.bankSwitch m) = s.
Proof.
  intros Hs. pose proof sample_numbers_checked as Hall.
  rewrite forallb_forall in Hall.
  specialize (Hall (Z.to_nat s)). unfold sample_check in Hall.
  rewrite Z2Nat.id in Hall by lia.
  assert (Hin : In (Z.to_nat s) (seq 1 160)) by (apply in_seq; lia).
  specialize (Hall Hin).
  destruct (defaultMap !! padLabel_of 16 s) as [m|]; [|discriminate].
  exists m. split; [reflexivity|]. apply Z.eqb_eq, Hall.
Qed.

Lemma defaultMap_covers_sample_numbers_witness :
  exists m, defaultMap !! padLabel_of 16 17 = Some m
    /\ sampleNumber_of false 16 (PadMapping.midiNote m) (PadMapping.bankSwitch m) = 17.
Proof. exact (defaultMap_covers_sample_numbers 17 ltac:(lia)). Defined.

Lemma defaultMapOG_entries_checked : forallb label_check_OG defaultMapOG_entries = true.
Proof. vm_compute. reflexivity. Qed.

(** X3: On the original SP-404 (og = true, twelve pads per bank) the label that
    [parse] derives from an entry of [defaultMapOG] is the entry's own label
    for the banks A to F (bankSwitch 0), and the label one bank further, never
    the entry's own, for the banks G to J (bankSwitch 64): G1 is read back as
    H1 and J12 as K12. *)
Theorem defaultMapOG_label_derivation (L : string) (m : PadMapping.t) :
  defaultMapOG !! L = Some m ->
  (PadMapping.bankSwitch m = 0 /\ derived_label_OG m = L)
  \/ (PadMapping.bankSwitch m = 64 /\ derived_label_OG m = next_bank L
      /\ derived_label_OG m <> L).
Proof.
  intros H. unfold defaultMapOG in H.
  apply elem_of_list_to_map_2, list_elem_of_In in H.
  pose proof defaultMapOG_entries_checked as Hall.
  rewrite forallb_forall in Hall. specialize (Hall _ H).
  unfold label_check_OG in Hall. simpl in Hall.
  destruct (PadMapping.bankSwitch m =? 0) eqn:H0.
  - left. split; [apply Z.eqb_eq, H0|apply String.eqb_eq, Hall].
  - right. rewrite !andb_true_iff in Hall. destruct Hall as [[H64 Hnext] Hne].
    split; [apply Z.eqb_eq, H64|]. split; [apply String.eqb_eq, Hnext|].
    apply negb_true_iff, String.eqb_neq in Hne. exact Hne.
Qed.

Lemma defaultMapOG_label_derivation_witness :
  (PadMapping.bankSwitch (PadMapping.mk 71 "G1" 64) = 0
   /\ derived_label_OG (PadMapping.mk 71 "G1" 64) = "G1")
  \/ (PadMapping.bankSwitch (PadMapping.mk 71 "G1" 64) = 64
      /\ derived_label_OG (PadMapping.mk 71 "G1" 64) = next_bank "G1"
      /\ derived_label_OG (PadMapping.mk 71 "G1" 64) <> "G1").
Proof. exact (defaultMapOG_label_derivation "G1" (PadMapping.mk 71 "G1" 64) eq_refl). Defined.

(** ** The gap helper *)

Lemma insertEmptyNotes_loop_count : forall (fuel : nat) (gap : Z) (b : DataBuffer.t),
  at_end b ->
  gap <= Z.of_nat fuel ->
  exists ts : list Z,
    insertEmptyNotes_loop fuel gap b = Ok (append_bytes (concat (map rest_bytes ts)) b)
    /\ Forall (fun t => 0 < t <= 255) ts
    /\ Zsum ts = Z.max 0 gap
    /\ Z.of_nat (List.length ts) = (Z.max 0 gap + 254) / 255.
Proof.
  induction fuel as [|fuel IH]; intros gap b Hb Hfuel; simpl.
  - replace (0 <? gap) with false by (symmetry; apply Z.ltb_ge; lia).
    exists []. simpl. rewrite append_bytes_nil.
    replace (Z.max 0 gap) with 0 by lia. repeat split; constructor.
  - destruct (0 <? gap) eqn:Hpos.
    + apply Z.ltb_lt in Hpos.
      destruct (IH (gap - Z.min gap maxTicksInGap)
                  (write_empty_note (Z.min gap maxTicksInGap) b))
        as (ts & Hrun & Hts & Hsum & Hcount).
      { rewrite write_empty_note_append by exact Hb. apply append_bytes_at_end, Hb. }
      { unfold maxTicksInGap. lia. }
      exists (Z.min gap maxTicksInGap :: ts). unfold maxTicksInGap in *.
      split; [|split; [|split]].
      * rewrite Hrun, write_empty_note_append by exact Hb.
        rewrite append_bytes_app. reflexivity.
      * constructor; [lia|exact Hts].
      * simpl. rewrite Hsum. lia.
      * cbn [List.length]. rewrite Nat2Z.inj_succ, Hcount.
        destruct (Z.le_gt_cases gap 255) as [Hle|Hgt].
        -- replace (Z.max 0 (gap - Z.min gap 255)) with 0 by lia.
           replace (Z.max 0 gap) with gap by lia.
           change ((0 + 254) / 255) with 0.
           change (Z.succ 0) with 1. apply Z.div_unique with (r := gap - 1); lia.
        -- replace (Z.max 0 (gap - Z.min gap 255)) with (gap - 255) by lia.
           replace (Z.max 0 gap + 254) with (1 * 255 + (gap - 255 + 254)) by lia.
           rewrite Z.div_add_l by lia. lia.
    + apply Z.ltb_ge in Hpos. exists []. simpl. rewrite append_bytes_nil.
      replace (Z.max 0 gap) with 0 by lia. repeat split; constructor.
Qed.

(** X4: [insertEmptyNotes(gap)] appends exactly [ceil(gap / 255)] empty notes
    (midiNote 128, everything else 0) whose ticks are between 1 and 255 and
    add up to the gap; for a gap of 0 or less it writes nothing. *)
Theorem insertEmptyNotes_splits_gap (gap : Z) (b : DataBuffer.t) :
  at_end b ->
  exists ts : list Z,
    insertEmptyNotes gap b = Ok (append_bytes (concat (map rest_bytes ts)) b)
    /\ Forall (fun t => 0 < t <= 255) ts
    /\ Zsum ts = Z.max 0 gap
    /\ Z.of_nat (List.length ts) = (Z.max 0 gap + 254) / 255.
Proof. intros Hb. apply insertEmptyNotes_loop_count; [exact Hb|lia]. Qed.

Lemma insertEmptyNotes_splits_gap_witness :
  exists ts : list Z,
    insertEmptyNotes 600 DataBuffer.empty
    = Ok (append_bytes (concat (map rest_bytes ts)) DataBuffer.empty)
    /\ Forall (fun t => 0 < t <= 255) ts
    /\ Zsum ts = Z.max 0 600
    /\ Z.of_nat (List.length ts) = (Z.max 0 600 + 254) / 255.
Proof. exact (insertEmptyNotes_splits_gap 600 DataBuffer.empty eq_refl). Defined.

(** ** The layout of what [fromMidi] writes *)

Lemma write_note_append_any (ticks midiNote bankSwitch velocity : Z) (cl : option Z)
    (b : DataBuffer.t) :
  at_end b ->
  write_note ticks midiNote bankSwitch velocity cl b
  = append_bytes (record_bytes ticks midiNote bankSwitch velocity (default 0 cl)) b.
Proof.
  intros Hb. rewrite <- (write_note_append _ _ _ _ _ _ Hb). destruct cl; reflexivity.
Qed.

Lemma convert_event_layout og noteMap p m st e st' :
  at_end (dataBuffer st) ->
  convert_event og noteMap p m st e = Ok st' ->
  exists g, group_of og noteMap e g
    /\ dataBuffer st' = append_bytes (concat g) (dataBuffer st).
Proof.
  intros Hend. unfold convert_event.
  set (ticks := Math_round_mul (NoteOn.absoluteTime e - lastAbsoluteTime st) p m).
  assert (Hgap : exists ts,
    (if 255 <? ticks - currentTime st
     then insertEmptyNotes (ticks - currentTime st) (dataBuffer st)
     else Ok (dataBuffer st))
    = Ok (append_bytes (concat (map rest_bytes ts)) (dataBuffer st))
    /\ Forall (fun t => 0 < t <= 255) ts).
  { destruct (255 <? ticks - currentTime st).
    - destruct (insertEmptyNotes_append (ticks - currentTime st) _ Hend) as (ts & H1 & H2 & _).
      exists ts. split; assumption.
    - exists []. simpl. rewrite append_bytes_nil. split; [reflexivity|constructor]. }
  destruct Hgap as (ts & -> & Hts). cbn [bind].
  destruct (resolve_pad og noteMap (NoteOn.note e)) as [pm| |] eqn:Hpad;
    cbn [bind]; [| |discriminate]; intros [= <-]; cbn [dataBuffer];
    rewrite write_note_append_any by (apply append_bytes_at_end, Hend);
    rewrite append_bytes_app.
  - exists (map rest_bytes ts
            ++ [record_bytes ticks (PadMapping.midiNote pm) (PadMapping.bankSwitch pm)
                  (NoteOn.velocity e) (default 0 (correctLength (NoteOn.length e) p m))]).
    split; [|rewrite concat_app; cbn [concat]; rewrite app_nil_r; reflexivity].
    exists ts, (PadMapping.midiNote pm), (PadMapping.bankSwitch pm), ticks,
      (default 0 (correctLength (NoteOn.length e) p m)).
    split; [reflexivity|]. rewrite Hpad. split; [split; reflexivity|exact Hts].
  - exists (map rest_bytes ts
            ++ [record_bytes ticks 0 0 (NoteOn.velocity e)
                  (default 0 (correctLength (NoteOn.length e) p m))]).
    split; [|rewrite concat_app; cbn [concat]; rewrite app_nil_r; reflexivity].
    exists ts, 0, 0, ticks, (default 0 (correctLength (NoteOn.length e) p m)).
    split; [reflexivity|]. rewrite Hpad. split; [split; reflexivity|exact Hts].
Qed.

Lemma convert_events_layout og noteMap p m (events : list NoteOn.t) :
  forall st st',
  at_end (dataBuffer st) ->
  convert_events og noteMap p m st events = Ok st' ->
  exists groups,
    Forall2 (group_of og noteMap) events groups
    /\ dataBuffer st' = append_bytes (concat (concat groups)) (dataBuffer st).
Proof.
  induction events as [|e events IH]; intros st st' Hend Hrun; simpl in Hrun.
  - injection Hrun as <-. exists []. split; [constructor|].
    simpl. rewrite append_bytes_nil. reflexivity.
  - destruct (convert_event og noteMap p m st e) as [st1|] eqn:He; [|discriminate].
    simpl in Hrun.
    destruct (convert_event_layout _ _ _ _ _ _ _ Hend He) as (g & Hg & Hbuf).
    destruct (IH st1 st') as (groups & Hgroups & Hbuf'); [|exact Hrun|].
    { rewrite Hbuf. apply append_bytes_at_end, Hend. }
    exists (g :: groups). split; [constructor; assumption|].
    rewrite Hbuf', Hbuf, append_bytes_app. simpl. rewrite concat_app. reflexivity.
Qed.

Lemma group_of_lengths og noteMap (e : NoteOn.t) (g : list (list Z)) :
  group_of og noteMap e g -> Forall (fun c => List.length c = 8%nat) g.
Proof.
  intros (ts & mn & bs & t & len & -> & _ & _). apply Forall_app. split.
  - apply Forall_map, List.Forall_forall. reflexivity.
  - repeat constructor.
Qed.

(** The buffer of a successful conversion: the groups of the Note On events
    in time order, the empty notes that fill the bar, the footer. *)
Lemma fromMidi_layout (midi : AudioMIDI.t) (noteMap : gmap string string) (p : Z)
    (og : bool) (b : DataBuffer.t) :
  fromMidi (Some midi) (Some noteMap) (Some p) og = Ok b ->
  exists (groups : list (list (list Z))) (ts : list Z) (bars : Z),
    DataBuffer.buffer b
    = concat (concat groups ++ map rest_bytes ts) ++ make_footer og bars
    /\ Forall2 (group_of og noteMap) (ordered_noteOns midi) groups
    /\ Forall (fun t => 0 < t <= 255) ts
    /\ Forall (fun c => List.length c = 8%nat) (concat groups ++ map rest_bytes ts).
Proof.
  unfold fromMidi. cbv zeta. cbn [falsy_number default]. unfold id.
  destruct (p =? 0); [discriminate|].
  fold (ordered_noteOns midi).
  destruct (convert_events og noteMap p (AudioMIDI.timeDivision midi)
              (mkState DataBuffer.empty 0 (Some 0) 0) (ordered_noteOns midi))
    as [st|] eqn:Hrun; [|discriminate].
  cbn [bind].
  assert (Hempty : at_end (dataBuffer (mkState DataBuffer.empty 0 (Some 0) 0))) by reflexivity.
  destruct (convert_events_layout _ _ _ _ _ _ _ Hempty Hrun) as (groups & Hgroups & Hbuf).
  cbn [dataBuffer] in Hbuf.
  assert (Hend : at_end (dataBuffer st)) by (rewrite Hbuf; apply append_bytes_at_end; reflexivity).
  destruct (round_to_bar_append (p * 4) st Hend) as (ts & t & -> & Hts).
  cbn [bind]. intros [= <-].
  rewrite writeBytes_append by (apply append_bytes_at_end, Hend).
  rewrite Hbuf, !append_bytes_app.
  exists groups, ts, (Math_round_div t (p * 4)).
  split; [|split; [exact Hgroups|split; [exact Hts|]]].
  - cbn [append_bytes DataBuffer.buffer DataBuffer.empty app].
    rewrite concat_app, <- app_assoc. reflexivity.
  - apply Forall_app. split.
    + apply Forall_concat. clear -Hgroups.
      induction Hgroups as [|e g es gs Hg _ IH]; constructor; [|exact IH].
      eapply group_of_lengths, Hg.
    + apply Forall_map, List.Forall_forall. reflexivity.
Qed.

(** Parsing the committed buffer of a conversion gives the written records
    back, decoded one by one. *)
Lemma fromMidi_parsed (midi : AudioMIDI.t) (noteMap : gmap string string) (p : Z)
    (og : bool) (b : DataBuffer.t) (ppb : Z) (g : bool) :
  fromMidi (Some midi) (Some noteMap) (Some p) og = Ok b ->
  exists (groups : list (list (list Z))) (ts : list Z) (bars : Z),
    Forall2 (group_of og noteMap) (ordered_noteOns midi) groups
    /\ Forall (fun t => 0 < t <= 255) ts
    /\ List.length (DataBuffer.buffer b)
       = (8 * List.length (concat groups ++ map rest_bytes ts) + 16)%nat
    /\ AudioPattern (DataBuffer.data (DataBuffer.commit b)) (mkOptions 8 ppb g)
       = Ok (mkPattern
               (map (decode_record (mkOptions 8 ppb g)) (concat groups ++ map rest_bytes ts))
               (make_footer og bars !!! 8%nat) (make_footer og bars !!! 12%nat)
               (make_footer og bars)).
Proof.
  intros Hrun.
  destruct (fromMidi_layout _ _ _ _ _ Hrun) as (groups & ts & bars & Hbuf & Hgroups & Hts & Hlen).
  exists groups, ts, bars. split; [exact Hgroups|]. split; [exact Hts|]. split.
  - rewrite Hbuf, length_app, (concat_length_8 _ Hlen), make_footer_values. reflexivity.
  - cbn [DataBuffer.commit DataBuffer.data]. rewrite Hbuf.
    rewrite (AudioPattern_committed ppb g _ _ Hlen)
      by (rewrite make_footer_values; reflexivity).
    rewrite make_footer_committed. reflexivity.
Qed.



Lemma defaultMap_entries_not_rest : forallb entry_not_rest defaultMap_entries = true.
Proof. vm_compute. reflexivity. Qed.

Lemma decode_rest_bytes (t : Z) :
  is_pad_note (decode_record (mkOptions 8 16 false) (rest_bytes t)) = false.
Proof. reflexivity. Qed.

Lemma decode_record_bytes (L : string) (pm : PadMapping.t) (t v len : Z) :
  defaultMap !! L = Some pm ->
  let n := decode_record (mkOptions 8 16 false)
             (record_bytes t (PadMapping.midiNote pm) (PadMapping.bankSwitch pm) v len) in
  is_pad_note n = true /\ Note.padLabel n = L /\ Note.velocity n = v mod 256
  /\ Note.midiNote n = PadMapping.midiNote pm
  /\ Note.bankSwitch n = PadMapping.bankSwitch pm.
Proof.
  intros Hpm n.
  destruct (defaultMap_in_bytes _ _ Hpm) as [Hm Hb].
  pose proof (defaultMap_label _ _ Hpm) as Hlabel.
  assert (Hrest : PadMapping.midiNote pm <> 128).
  { apply defaultMap_lookup_entry, list_elem_of_In in Hpm.
    pose proof defaultMap_entries_not_rest as Hall.
    rewrite forallb_forall in Hall. specialize (Hall _ Hpm).
    unfold entry_not_rest in Hall. simpl in Hall.
    apply negb_true_iff, Z.eqb_neq in Hall. exact Hall. }
  subst n. unfold decode_record, note_at, make_note, is_pad_note, record_bytes,
    DataBuffer.toUint8Array.
  cbn [map lookup_total list_lookup_total Nat.add Note.midiNote Note.bankSwitch
       Note.padLabel Note.velocity og padsPerBank].
  rewrite !(Z.mod_small (PadMapping.midiNote pm)), !(Z.mod_small (PadMapping.bankSwitch pm))
    by lia.
  rewrite Hlabel. repeat split.
  apply negb_true_iff, Z.eqb_neq. exact Hrest.
Qed.

(** The record written for a pad that names an inherited property. *)
Lemma decode_record_inherited (t v len : Z) :
  let n := decode_record (mkOptions 8 16 false) (record_bytes t 0 0 v len) in
  is_pad_note n = true /\ Note.padLabel n = ">-14" /\ Note.velocity n = v mod 256
  /\ Note.midiNote n = 0 /\ Note.bankSwitch n = 0.
Proof. repeat split. Qed.

Lemma decoded_groups (noteMap : gmap string string) (events : list NoteOn.t)
    (groups : list (list (list Z))) :
  Forall2 (group_of false noteMap) events groups ->
  Forall2 (record_of_noteOn noteMap)
    (List.filter is_pad_note (map (decode_record (mkOptions 8 16 false)) (concat groups)))
    events.
Proof.
  induction 1 as [|e g events groups Hg _ IH]; [constructor|].
  destruct Hg as (ts & mn & bs & t & len & -> & Hpad & _).
  cbn [concat]. rewrite !map_app, !List.filter_app.
  assert (Hrests : List.filter is_pad_note
                     (map (decode_record (mkOptions 8 16 false)) (map rest_bytes ts)) = []).
  { clear. induction ts as [|x ts IH]; [reflexivity|].
    cbn [map List.filter]. rewrite decode_rest_bytes. exact IH. }
  rewrite Hrests. cbn [map List.filter app].
  unfold resolve_pad, table_get in Hpad.
  destruct (noteMap !! NoteOn.note e) as [pad|] eqn:Hnote; [|contradiction].
  destruct (defaultMap !! pad) as [pm|] eqn:Hpm.
  - destruct Hpad as [-> ->].
    destruct (decode_record_bytes pad pm t (NoteOn.velocity e) len Hpm)
      as (Hkeep & Hlabel & Hvel & Hmn & Hbs).
    rewrite Hkeep. cbn [app]. constructor; [|exact IH].
    exists pad. split; [exact Hnote|]. split; [exact Hvel|].
    left. exists pm. repeat split; assumption.
  - destruct (bool_decide (pad ∈ Object_prototype_keys)) eqn:Hkey; [|contradiction].
    apply bool_decide_eq_true in Hkey. destruct Hpad as [-> ->].
    destruct (decode_record_inherited t (NoteOn.velocity e) len)
      as (Hkeep & Hlabel & Hvel & Hmn & Hbs).
    rewrite Hkeep. cbn [app]. constructor; [|exact IH].
    exists pad. split; [exact Hnote|]. split; [exact Hvel|].
    right. repeat split; assumption.
Qed.

(** What the two loops of [fromMidi] gather is what the description lists. *)
Lemma collect_track_cons (a : Z) (e : MidiEvent.t) (l : list MidiEvent.t) :
  collect_track a (e :: l)
  = (if is_true_noteOn e then [noteOn_at (a + MidiEvent.deltaTime e) e] else [])
    ++ collect_track (a + MidiEvent.deltaTime e) l.
Proof.
  cbn [collect_track]. unfold is_true_noteOn, noteOn_at.
  destruct (MidiEvent.data e) as [d| | |]; try reflexivity.
  destruct ((MidiEvent.type e =? 144) && (0 <? NoteData.velocity d)); reflexivity.
Qed.

Lemma collect_track_described (events : list MidiEvent.t) : forall a : Z,
  collect_track a events
  = concat (imap (fun i e =>
              if is_true_noteOn e
              then [noteOn_at (a + Zsum (map MidiEvent.deltaTime (take (S i) events))) e]
              else []) events).
Proof.
  induction events as [|e l IH]; intros a; [reflexivity|].
  rewrite collect_track_cons, IH. cbn [imap concat]. f_equal.
  - cbn [take firstn map Zsum]. rewrite take_0. cbn [map Zsum].
    rewrite Z.add_0_r. reflexivity.
  - f_equal. apply imap_ext. intros i x _. cbn [compose take firstn map Zsum].
    rewrite Z.add_assoc. reflexivity.
Qed.

Lemma collect_events_described (chunks : list Chunk) :
  collect_events chunks = file_noteOns chunks.
Proof.
  unfold file_noteOns.
  induction chunks as [|[len events|] rest IH]; cbn [collect_events map concat].
  - reflexivity.
  - rewrite IH, collect_track_described. reflexivity.
  - exact IH.
Qed.

Lemma sorted_same_key {A : Type} (key : A -> Z) (t : Z) (l : list A) :
  Forall (fun x => key x = t) l -> StronglySorted Z.le (map key l).
Proof.
  induction 1 as [|x l Hx Hl IH]; [constructor|].
  cbn [map]. constructor; [exact IH|].
  rewrite Forall_map. eapply Forall_impl; [exact Hl|]. simpl. intros; lia.
Qed.

(** X6: In a pattern written for the MKii and parsed with its options, the
    records that are not empty notes stand one for one, in order, for the
    Note On events of the file (type 0x90 with a velocity above 0, each at
    the sum of the delta times of its track up to it) taken in the order of
    their times, events of one time in the order of the file.  Each record
    carries the velocity of its event as a byte; it is on the pad that the
    note map gives for the note when that pad is one of the table, and holds
    0 for the pad's two bytes, read as the label [>-14], when the pad names
    a property that the table inherits. *)
Theorem fromMidi_notes_on_mapped_pads (midi : AudioMIDI.t) (noteMap : gmap string string)
    (p : Z) (b : DataBuffer.t) :
  fromMidi (Some midi) (Some noteMap) (Some p) false = Ok b ->
  exists (pat : Pattern) (ons : list NoteOn.t),
    AudioPattern (DataBuffer.data (DataBuffer.commit b)) (mkOptions 8 16 false) = Ok pat
    /\ ons ≡ₚ file_noteOns (AudioMIDI.chunks midi)
    /\ StronglySorted Z.le (map NoteOn.absoluteTime ons)
    /\ (forall t : Z,
          List.filter (fun e => NoteOn.absoluteTime e =? t) ons
          = List.filter (fun e => NoteOn.absoluteTime e =? t)
              (file_noteOns (AudioMIDI.chunks midi)))
    /\ Forall2 (record_of_noteOn noteMap) (List.filter is_pad_note (notes pat)) ons.
Proof.
  intros Hrun.
  destruct (fromMidi_parsed _ _ _ _ _ 16 false Hrun) as (groups & ts & n & Hgroups & _ & _ & Hparse).
  exists (mkPattern
            (map (decode_record (mkOptions 8 16 false)) (concat groups ++ map rest_bytes ts))
            (make_footer false n !!! 8%nat) (make_footer false n !!! 12%nat)
            (make_footer false n)),
    (ordered_noteOns midi).
  split; [exact Hparse|]. unfold ordered_noteOns in *.
  rewrite collect_events_described in *.
  split; [apply sort_by_Permutation|]. split; [apply sort_by_sorted|]. split.
  - intros t. rewrite filter_sort_by. apply sort_by_sorted_id.
    apply (sorted_same_key _ t). apply List.Forall_forall.
    intros e He. apply filter_In in He as [_ He]. apply Z.eqb_eq in He. exact He.
  - cbn [notes]. rewrite map_app, List.filter_app.
    assert (Hrests : List.filter is_pad_note
                       (map (decode_record (mkOptions 8 16 false)) (map rest_bytes ts)) = []).
    { clear. induction ts as [|x ts IH]; [reflexivity|].
      cbn [map List.filter]. rewrite decode_rest_bytes. exact IH. }
    rewrite Hrests, app_nil_r. apply decoded_groups, Hgroups.
Qed.

Lemma fromMidi_notes_on_mapped_pads_witness :
  exists (b : DataBuffer.t) (pat : Pattern) (ons : list NoteOn.t),
    fromMidi (Some (single_track 480 [parsed_noteOn 0 "60" 100; parsed_noteOn 600 "62" 90]))
      (Some {[ "60" := "A1"; "62" := "constructor" ]}) (Some 480) false = Ok b
    /\ AudioPattern (DataBuffer.data (DataBuffer.commit b)) (mkOptions 8 16 false) = Ok pat
    /\ ons ≡ₚ [NoteOn.mk 0 "60" 100 None; NoteOn.mk 600 "62" 90 None]
    /\ Forall2 (record_of_noteOn {[ "60" := "A1"; "62" := "constructor" ]})
         (List.filter is_pad_note (notes pat)) ons.
Proof.
  assert (Hrun : exists b,
    fromMidi (Some (single_track 480 [parsed_noteOn 0 "60" 100; parsed_noteOn 600 "62" 90]))
      (Some {[ "60" := "A1"; "62" := "constructor" ]}) (Some 480) false = Ok b)
    by (eexists; vm_compute; reflexivity).
  destruct Hrun as [b Hrun].
  destruct (fromMidi_notes_on_mapped_pads _ _ _ b Hrun) as (pat & ons & Hp & Hperm & _ & _ & Hpads).
  exists b, pat, ons. split; [exact Hrun|]. split; [exact Hp|].
  split; [exact Hperm|exact Hpads].
Defined.

Lemma collect_track_none (events : list MidiEvent.t) : forall a : Z,
  Forall (fun e => is_true_noteOn e = false) events -> collect_track a events = [].
Proof.
  induction events as [|e l IH]; intros a Hall; [reflexivity|].
  inversion_clear Hall as [|? ? He Hl]. cbn [collect_track].
  unfold is_true_noteOn in He.
  destruct (MidiEvent.data e); rewrite ?He; apply IH, Hl.
Qed.

Lemma collect_events_none (chunks : list Chunk) :
  no_noteOn chunks -> collect_events chunks = [].
Proof.
  induction chunks as [|[len events|] rest IH]; simpl; intros H.
  - reflexivity.
  - destruct H as [Hev Hrest]. rewrite (collect_track_none _ _ Hev), (IH Hrest). reflexivity.
  - apply IH, H.
Qed.

(** X7: A file without a true Note On (type 0x90 on channel 0 with a velocity
    above 0) converts to the bare footer with a bar count of 0: no record is
    written, whatever other events the tracks hold. *)
Theorem fromMidi_without_notes (midi : AudioMIDI.t) (noteMap : gmap string string)
    (p : Z) (og : bool) :
  p <> 0 ->
  no_noteOn (AudioMIDI.chunks midi) ->
  exists b,
    fromMidi (Some midi) (Some noteMap) (Some p) og = Ok b
    /\ DataBuffer.buffer b
       = [0; 140; 0; 0; 0; 0; 0; 0; 0; (if og then 2 else 0); 0; 0;
          0; (if og then 0 else 128); 0; (if og then 0 else 1)].
Proof.
  intros Hp Hnone. unfold fromMidi. cbv zeta. cbn [falsy_number default]. unfold id.
  replace (p =? 0) with false by (symmetry; apply Z.eqb_neq; exact Hp).
  rewrite (collect_events_none _ Hnone). cbn [sort_by convert_events bind].
  unfold round_to_bar. cbn [currentTime totalTrackLength dataBuffer].
  unfold js_rem. rewrite Z.rem_0_l by lia. cbn [Z.eqb Z.ltb Z.compare andb negb bind].
  assert (Hbars : Math_round_div 0 (p * 4) = 0).
  { unfold Math_round_div. replace (2 * 0 + p * 4) with (p * 4) by lia.
    destruct (Z.lt_ge_cases 0 p).
    - apply Z.div_small. lia.
    - apply Z.div_small_iff; [lia|]. right. lia. }
  rewrite Hbars. eexists. split; [reflexivity|].
  destruct og; reflexivity.
Qed.

Lemma fromMidi_without_notes_witness :
  exists b,
    fromMidi (Some (single_track 96 [AudioMIDI.generateTempoEvent 120;
                                     parsed_noteOn 48 "60" 0;
                                     AudioMIDI.generateEndOfTrackEvent]))
      (Some ∅) (Some 96) true = Ok b
    /\ DataBuffer.buffer b = [0; 140; 0; 0; 0; 0; 0; 0; 0; 2; 0; 0; 0; 0; 0; 0].
Proof.
  exact (fromMidi_without_notes
           (single_track 96 [AudioMIDI.generateTempoEvent 120; parsed_noteOn 48 "60" 0;
                             AudioMIDI.generateEndOfTrackEvent])
           ∅ 96 true ltac:(discriminate)
           ltac:(split; [repeat constructor|exact I])).
Defined.

(** ** Rounding to whole bars *)

(** X8: Away from two cases (a total beyond 64 bars, and notes that all
    sit at tick 0 with a length) the rounding is right: for a positive
    [ticksPerBar] and a total of at most 64 bars, the empty notes appended
    bring the total up to the next whole bar, and the bar count is
    [ceil(total / ticksPerBar)], at most 64. *)
Theorem round_to_bar_within_limit (ticksPerBar : Z) (st : ConvState) :
  at_end (dataBuffer st) ->
  0 < ticksPerBar ->
  0 <= currentTime st <= maxBars * ticksPerBar ->
  (currentTime st <> 0 \/ forall t, totalTrackLength st = Some t -> t <= 0) ->
  exists (ts : list Z) (bars : Z),
    round_to_bar ticksPerBar st
    = Ok (append_bytes (concat (map rest_bytes ts)) (dataBuffer st), bars * ticksPerBar)
    /\ Forall (fun t => 0 < t <= 255) ts
    /\ currentTime st + Zsum ts = bars * ticksPerBar
    /\ bars = (currentTime st + ticksPerBar - 1) / ticksPerBar
    /\ Math_round_div (bars * ticksPerBar) ticksPerBar = bars
    /\ 0 <= bars <= 64.
Proof.
  intros Hend Htpb Hcur Hedge. unfold round_to_bar, maxBars in *.
  assert (Hround : forall q, Math_round_div (q * ticksPerBar) ticksPerBar = q).
  { intros q. unfold Math_round_div.
    replace (2 * (q * ticksPerBar) + ticksPerBar) with (q * (2 * ticksPerBar) + ticksPerBar) by lia.
    rewrite Z.div_add_l by lia. rewrite Z.div_small by lia. lia. }
  assert (Hcond : (currentTime st =? 0)
                  && match totalTrackLength st with Some t => 0 <? t | None => false end = false).
  { destruct Hedge as [Hne|Hlen].
    - apply Z.eqb_neq in Hne. rewrite Hne. reflexivity.
    - destruct (totalTrackLength st) as [t|]; [|apply andb_false_r].
      specialize (Hlen t eq_refl).
      replace (0 <? t) with false by (symmetry; apply Z.ltb_ge; lia). apply andb_false_r. }
  rewrite Hcond. unfold js_rem. rewrite Z.rem_mod_nonneg by lia.
  pose proof (Z.div_mod (currentTime st) ticksPerBar ltac:(lia)) as Hdm.
  pose proof (Z.mod_pos_bound (currentTime st) ticksPerBar Htpb) as Hr.
  set (q := currentTime st / ticksPerBar) in *.
  set (r := currentTime st mod ticksPerBar) in *.
  destruct (r =? 0) eqn:Hr0; cbn [negb].
  - apply Z.eqb_eq in Hr0. exists [], q. cbn [map concat Zsum]. rewrite append_bytes_nil.
    assert (Hq : q = (currentTime st + ticksPerBar - 1) / ticksPerBar).
    { apply Z.div_unique with (r := ticksPerBar - 1); lia. }
    split; [f_equal; f_equal; lia|]. split; [constructor|]. split; [lia|].
    split; [exact Hq|]. split; [apply Hround|].
    split; [apply Z.div_pos; lia|].
    destruct (Z.le_gt_cases q 64) as [H|H]; [exact H|exfalso; nia].
  - apply Z.eqb_neq in Hr0.
    assert (Hq63 : 0 <= q <= 63).
    { split; [apply Z.div_pos; lia|].
      destruct (Z.le_gt_cases q 63) as [H|H]; [exact H|exfalso; nia]. }
    replace (currentTime st + (ticksPerBar - r) <=? 64 * ticksPerBar) with true
      by (symmetry; apply Z.leb_le; nia).
    destruct (insertEmptyNotes_append (ticksPerBar - r) _ Hend) as (ts & -> & Hts & Hsum).
    exists ts, (q + 1). cbn [bind].
    assert (Hq : q + 1 = (currentTime st + ticksPerBar - 1) / ticksPerBar).
    { apply Z.div_unique with (r := r - 1); lia. }
    split; [f_equal; f_equal; lia|]. split; [exact Hts|]. split; [lia|].
    split; [exact Hq|]. split; [apply Hround|]. lia.
Qed.

Lemma round_to_bar_within_limit_witness :
  exists (ts : list Z) (bars : Z),
    round_to_bar 1920 (mkState DataBuffer.empty 1921 (Some 0) 1921)
    = Ok (append_bytes (concat (map rest_bytes ts)) DataBuffer.empty, bars * 1920)
    /\ Forall (fun t => 0 < t <= 255) ts
    /\ 1921 + Zsum ts = bars * 1920
    /\ bars = (1921 + 1920 - 1) / 1920
    /\ Math_round_div (bars * 1920) 1920 = bars
    /\ 0 <= bars <= 64.
Proof.
  exact (round_to_bar_within_limit 1920 (mkState DataBuffer.empty 1921 (Some 0) 1921)
           eq_refl ltac:(lia) ltac:(unfold maxBars; simpl; lia) ltac:(left; discriminate)).
Defined.

(** ** 32-bit operators *)

Lemma to_int32_range (x : Z) : -2147483648 <= to_int32 x < 2147483648.
Proof.
  unfold to_int32. pose proof (Z.mod_pos_bound (x + 2147483648) 4294967296 ltac:(lia)). lia.
Qed.

Lemma to_int32_small (x : Z) : -2147483648 <= x < 2147483648 -> to_int32 x = x.
Proof. intros H. unfold to_int32. rewrite Z.mod_small by lia. lia. Qed.

Lemma to_int32_congruent (x : Z) : exists k, to_int32 x = x + k * 4294967296.
Proof.
  unfold to_int32. exists (- ((x + 2147483648) / 4294967296)).
  pose proof (Z.div_mod (x + 2147483648) 4294967296 ltac:(lia)). lia.
Qed.

Lemma to_int32_mod (x m : Z) :
  0 < m -> (m | 4294967296) -> to_int32 x mod m = x mod m.
Proof.
  intros Hm [c Hc]. destruct (to_int32_congruent x) as [k ->].
  rewrite Hc. replace (x + k * (c * m)) with (x + (k * c) * m) by lia.
  apply Z.mod_add. lia.
Qed.

Lemma to_int32_div_mod (x d : Z) :
  0 < d -> (d * 256 | 4294967296) -> (to_int32 x / d) mod 256 = (x / d) mod 256.
Proof.
  intros Hd [c Hc]. destruct (to_int32_congruent x) as [k ->].
  rewrite Hc. replace (x + k * (c * (d * 256))) with (x + (k * c * 256) * d) by lia.
  rewrite Z.div_add by lia.
  replace (x / d + k * c * 256) with (x / d + (k * c) * 256) by lia.
  apply Z.mod_add. lia.
Qed.

(** The byte a mask and a shift select from a number, once it is stored in a
    byte array: the [n]-th byte of the number, also past 2^31 where the
    intermediate value is negative. *)
Lemma masked_byte_0 (v : Z) : js_and v 255 mod 256 = v mod 256.
Proof.
  unfold js_and. rewrite (to_int32_small 255) by lia.
  change 255 with (Z.ones 8). rewrite Z.land_ones by lia. change (2 ^ 8) with 256.
  rewrite Z.mod_mod by lia. apply to_int32_mod; [lia|]. exists 16777216. reflexivity.
Qed.

Lemma land_mask_range (x m n : Z) : 0 <= n -> 0 <= m < 2 ^ n -> 0 <= Z.land x m < 2 ^ n.
Proof.
  intros Hn Hm.
  assert (H : Z.land x m = Z.land x m mod 2 ^ n).
  { rewrite <- Z.land_ones, <- Z.land_assoc, (Z.land_ones m), (Z.mod_small m) by lia.
    reflexivity. }
  rewrite H. apply Z.mod_pos_bound. lia.
Qed.

Lemma masked_byte_1 (v : Z) : js_shr (js_and v 65280) 8 mod 256 = (v / 256) mod 256.
Proof.
  unfold js_shr, js_and. rewrite (to_int32_small 65280) by lia.
  pose proof (land_mask_range (to_int32 v) 65280 16 ltac:(lia) ltac:(lia)) as Hr.
  change (2 ^ 16) with 65536 in Hr.
  rewrite (to_int32_small (Z.land (to_int32 v) 65280)) by lia.
  rewrite Z.shiftr_land. change (Z.shiftr 65280 8) with (Z.ones 8).
  rewrite Z.land_ones, Z.shiftr_div_pow2 by lia. change (2 ^ 8) with 256.
  rewrite Z.mod_mod by lia.
  apply to_int32_div_mod; [lia|]. exists 65536. reflexivity.
Qed.

Lemma masked_byte_2 (v : Z) : js_shr (js_and v 16711680) 16 mod 256 = (v / 65536) mod 256.
Proof.
  unfold js_shr, js_and. rewrite (to_int32_small 16711680) by lia.
  pose proof (land_mask_range (to_int32 v) 16711680 24 ltac:(lia) ltac:(lia)) as Hr.
  change (2 ^ 24) with 16777216 in Hr.
  rewrite (to_int32_small (Z.land (to_int32 v) 16711680)) by lia.
  rewrite Z.shiftr_land. change (Z.shiftr 16711680 16) with (Z.ones 8).
  rewrite Z.land_ones, Z.shiftr_div_pow2 by lia. change (2 ^ 8) with 256.
  change (2 ^ 16) with 65536.
  rewrite Z.mod_mod by lia.
  apply to_int32_div_mod; [lia|]. exists 256. reflexivity.
Qed.

Lemma masked_byte_3 (v : Z) :
  js_shr (js_and v 4278190080) 24 mod 256 = (v / 16777216) mod 256.
Proof.
  unfold js_shr, js_and.
  change (to_int32 4278190080) with (Z.lnot (Z.ones 24)).
  rewrite <- Z.ldiff_land, Z.ldiff_ones_r by lia.
  pose proof (to_int32_range v) as Hx.
  assert (Hq : -128 <= to_int32 v / 16777216 < 128).
  { split; [apply Z.div_le_lower_bound; lia|apply Z.div_lt_upper_bound; lia]. }
  rewrite !Z.shiftr_div_pow2, Z.shiftl_mul_pow2 by lia. change (2 ^ 24) with 16777216.
  rewrite (to_int32_small (to_int32 v / 16777216 * 16777216)) by lia.
  rewrite Z.div_mul by lia.
  apply to_int32_div_mod; [lia|]. exists 1. reflexivity.
Qed.

(** For the two masks of a 16-bit write the signed detour changes nothing. *)
Lemma js_and_255 (v : Z) : js_and v 255 = Z.land v 255.
Proof.
  unfold js_and. rewrite (to_int32_small 255) by lia.
  change 255 with (Z.ones 8). rewrite !Z.land_ones by lia.
  apply to_int32_mod; [lia|]. exists 16777216. reflexivity.
Qed.

Lemma js_and_65280 (v : Z) : js_shr (js_and v 65280) 8 = Z.shiftr (Z.land v 65280) 8.
Proof.
  unfold js_shr, js_and. rewrite (to_int32_small 65280) by lia.
  pose proof (land_mask_range (to_int32 v) 65280 16 ltac:(lia) ltac:(lia)) as Hr.
  change (2 ^ 16) with 65536 in Hr.
  rewrite (to_int32_small (Z.land (to_int32 v) 65280)) by lia.
  rewrite !Z.shiftr_land. change (Z.shiftr 65280 8) with (Z.ones 8).
  rewrite !Z.land_ones, !Z.shiftr_div_pow2 by lia. change (2 ^ 8) with 256.
  apply to_int32_div_mod; [lia|]. exists 65536. reflexivity.
Qed.

(** ** The byte cursor *)

Section Cursor.
Import DataBuffer.

Lemma read_littleEndian_ok (n : nat) : forall b : t,
  (offset b + n <= List.length (data b))%nat ->
  read_littleEndian n b
  = Ok (rev (take n (drop (offset b) (data b))), at_offset (offset b + n) b).
Proof.
  induction n as [|n IH]; intros b Hle.
  - simpl. rewrite Nat.add_0_r. destruct b; reflexivity.
  - cbn [read_littleEndian]. rewrite readUInt8_ok by lia. cbn [bind].
    rewrite IH by (simpl; lia). cbn [bind at_offset offset data buffer writing].
    rewrite (drop_S _ (data b !!! offset b) (offset b))
      by (apply list_lookup_lookup_total_lt; lia).
    cbn [take rev]. unfold at_offset.
    replace (S (offset b) + n)%nat with (offset b + S n)%nat by lia. reflexivity.
Qed.

Lemma read_littleEndian_underflow (n : nat) : forall b : t,
  writing b = false ->
  (offset b <= List.length (data b))%nat ->
  (List.length (data b) < offset b + n)%nat ->
  read_littleEndian n b = Throw (UnderflowError "Insufficient Bytes: 1").
Proof.
  induction n as [|n IH]; intros b Hw Hin0 Hlt; [lia|].
  cbn [read_littleEndian].
  destruct (decide (offset b < List.length (data b))%nat) as [Hin|Hout].
  - rewrite readUInt8_ok by assumption. cbn [bind].
    rewrite IH; [reflexivity|assumption|simpl; lia|simpl; lia].
  - rewrite readUInt8_underflow by (assumption || lia). reflexivity.
Qed.

(** X9: [read(n)] on a buffer made from bytes returns exactly the next [n] bytes
    and moves the cursor by [n] when that many remain, in stream order or, for
    a little-endian read, reversed; when fewer remain it throws an
    UnderflowError and returns nothing. *)
Theorem read_next_bytes (n : nat) (b : t) :
  writing b = false ->
  (offset b <= List.length (data b))%nat ->
  ((offset b + n <= List.length (data b))%nat ->
     read n b = Ok (take n (drop (offset b) (data b)), at_offset (offset b + n) b)
     /\ read_littleEndian n b
        = Ok (rev (take n (drop (offset b) (data b))), at_offset (offset b + n) b))
  /\ ((List.length (data b) < offset b + n)%nat ->
      read n b = Throw (UnderflowError "Insufficient Bytes: 1")
      /\ read_littleEndian n b = Throw (UnderflowError "Insufficient Bytes: 1")).
Proof.
  intros Hw Hoff. split; intros H.
  - split; [apply read_ok, H|apply read_littleEndian_ok, H].
  - split; [apply read_underflow|apply read_littleEndian_underflow]; assumption.
Qed.

Lemma read_next_bytes_witness :
  read 2 (at_offset 1 (ofBytes [10; 20; 30; 40])) = Ok ([20; 30], at_offset 3 (ofBytes [10; 20; 30; 40]))
  /\ read_littleEndian 2 (at_offset 1 (ofBytes [10; 20; 30; 40]))
     = Ok ([30; 20], at_offset 3 (ofBytes [10; 20; 30; 40])).
Proof.
  exact (proj1 (read_next_bytes 2 (at_offset 1 (ofBytes [10; 20; 30; 40])) eq_refl
                  ltac:(simpl; lia)) ltac:(simpl; lia)).
Defined.

Lemma seek_ok (position : nat) (b : t) :
  writing b = true \/ (position <= List.length (data b))%nat ->
  seek position b = Ok (at_offset position b).
Proof.
  intros Hok. unfold seek.
  destruct (offset b <? position)%nat eqn:Hlt.
  - apply Nat.ltb_lt in Hlt. unfold advance, available, remainingBytes.
    assert (Hav : writing b
                  || (Z.of_nat (position - offset b)
                      <=? Z.of_nat (List.length (data b)) - Z.of_nat (offset b)) = true).
    { destruct Hok as [->|Hpos]; [reflexivity|].
      apply orb_true_iff. right. apply Z.leb_le. lia. }
    rewrite Hav. cbn [negb bind offset].
    replace (offset b + (position - offset b))%nat with position by lia.
    rewrite Nat.ltb_irrefl. reflexivity.
  - apply Nat.ltb_ge in Hlt. cbn [bind].
    destruct (position <? offset b)%nat eqn:Hgt.
    + apply Nat.ltb_lt in Hgt. unfold rewind.
      replace (offset b <? offset b - position)%nat with false
        by (symmetry; apply Nat.ltb_ge; lia).
      unfold at_offset.
      replace (offset b - (offset b - position))%nat with position by lia. reflexivity.
    + apply Nat.ltb_ge in Hgt. assert (offset b = position) as <- by lia.
      destruct b; reflexivity.
Qed.

(** X10: [seek(position)] leaves the cursor at [position], from wherever it was,
    when the position lies within the bytes or the buffer is in write mode; on
    a buffer made from bytes a position past the end throws an UnderflowError
    that names the missing count. *)
Theorem seek_reaches_position (position : nat) (b : t) :
  ((writing b = true \/ (position <= List.length (data b))%nat) ->
     seek position b = Ok (at_offset position b))
  /\ (writing b = false ->
      (offset b <= List.length (data b))%nat ->
      (List.length (data b) < position)%nat ->
      seek position b
      = Throw (UnderflowError ("Insufficient Bytes: " +:+ pretty (position - offset b)%nat
                               +:+ " <= " +:+ pretty (remainingBytes b)))).
Proof.
  split.
  - apply seek_ok.
  - intros Hw Hoff Hpos. unfold seek.
    replace (offset b <? position)%nat with true by (symmetry; apply Nat.ltb_lt; lia).
    unfold advance, available. rewrite Hw.
    replace (Z.of_nat (position - offset b) <=? remainingBytes b) with false
      by (symmetry; apply Z.leb_gt; unfold remainingBytes; lia).
    reflexivity.
Qed.

Lemma seek_reaches_position_witness :
  seek 1 (at_offset 3 (ofBytes [10; 20; 30; 40])) = Ok (at_offset 1 (at_offset 3 (ofBytes [10; 20; 30; 40])))
  /\ seek 9 (ofBytes [10; 20; 30; 40])
     = Throw (UnderflowError "Insufficient Bytes: 9 <= 4").
Proof.
  split.
  - exact (proj1 (seek_reaches_position 1 (at_offset 3 (ofBytes [10; 20; 30; 40])))
             ltac:(right; simpl; lia)).
  - exact (proj2 (seek_reaches_position 9 (ofBytes [10; 20; 30; 40]))
             eq_refl ltac:(simpl; lia) ltac:(simpl; lia)).
Defined.

Lemma peekUInt8_ok (o : nat) (b : t) :
  (o < List.length (data b))%nat -> peekUInt8 o b = Ok (data b !!! o).
Proof.
  intros Hlt. unfold peekUInt8, availableAt.
  replace (1 <=? _) with true by (symmetry; apply Z.leb_le; lia).
  rewrite orb_true_r. cbn [negb].
  rewrite (list_lookup_lookup_total_lt _ _ Hlt). reflexivity.
Qed.

Lemma peek_from_ok (n : nat) (b : t) : forall o : nat,
  (o + n <= List.length (data b))%nat ->
  peek_from n o b = Ok (take n (drop o (data b))).
Proof.
  induction n as [|n IH]; intros o Hle; [reflexivity|].
  cbn [peek_from]. rewrite peekUInt8_ok by lia. cbn [bind].
  rewrite IH by lia. cbn [bind].
  rewrite (drop_S _ (data b !!! o) o) by (apply list_lookup_lookup_total_lt; lia).
  reflexivity.
Qed.

Lemma peek_from_underflow (n : nat) (b : t) : forall o : nat,
  writing b = false ->
  (0 < n)%nat ->
  (List.length (data b) < o + n)%nat ->
  peek_from n o b
  = Throw (UnderflowError ("Insufficient Bytes: "
                           +:+ pretty (Nat.max o (List.length (data b))) +:+ " + 1")).
Proof.
  induction n as [|n IH]; intros o Hw Hn Hlt.
  - lia.
  - cbn [peek_from].
    destruct (decide (o < List.length (data b))%nat) as [Hin|Hout].
    + rewrite peekUInt8_ok by assumption. cbn [bind].
      rewrite IH by (assumption || lia). cbn [bind].
      replace (Nat.max (S o) (List.length (data b))) with (Nat.max o (List.length (data b)))
        by lia.
      reflexivity.
    + unfold peekUInt8, availableAt. rewrite Hw.
      replace (1 <=? _) with false by (symmetry; apply Z.leb_gt; lia).
      cbn [orb negb bind]. replace (Nat.max o (List.length (data b))) with o by lia.
      reflexivity.
Qed.

(** X11: [peek(n, offset)] takes its offset from the start of the bytes, not from
    the cursor: it returns the [n] bytes at [offset] (reversed when little
    endian), the same bytes a [seek(offset)] followed by [read(n)] returns;
    past the end of a buffer made from bytes it throws an UnderflowError that
    names the first missing position. *)
Theorem peek_is_absolute (n o : nat) (b : t) :
  ((o + n <= List.length (data b))%nat ->
     peek n o false b = Ok (take n (drop o (data b)))
     /\ peek n o true b = Ok (rev (take n (drop o (data b))))
     /\ (do b' <- seek o b; read n b')
        = Ok (take n (drop o (data b)), at_offset (o + n) b))
  /\ (writing b = false ->
      (0 < n)%nat ->
      (List.length (data b) < o + n)%nat ->
      forall littleEndian,
        peek n o littleEndian b
        = Throw (UnderflowError ("Insufficient Bytes: "
                                 +:+ pretty (Nat.max o (List.length (data b))) +:+ " + 1"))).
Proof.
  split.
  - intros Hle. unfold peek. rewrite peek_from_ok by exact Hle. cbn [bind].
    split; [reflexivity|]. split; [reflexivity|].
    rewrite (seek_ok o b) by (right; lia). cbn [bind].
    rewrite read_ok by (simpl; lia). reflexivity.
  - intros Hw Hn Hlt le. unfold peek. rewrite peek_from_underflow by assumption. reflexivity.
Qed.

Lemma peek_is_absolute_witness :
  peek 2 1 false (at_offset 3 (ofBytes [10; 20; 30; 40])) = Ok [20; 30]
  /\ peek 2 3 false (ofBytes [10; 20; 30; 40])
     = Throw (UnderflowError "Insufficient Bytes: 4 + 1").
Proof.
  split.
  - exact (proj1 (proj1 (peek_is_absolute 2 1 (at_offset 3 (ofBytes [10; 20; 30; 40])))
                    ltac:(simpl; lia))).
  - exact (proj2 (peek_is_absolute 2 3 (ofBytes [10; 20; 30; 40]))
             eq_refl ltac:(lia) ltac:(simpl; lia) false).
Defined.

End Cursor.

(** ** Writing, committing and reading back *)

Section WriteRead.
Import DataBuffer.

Lemma array_set_spec (i : nat) (v : Z) (l : list Z) :
  (i <= List.length l)%nat -> array_set i v l = take i l ++ [v] ++ drop (S i) l.
Proof.
  intros Hi. unfold array_set. destruct (i <? List.length l)%nat eqn:Hlt.
  - apply Nat.ltb_lt in Hlt. apply insert_take_drop. exact Hlt.
  - apply Nat.ltb_ge in Hlt. assert (i = List.length l) as -> by lia.
    rewrite Nat.sub_diag, firstn_all, drop_ge by lia. reflexivity.
Qed.

Lemma overwrite_length (o : nat) (ws l : list Z) :
  (o <= List.length l)%nat ->
  List.length (overwrite o ws l) = Nat.max (o + List.length ws) (List.length l).
Proof.
  intros Ho. unfold overwrite.
  rewrite !length_app, length_take, length_drop. lia.
Qed.

Lemma array_set_overwrite (o : nat) (ws : list Z) (v : Z) (l : list Z) :
  (o <= List.length l)%nat ->
  array_set (o + List.length ws) v (overwrite o ws l) = overwrite o (ws ++ [v]) l.
Proof.
  intros Ho.
  rewrite array_set_spec by (rewrite overwrite_length by exact Ho; lia).
  unfold overwrite.
  assert (Hlen : List.length (take o l ++ ws) = (o + List.length ws)%nat).
  { rewrite length_app, length_take. lia. }
  rewrite (app_assoc (take o l) ws), <- Hlen.
  rewrite take_app_length.
  replace (S (List.length (take o l ++ ws))) with (List.length (take o l ++ ws) + 1)%nat by lia.
  rewrite drop_app_add, drop_drop, Hlen, length_app. simpl.
  rewrite <- !app_assoc. simpl. rewrite Nat.add_assoc. reflexivity.
Qed.

Lemma overwrite_nil (o : nat) (l : list Z) : overwrite o [] l = l.
Proof. unfold overwrite. simpl. rewrite Nat.add_0_r. apply take_drop. Qed.

Lemma array_set_overwrite_1 (o : nat) (v : Z) (l : list Z) :
  (o <= List.length l)%nat -> array_set o v l = overwrite o [v] l.
Proof.
  intros Ho. rewrite <- (overwrite_nil o l) at 1.
  replace o with (o + List.length (@nil Z))%nat at 1 by (simpl; lia).
  apply array_set_overwrite, Ho.
Qed.

Lemma array_set_overwrite_2 (o : nat) (v0 v1 : Z) (l : list Z) :
  (o <= List.length l)%nat ->
  array_set (o + 1) v1 (array_set o v0 l) = overwrite o [v0; v1] l.
Proof.
  intros Ho. rewrite (array_set_overwrite_1 o v0 l Ho).
  apply (array_set_overwrite o [v0] v1 l Ho).
Qed.

Lemma array_set_overwrite_3 (o : nat) (v0 v1 v2 : Z) (l : list Z) :
  (o <= List.length l)%nat ->
  array_set (o + 2) v2 (array_set (o + 1) v1 (array_set o v0 l)) = overwrite o [v0; v1; v2] l.
Proof.
  intros Ho. rewrite (array_set_overwrite_2 o v0 v1 l Ho).
  apply (array_set_overwrite o [v0; v1] v2 l Ho).
Qed.

Lemma array_set_overwrite_4 (o : nat) (v0 v1 v2 v3 : Z) (l : list Z) :
  (o <= List.length l)%nat ->
  array_set (o + 3) v3 (array_set (o + 2) v2 (array_set (o + 1) v1 (array_set o v0 l)))
  = overwrite o [v0; v1; v2; v3] l.
Proof.
  intros Ho. rewrite (array_set_overwrite_3 o v0 v1 v2 l Ho).
  apply (array_set_overwrite o [v0; v1; v2] v3 l Ho).
Qed.

(** Reading [n] bytes at [o] from the committed form of an overwritten
    array gives the stored values, each reduced to a byte. *)
Lemma read_committed (o : nat) (ws l dat : list Z) (off : nat) (w : bool) :
  (o <= List.length l)%nat ->
  read (List.length ws) (at_offset o (commit (mk dat (overwrite o ws l) off w)))
  = Ok (map (fun v => v mod 256) ws,
        at_offset (o + List.length ws) (commit (mk dat (overwrite o ws l) off w))).
Proof.
  intros Ho.
  rewrite read_ok.
  - cbn [at_offset commit data offset buffer writing]. f_equal. f_equal.
    unfold toUint8Array, overwrite. rewrite !map_app.
    rewrite drop_app_length' by (rewrite length_map, length_take; lia).
    rewrite take_app_length' by (rewrite length_map; reflexivity). reflexivity.
  - cbn [at_offset commit data offset buffer]. unfold toUint8Array.
    rewrite length_map, overwrite_length by exact Ho. lia.
Qed.

Lemma mod_split (v m : Z) :
  0 < m -> v mod (256 * m) = v mod 256 + 256 * ((v / 256) mod m).
Proof. intros Hm. apply Z.rem_mul_r; lia. Qed.

Lemma bytes_of_uint16 (v : Z) : byte_of v 0 + 256 * byte_of v 1 = v mod 65536.
Proof.
  unfold byte_of. change (256 ^ 0) with 1. change (256 ^ 1) with 256. rewrite Z.div_1_r.
  pose proof (mod_split v 256 ltac:(lia)) as H. change (256 * 256) with 65536 in H. lia.
Qed.

Lemma bytes_of_uint24 (v : Z) :
  byte_of v 0 + 256 * byte_of v 1 + 65536 * byte_of v 2 = v mod 16777216.
Proof.
  unfold byte_of. change (256 ^ 0) with 1. change (256 ^ 1) with 256.
  change (256 ^ 2) with 65536. rewrite Z.div_1_r.
  pose proof (mod_split v 65536 ltac:(lia)) as H1. change (256 * 65536) with 16777216 in H1.
  pose proof (mod_split (v / 256) 256 ltac:(lia)) as H2. change (256 * 256) with 65536 in H2.
  rewrite Z.div_div in H2 by lia. change (256 * 256) with 65536 in H2. lia.
Qed.

Lemma bytes_of_uint32 (v : Z) :
  byte_of v 0 + 256 * byte_of v 1 + 65536 * byte_of v 2 + 16777216 * byte_of v 3
  = v mod 4294967296.
Proof.
  unfold byte_of. change (256 ^ 0) with 1. change (256 ^ 1) with 256.
  change (256 ^ 2) with 65536. change (256 ^ 3) with 16777216. rewrite Z.div_1_r.
  pose proof (mod_split v 16777216 ltac:(lia)) as H1.
  change (256 * 16777216) with 4294967296 in H1.
  pose proof (mod_split (v / 256) 65536 ltac:(lia)) as H2.
  change (256 * 65536) with 16777216 in H2.
  pose proof (mod_split (v / 65536) 256 ltac:(lia)) as H3.
  change (256 * 256) with 65536 in H3.
  rewrite Z.div_div in H2 by lia. change (256 * 256) with 65536 in H2.
  rewrite Z.div_div in H3 by lia. change (65536 * 256) with 16777216 in H3. lia.
Qed.

Lemma byte_of_range (v k : Z) : 0 <= byte_of v k < 256.
Proof. unfold byte_of. apply Z.mod_pos_bound. lia. Qed.

Lemma masked_bytes (v : Z) :
  js_and v 255 mod 256 = byte_of v 0
  /\ js_shr (js_and v 65280) 8 mod 256 = byte_of v 1
  /\ js_shr (js_and v 16711680) 16 mod 256 = byte_of v 2
  /\ js_shr (js_and v 4278190080) 24 mod 256 = byte_of v 3.
Proof.
  unfold byte_of. change (256 ^ 0) with 1. change (256 ^ 1) with 256.
  change (256 ^ 2) with 65536. change (256 ^ 3) with 16777216. rewrite Z.div_1_r.
  split; [apply masked_byte_0|]. split; [apply masked_byte_1|].
  split; [apply masked_byte_2|apply masked_byte_3].
Qed.

Lemma js_shl_byte (x n : Z) :
  0 <= x -> 0 <= n -> x * 2 ^ n < 2147483648 -> js_shl x n = x * 2 ^ n.
Proof.
  intros Hx Hn Hb. unfold js_shl.
  assert (x <= x * 2 ^ n) by (pose proof (Z.pow_pos_nonneg 2 n ltac:(lia) Hn); nia).
  rewrite (to_int32_small x) by lia.
  rewrite Z.shiftl_mul_pow2 by lia. apply to_int32_small.
  pose proof (Z.pow_pos_nonneg 2 n ltac:(lia) Hn). nia.
Qed.

End WriteRead.

Section WriteReadRoundTrip.
Import DataBuffer.

Lemma read_committed_at (o : nat) (ws l dat : list Z) (off : nat) (w : bool) (j k : nat) :
  (o <= List.length l)%nat ->
  (j + k <= List.length ws)%nat ->
  read k (at_offset (o + j) (commit (mk dat (overwrite o ws l) off w)))
  = Ok (map (fun v => v mod 256) (take k (drop j ws)),
        at_offset (o + j + k) (commit (mk dat (overwrite o ws l) off w))).
Proof.
  intros Ho Hjk.
  rewrite read_ok.
  - cbn [at_offset commit data offset buffer writing]. f_equal. f_equal.
    unfold toUint8Array, overwrite. rewrite !map_app.
    rewrite drop_app_add' by (rewrite length_map, length_take; lia).
    rewrite drop_app_le by (rewrite length_map; lia).
    rewrite take_app_le by (rewrite length_drop, length_map; lia).
    rewrite skipn_map, firstn_map. reflexivity.
  - cbn [at_offset commit data offset buffer]. unfold toUint8Array.
    rewrite length_map, overwrite_length by exact Ho. lia.
Qed.

Lemma readUInt8_of_read (b b' : t) (x : Z) :
  read 1 b = Ok ([x], b') -> readUInt8 b = Ok (x, b').
Proof.
  cbn [read]. destruct (readUInt8 b) as [[y b1]|e]; cbn [bind]; [|discriminate].
  intros [= -> ->]. reflexivity.
Qed.

(** X12: Writing a number as 8, 16, 24 or 32 bits at a position of the array
    (inside it or at its end), committing and reading the same width at that
    position gives the number modulo 2^8, 2^16, 2^24 or 2^32, in either byte
    order and for every integer, negative or beyond 2^31. *)
Theorem write_commit_read (v : Z) (o : nat) (advance : bool) (b : t) :
  (o <= List.length (buffer b))%nat ->
  readUInt8 (at_offset o (commit (writeUInt8_at v o advance b)))
  = Ok (v mod 256, at_offset (o + 1) (commit (writeUInt8_at v o advance b)))
  /\ (forall le,
        readUInt16 le (at_offset o (commit (writeUInt16 v o advance le b)))
        = Ok (v mod 65536, at_offset (o + 2) (commit (writeUInt16 v o advance le b))))
  /\ (forall le,
        readUInt24 le (at_offset o (commit (writeUInt24 v o advance le b)))
        = Ok (v mod 16777216, at_offset (o + 3) (commit (writeUInt24 v o advance le b))))
  /\ (forall le,
        readUInt32 le (at_offset o (commit (writeUInt32 v o advance le b)))
        = Ok (v mod 4294967296, at_offset (o + 4) (commit (writeUInt32 v o advance le b)))).
Proof.
  intros Ho.
  destruct (masked_bytes v) as (H0 & H1 & H2 & H3).
  pose proof (bytes_of_uint16 v) as S16.
  pose proof (bytes_of_uint24 v) as S24.
  pose proof (bytes_of_uint32 v) as S32.
  pose proof (byte_of_range v 0) as R0. pose proof (byte_of_range v 1) as R1.
  pose proof (byte_of_range v 2) as R2. pose proof (byte_of_range v 3) as R3.
  split; [|split; [|split]].
  - unfold writeUInt8_at. rewrite (array_set_overwrite_1 o v _ Ho).
    apply readUInt8_of_read.
    pose proof (read_committed_at o [v] (buffer b) (data b)
                  (if advance then S (offset b) else offset b) (writing b) 0 1 Ho
                  ltac:(simpl; lia)) as H.
    rewrite Nat.add_0_r in H. exact H.
  - intros le. unfold writeUInt16, readUInt16. cbv zeta.
    destruct le; rewrite (array_set_overwrite_2 o _ _ _ Ho);
      match goal with
      | |- context [overwrite o ?ws _] =>
          pose proof (read_committed_at o ws (buffer b) (data b)
                        (if advance then (offset b + 2)%nat else offset b) (writing b) 0 2 Ho
                        ltac:(simpl; lia)) as H
      end;
      rewrite Nat.add_0_r in H; rewrite H; cbn [bind take drop map getUint16];
      cbn [lookup_total list_lookup_total]; rewrite H0, H1; do 2 f_equal; lia.
  - intros le. unfold writeUInt24, readUInt24, readUInt16. cbv zeta.
    destruct le; rewrite (array_set_overwrite_3 o _ _ _ _ Ho);
      match goal with
      | |- context [overwrite o ?ws _] =>
          pose proof (read_committed_at o ws (buffer b) (data b)
                        (if advance then (offset b + 3)%nat else offset b) (writing b) 0 2 Ho
                        ltac:(simpl; lia)) as Ha;
          pose proof (read_committed_at o ws (buffer b) (data b)
                        (if advance then (offset b + 3)%nat else offset b) (writing b) 2 1 Ho
                        ltac:(simpl; lia)) as Hb
      end;
      rewrite Nat.add_0_r in Ha; rewrite Ha; cbn [bind take drop map getUint16];
      apply readUInt8_of_read in Hb; rewrite Hb; cbn [bind];
      cbn [lookup_total list_lookup_total]; rewrite H0, H1, H2.
    + rewrite (js_shl_byte (byte_of v 2) 16) by (change (2 ^ 16) with 65536; lia).
      change (2 ^ 16) with 65536.
      replace (o + 2 + 1)%nat with (o + 3)%nat by lia. do 2 f_equal. lia.
    + rewrite (js_shl_byte (256 * byte_of v 2 + byte_of v 1) 8)
        by (change (2 ^ 8) with 256; lia).
      change (2 ^ 8) with 256.
      replace (o + 2 + 1)%nat with (o + 3)%nat by lia. do 2 f_equal. lia.
  - intros le. unfold writeUInt32, readUInt32. cbv zeta.
    destruct le; rewrite (array_set_overwrite_4 o _ _ _ _ _ Ho);
      match goal with
      | |- context [overwrite o ?ws _] =>
          pose proof (read_committed_at o ws (buffer b) (data b)
                        (if advance then (offset b + 4)%nat else offset b) (writing b) 0 4 Ho
                        ltac:(simpl; lia)) as H
      end;
      rewrite Nat.add_0_r in H; rewrite H; cbn [bind take drop map getUint32];
      cbn [lookup_total list_lookup_total]; rewrite H0, H1, H2, H3; do 2 f_equal; lia.
Qed.

Lemma write_commit_read_witness :
  readUInt32 false (at_offset 0 (commit (writeUInt32 4294967295 0 true false empty)))
  = Ok (4294967295 mod 4294967296,
        at_offset (0 + 4) (commit (writeUInt32 4294967295 0 true false empty))).
Proof.
  exact (proj2 (proj2 (proj2 (write_commit_read 4294967295 0 true empty ltac:(simpl; lia))))
           false).
Defined.

(** X13: A write at a position inside the array replaces the bytes of its width
    and nothing else: the length and every other element stay, which is what
    the patching of a length field after a [seek] relies on; the cursor moves
    by the width only when [advance] is set. *)
Theorem write_in_place (v : Z) (o : nat) (advance le : bool) (b : t) :
  (o + 4 <= List.length (buffer b))%nat ->
  let b' := writeUInt32 v o advance le b in
  List.length (buffer b') = List.length (buffer b)
  /\ take o (buffer b') = take o (buffer b)
  /\ drop (o + 4) (buffer b') = drop (o + 4) (buffer b)
  /\ offset b' = (if advance then offset b + 4 else offset b)%nat
  /\ data b' = data b.
Proof.
  intros Ho b'. subst b'. unfold writeUInt32. cbv zeta. cbn [buffer offset data].
  assert (Ho' : (o <= List.length (buffer b))%nat) by lia.
  destruct le; rewrite (array_set_overwrite_4 o _ _ _ _ _ Ho');
    (split; [rewrite overwrite_length by exact Ho'; simpl; lia|]);
    unfold overwrite;
    (split; [rewrite take_app_length' by (rewrite length_take; lia); reflexivity|]);
    (split; [|split; reflexivity]);
    rewrite drop_app_add' by (rewrite length_take; lia);
    rewrite (drop_app_length' _ _ 4) by reflexivity; reflexivity.
Qed.

Lemma write_in_place_witness :
  let b' := writeUInt32 258 1 false false (mk [] [9; 0; 0; 0; 0; 7] 6 true) in
  List.length (buffer b') = 6%nat
  /\ take 1 (buffer b') = [9]
  /\ drop (1 + 4) (buffer b') = [7]
  /\ offset b' = 6%nat
  /\ data b' = [].
Proof.
  exact (write_in_place 258 1 false false (mk [] [9; 0; 0; 0; 0; 7] 6 true)
           ltac:(simpl; lia)).
Defined.

(** The little-endian 16-bit write that [fromMidi] uses is the general
    [writeUInt16] at the cursor: the signed detour of the bit operators does
    not show for these two masks. *)
Lemma writeUInt16_le_general (v : Z) (b : t) :
  writeUInt16 v (offset b) true true b = writeUInt16_le v b.
Proof.
  unfold writeUInt16, writeUInt16_le. cbv zeta.
  rewrite js_and_255, js_and_65280, Nat.add_1_r.
  replace (offset b + 2)%nat with (S (S (offset b))) by lia. reflexivity.
Qed.

End WriteReadRoundTrip.

Section VariableLength.
Import AudioMIDI DataBuffer.

Lemma Z_range_cases (P : Z -> bool) (lo n : nat) :
  forallb P (map Z.of_nat (seq lo n)) = true ->
  forall x, Z.of_nat lo <= x < Z.of_nat lo + Z.of_nat n -> P x = true.
Proof.
  intros H x Hx. rewrite forallb_forall in H. apply H.
  apply in_map_iff. exists (Z.to_nat x). split; [lia|].
  apply in_seq. lia.
Qed.

Lemma js_low7 (a : Z) : 0 <= a < 2147483648 -> js_and a 127 = a mod 128.
Proof.
  intros H. unfold js_and. rewrite (to_int32_small a), (to_int32_small 127) by lia.
  change 127 with (Z.ones 7). rewrite Z.land_ones by lia. reflexivity.
Qed.

Lemma js_shr7 (a : Z) : 0 <= a < 2147483648 -> js_shr a 7 = a / 128.
Proof.
  intros H. unfold js_shr. rewrite (to_int32_small a) by lia.
  rewrite Z.shiftr_div_pow2 by lia. reflexivity.
Qed.

Lemma js_flag_set (g : Z) : 0 <= g < 128 -> js_or g 128 = g + 128.
Proof.
  intros H. apply Z.eqb_eq.
  apply (Z_range_cases (fun g => js_or g 128 =? g + 128) 0 128); [vm_compute; reflexivity|lia].
Qed.

Lemma js_flag_test (x : Z) :
  0 <= x < 256 -> js_and x 128 = if x <? 128 then 0 else 128.
Proof.
  intros H. apply Z.eqb_eq.
  apply (Z_range_cases (fun x => js_and x 128 =? if x <? 128 then 0 else 128) 0 256);
    [vm_compute; reflexivity|lia].
Qed.

Lemma take_drop_head (n o : nat) (d : list Z) (x : Z) (xs : list Z) :
  take (S n) (drop o d) = x :: xs ->
  d !! o = Some x /\ take n (drop (S o) d) = xs.
Proof.
  intros H. destruct (drop o d) as [|y l'] eqn:E; [discriminate|].
  cbn [take firstn] in H. injection H as -> Hxs. split.
  - rewrite <- (Nat.add_0_r o), <- lookup_drop, E. reflexivity.
  - replace (S o) with (o + 1)%nat by lia. rewrite <- drop_drop, E. exact Hxs.
Qed.

(** The reader runs over the flagged bytes and stops after the first byte
    without the flag, whatever follows it. *)
Lemma read_vlq_run (hs : list Z) : forall (fuel : nat) (acc : Z) (b : t) (l : Z),
  Forall (fun x => 128 <= x < 256) hs ->
  0 <= l < 128 ->
  take (S (List.length hs)) (drop (offset b) (data b)) = hs ++ [l] ->
  (List.length hs < fuel)%nat ->
  readVariableLengthValues_loop fuel acc b
  = Ok (fold_left (fun value byte => js_shl value 7 + byte mod 128) (hs ++ [l]) acc,
        at_offset (offset b + S (List.length hs)) b).
Proof.
  induction hs as [|h hs IH]; intros fuel acc b l Hhs Hl Hd Hf.
  - destruct fuel as [|fuel]; [simpl in Hf; lia|].
    apply take_drop_head in Hd. destruct Hd as [Hd _].
    pose proof (lookup_lt_Some _ _ _ Hd) as Hlt.
    cbn [readVariableLengthValues_loop].
    rewrite readUInt8_ok by exact Hlt. cbn [bind].
    rewrite (list_lookup_total_correct _ _ _ Hd).
    rewrite js_flag_test by lia.
    replace (l <? 128) with true by (symmetry; apply Z.ltb_lt; lia).
    cbn [Z.eqb negb andb]. rewrite js_low7 by lia.
    cbn [app fold_left List.length]. rewrite Nat.add_1_r. reflexivity.
  - destruct fuel as [|fuel]; [simpl in Hf; lia|].
    inversion Hhs as [|? ? Hh Hhs']; subst.
    cbn [List.length app] in Hd.
    assert (Hlen : (S (S (List.length hs)) <= List.length (drop (offset b) (data b)))%nat).
    { apply (f_equal (@List.length Z)) in Hd. rewrite length_take in Hd.
      cbn [List.length] in Hd. rewrite length_app in Hd. cbn [List.length] in Hd. lia. }
    rewrite length_drop in Hlen.
    apply take_drop_head in Hd. destruct Hd as [Hd Hrest].
    pose proof (lookup_lt_Some _ _ _ Hd) as Hlt.
    cbn [readVariableLengthValues_loop].
    rewrite readUInt8_ok by exact Hlt. cbn [bind].
    rewrite (list_lookup_total_correct _ _ _ Hd).
    rewrite js_flag_test by lia.
    replace (h <? 128) with false by (symmetry; apply Z.ltb_ge; lia).
    replace (0 <? remainingBytes (at_offset (S (offset b)) b)) with true
      by (symmetry; apply Z.ltb_lt; unfold remainingBytes, at_offset; cbn [data offset]; lia).
    cbn [Z.eqb negb andb].
    rewrite (IH fuel _ (at_offset (S (offset b)) b) l Hhs' Hl Hrest)
      by (cbn [List.length] in Hf; lia).
    rewrite js_low7 by lia.
    cbn [app fold_left List.length at_offset data buffer writing offset].
    replace (offset b + S (S (List.length hs)))%nat
      with (S (offset b) + S (List.length hs))%nat by lia.
    reflexivity.
Qed.

Lemma vlq_high_range (fuel : nat) : forall w,
  Forall (fun x => 128 <= x < 256) (vlq_high fuel w)
  /\ (List.length (vlq_high fuel w) <= fuel)%nat.
Proof.
  induction fuel as [|fuel IH]; intros w; cbn [vlq_high].
  - split; [constructor|simpl; lia].
  - destruct (0 <? w); [|split; [constructor|simpl; lia]].
    destruct (IH (w / 128)) as [HF HL]. split.
    + apply Forall_app. split; [exact HF|].
      constructor; [|constructor]. pose proof (Z.mod_pos_bound w 128 ltac:(lia)). lia.
    + rewrite length_app. simpl. lia.
Qed.

Lemma vlq_high_value (fuel : nat) : forall w,
  0 <= w < 128 ^ Z.of_nat fuel -> w < 2147483648 ->
  vlq_value (vlq_high fuel w) = w.
Proof.
  unfold vlq_value.
  induction fuel as [|fuel IH]; intros w Hw Hb; cbn [vlq_high].
  - change (128 ^ Z.of_nat 0) with 1 in Hw. simpl. lia.
  - destruct (Z.ltb_spec 0 w) as [Hpos|Hz]; [|simpl; lia].
    rewrite fold_left_app. cbn [fold_left].
    assert (Hq : 0 <= w / 128 < 128 ^ Z.of_nat fuel).
    { replace (Z.of_nat (S fuel)) with (Z.of_nat fuel + 1) in Hw by lia.
      rewrite Z.pow_add_r, Z.pow_1_r in Hw by lia.
      split; [apply Z.div_pos; lia|apply Z.div_lt_upper_bound; lia]. }
    assert (Hq' : w / 128 < 16777216) by (apply Z.div_lt_upper_bound; lia).
    rewrite IH by (try exact Hq; lia).
    rewrite js_shl_byte by (change (2 ^ 7) with 128; lia).
    change (2 ^ 7) with 128.
    pose proof (Z.mod_pos_bound w 128 ltac:(lia)) as Hm.
    replace ((w mod 128 + 128) mod 128) with (w mod 128)
      by (symmetry; replace (w mod 128 + 128) with (w mod 128 + 1 * 128) by lia;
          rewrite Z_mod_plus_full; apply Z.mod_mod; lia).
    pose proof (Z.div_mod w 128 ltac:(lia)). lia.
Qed.

Lemma vlq_bytes_value (v : Z) : 0 <= v < 2147483648 -> vlq_value (vlq_bytes v) = v.
Proof.
  intros Hv. unfold vlq_bytes.
  assert (Hq : 0 <= v / 128 < 16777216)
    by (split; [apply Z.div_pos; lia|apply Z.div_lt_upper_bound; lia]).
  pose proof (vlq_high_value 4 (v / 128)
                ltac:(change (128 ^ Z.of_nat 4) with 268435456; lia) ltac:(lia)) as H.
  unfold vlq_value in *. rewrite fold_left_app. cbn [fold_left]. rewrite H.
  rewrite js_shl_byte by (change (2 ^ 7) with 128; lia).
  change (2 ^ 7) with 128. rewrite Z.mod_mod by lia.
  pose proof (Z.div_mod v 128 ltac:(lia)). lia.
Qed.

Lemma writeEventData_append (ds : list Z) : forall b,
  at_end b -> writeEventData b ds = append_bytes ds b.
Proof.
  unfold writeEventData.
  induction ds as [|d ds IH]; intros b Hb; cbn [fold_left].
  - rewrite append_bytes_nil. reflexivity.
  - rewrite (writeUInt8_append d b Hb).
    rewrite IH by (apply append_bytes_at_end, Hb).
    apply append_bytes_app.
Qed.

(** The writer's loop and its pops give the bytes of the format. *)
Lemma writeVariableLengthValue_bytes (v : Z) (b : t) :
  0 <= v < 2147483648 -> at_end b ->
  writeVariableLengthValue b v = Ok (append_bytes (vlq_bytes v) b).
Proof.
  intros Hv Hb.
  assert (B1 : 0 <= v / 128 < 16777216)
    by (split; [apply Z.div_pos; lia|apply Z.div_lt_upper_bound; lia]).
  assert (B2 : 0 <= v / 128 / 128 < 131072)
    by (split; [apply Z.div_pos; lia|apply Z.div_lt_upper_bound; lia]).
  assert (B3 : 0 <= v / 128 / 128 / 128 < 1024)
    by (split; [apply Z.div_pos; lia|apply Z.div_lt_upper_bound; lia]).
  assert (B4 : 0 <= v / 128 / 128 / 128 / 128 < 8)
    by (split; [apply Z.div_pos; lia|apply Z.div_lt_upper_bound; lia]).
  assert (B5 : v / 128 / 128 / 128 / 128 / 128 = 0)
    by (apply Z.div_small; lia).
  unfold writeVariableLengthValue, vlq_bytes. cbn [push_groups vlq_high app].
  rewrite (js_shr7 v), (js_low7 v) by lia.
  rewrite (js_shr7 (v / 128)), (js_low7 (v / 128)) by lia.
  rewrite (js_shr7 (v / 128 / 128)), (js_low7 (v / 128 / 128)) by lia.
  rewrite (js_shr7 (v / 128 / 128 / 128)), (js_low7 (v / 128 / 128 / 128)) by lia.
  rewrite (js_shr7 (v / 128 / 128 / 128 / 128)),
    (js_low7 (v / 128 / 128 / 128 / 128)) by lia.
  rewrite B5. change (0 <? 0) with false. cbv iota.
  pose proof (Z.mod_pos_bound v 128 ltac:(lia)) as M0.
  pose proof (Z.mod_pos_bound (v / 128) 128 ltac:(lia)) as M1.
  pose proof (Z.mod_pos_bound (v / 128 / 128) 128 ltac:(lia)) as M2.
  pose proof (Z.mod_pos_bound (v / 128 / 128 / 128) 128 ltac:(lia)) as M3.
  pose proof (Z.mod_pos_bound (v / 128 / 128 / 128 / 128) 128 ltac:(lia)) as M4.
  destruct (0 <? v / 128);
    [destruct (0 <? v / 128 / 128);
      [destruct (0 <? v / 128 / 128 / 128);
        [destruct (0 <? v / 128 / 128 / 128 / 128)|]|]|];
    cbn [bind rev app pop_groups];
    rewrite ?js_flag_set by assumption;
    rewrite (writeUInt8_append _ b Hb);
    rewrite ?writeUInt8_append_more by exact Hb;
    cbn [app]; reflexivity.
Qed.

(** X14: a delta time written by [writeVariableLengthValue] at the end of a
    buffer takes one to five bytes and, once the buffer is committed, is read
    back by [readVariableLengthValues] from where it was written, whatever
    bytes are written after it; this holds for every value from 0 up to
    2^31 - 1. *)
Theorem variable_length_round_trip (v : Z) (b : t) (later : list Z) :
  0 <= v < 2147483648 ->
  at_end b ->
  exists b',
    writeVariableLengthValue b v = Ok b'
    /\ (offset b < offset b' <= offset b + 5)%nat
    /\ readVariableLengthValues (at_offset (offset b) (commit (writeEventData b' later)))
       = Ok (v, at_offset (offset b') (commit (writeEventData b' later))).
Proof.
  intros Hv Hb. exists (append_bytes (vlq_bytes v) b).
  destruct (vlq_high_range 4 (v / 128)) as [HF HL].
  pose proof (Z.mod_pos_bound v 128 ltac:(lia)) as M0.
  split; [apply writeVariableLengthValue_bytes; assumption|].
  split.
  { unfold append_bytes, vlq_bytes. cbn [offset]. rewrite length_app.
    cbn [List.length]. lia. }
  rewrite writeEventData_append by (apply append_bytes_at_end, Hb).
  rewrite append_bytes_app.
  unfold readVariableLengthValues.
  set (c := commit (append_bytes (vlq_bytes v ++ later) b)).
  assert (Hdata : take (S (List.length (vlq_high 4 (v / 128)))) (drop (offset b) (data c))
                  = vlq_high 4 (v / 128) ++ [v mod 128]).
  { subst c. unfold commit, append_bytes, toUint8Array. cbn [data buffer].
    rewrite map_app. rewrite drop_app_length' by (rewrite length_map; exact Hb).
    rewrite map_app. rewrite take_app_length'.
    - unfold vlq_bytes. rewrite map_app. f_equal.
      + rewrite <- (map_id (vlq_high 4 (v / 128))) at 2. apply map_ext_in.
        intros x Hx. rewrite List.Forall_forall in HF. specialize (HF x Hx).
        apply Z.mod_small. lia.
      + cbn [map]. rewrite Z.mod_small by lia. reflexivity.
    - rewrite length_map. unfold vlq_bytes. rewrite length_app.
      cbn [List.length]. lia. }
  pose proof (read_vlq_run (vlq_high 4 (v / 128)) (S (List.length (data c))) 0
                (at_offset (offset b) c) (v mod 128) HF M0) as R.
  cbn [at_offset data offset buffer writing] in R |- *.
  assert (Hfuel : (List.length (vlq_high 4 (v / 128)) < S (List.length (data c)))%nat).
  { apply (f_equal (@List.length Z)) in Hdata.
    rewrite length_take, length_drop, length_app in Hdata.
    cbn [List.length] in Hdata. lia. }
  rewrite (R Hdata Hfuel).
  fold (vlq_bytes v). fold (vlq_value (vlq_bytes v)).
  rewrite vlq_bytes_value by exact Hv.
  replace (offset b + S (List.length (vlq_high 4 (v / 128))))%nat
    with (offset (append_bytes (vlq_bytes v) b)); [reflexivity|].
  unfold append_bytes, vlq_bytes. cbn [offset]. rewrite length_app.
  cbn [List.length]. lia.
Qed.

Lemma variable_length_round_trip_witness :
  exists b',
    writeVariableLengthValue empty 480 = Ok b'
    /\ (offset empty < offset b' <= offset empty + 5)%nat
    /\ readVariableLengthValues
         (at_offset (offset empty) (commit (writeEventData b' [144; 60; 100])))
       = Ok (480, at_offset (offset b') (commit (writeEventData b' [144; 60; 100]))).
Proof.
  apply (variable_length_round_trip 480 empty [144; 60; 100]); [lia|reflexivity].
Defined.

End VariableLength.

Section Tempo.
Import AudioMIDI DataBuffer.

Lemma readUInt8_at (c : t) (o : nat) (x : Z) :
  data c !! o = Some x -> readUInt8 (at_offset o c) = Ok (x, at_offset (S o) c).
Proof.
  intros H. pose proof (lookup_lt_Some _ _ _ H) as Hlt.
  rewrite readUInt8_ok by exact Hlt.
  cbn [at_offset data offset buffer writing].
  rewrite (list_lookup_total_correct _ _ _ H). reflexivity.
Qed.

Lemma committed_lookup (ws : list Z) (b : t) (k : nat) :
  at_end b ->
  data (commit (append_bytes ws b)) !! (offset b + k)%nat
  = (fun v => v mod 256) <$> ws !! k.
Proof.
  intros Hb. unfold commit, append_bytes, toUint8Array. cbn [data buffer].
  rewrite list_lookup_fmap.
  rewrite lookup_app_r by (rewrite Hb; lia).
  replace (offset b + k - List.length (buffer b))%nat with k by (rewrite Hb; lia).
  reflexivity.
Qed.

Lemma tempo_byte (t k : Z) : 0 <= k -> Z.land (Z.shiftr t k) 255 = (t / 2 ^ k) mod 256.
Proof.
  intros Hk. rewrite Z.shiftr_div_pow2 by exact Hk.
  change 255 with (Z.ones 8). rewrite Z.land_ones by lia. reflexivity.
Qed.

Lemma bpm_of_tempo (q : Z) :
  4 <= q <= 7811 -> Math_round_div 60000000 (Math_round_div 60000000 q) = q.
Proof.
  intros H. apply Z.eqb_eq.
  apply (Z_range_cases
           (fun q => Math_round_div 60000000 (Math_round_div 60000000 q) =? q) 4
           (Z.to_nat 7808));
    [vm_compute; reflexivity|lia].
Qed.

(** X15: for a whole number of beats per minute from 4 to 7811, the three
    bytes of the event that [generateTempoEvent] builds, written as
    [writeEvent] writes them and committed, are read by the Set Tempo case of
    [parse] into the same data: the same bytes, the same microseconds per
    quarter note and the same beats per minute. *)
Theorem tempo_event_round_trip (q : Z) (b : t) :
  4 <= q <= 7811 ->
  at_end b ->
  exists b',
    writeTempoData b (MidiEvent.data (generateTempoEvent q)) = Ok b'
    /\ offset b' = (offset b + 3)%nat
    /\ parseTempo (at_offset (offset b) (commit b'))
       = Ok (MidiEvent.data (generateTempoEvent q), at_offset (offset b') (commit b')).
Proof.
  intros Hq Hb.
  unfold generateTempoEvent. cbv zeta. cbn [MidiEvent.data writeTempoData].
  pose proof (bpm_of_tempo q Hq) as Hbpm.
  set (t := Math_round_div 60000000 q) in *.
  assert (Ht : 0 < t < 16777216).
  { subst t. unfold Math_round_div.
    split; [apply Z.div_str_pos; lia|apply Z.div_lt_upper_bound; lia]. }
  rewrite (tempo_byte t 16), (tempo_byte t 8) by lia.
  replace (Z.land t 255) with (t mod 256)
    by (change 255 with (Z.ones 8); rewrite Z.land_ones by lia; reflexivity).
  change (2 ^ 16) with (256 ^ 2). change (2 ^ 8) with (256 ^ 1).
  replace (t mod 256) with (byte_of t 0)
    by (unfold byte_of; change (256 ^ 0) with 1; rewrite Z.div_1_r; reflexivity).
  fold (byte_of t 2). fold (byte_of t 1).
  pose proof (byte_of_range t 0) as R0. pose proof (byte_of_range t 1) as R1.
  pose proof (byte_of_range t 2) as R2.
  pose proof (bytes_of_uint24 t) as S24. rewrite Z.mod_small in S24 by lia.
  rewrite writeEventData_append by exact Hb.
  eexists. split; [reflexivity|]. split; [reflexivity|].
  unfold parseTempo.
  set (c := commit (append_bytes [byte_of t 2; byte_of t 1; byte_of t 0] b)).
  pose proof (committed_lookup [byte_of t 2; byte_of t 1; byte_of t 0] b 0 Hb) as L0.
  pose proof (committed_lookup [byte_of t 2; byte_of t 1; byte_of t 0] b 1 Hb) as L1.
  pose proof (committed_lookup [byte_of t 2; byte_of t 1; byte_of t 0] b 2 Hb) as L2.
  fold c in L0, L1, L2. cbn [lookup list_lookup fmap option_fmap option_map] in L0, L1, L2.
  rewrite Z.mod_small in L0, L1, L2 by lia.
  rewrite Nat.add_0_r in L0. rewrite Nat.add_1_r in L1.
  replace (offset b + 2)%nat with (S (S (offset b))) in L2 by lia.
  rewrite (readUInt8_at c _ _ L0). cbn [bind].
  rewrite (readUInt8_at c _ _ L1). cbn [bind].
  rewrite (readUInt8_at c _ _ L2). cbn [bind].
  rewrite (js_shl_byte (byte_of t 2) 16) by (change (2 ^ 16) with 65536; lia).
  rewrite (js_shl_byte (byte_of t 1) 8) by (change (2 ^ 8) with 256; lia).
  change (2 ^ 16) with 65536. change (2 ^ 8) with 256.
  replace (byte_of t 2 * 65536 + byte_of t 1 * 256 + byte_of t 0) with t by lia.
  rewrite Hbpm.
  subst c.
  replace (offset (append_bytes [byte_of t 2; byte_of t 1; byte_of t 0] b))
    with (S (S (S (offset b)))); [reflexivity|].
  unfold append_bytes. cbn [offset List.length]. lia.
Qed.

Lemma tempo_event_round_trip_witness :
  exists b',
    writeTempoData empty (MidiEvent.data (generateTempoEvent 120)) = Ok b'
    /\ offset b' = (offset empty + 3)%nat
    /\ parseTempo (at_offset (offset empty) (commit b'))
       = Ok (MidiEvent.data (generateTempoEvent 120), at_offset (offset b') (commit b')).
Proof.
  apply (tempo_event_round_trip 120 empty); [lia|reflexivity].
Defined.

End Tempo.

Section Compare.
Import DataBuffer.

Lemma slice_data (position len : nat) (b : t) :
  data (slice position len b) = take len (drop position (data b)).
Proof.
  unfold slice.
  destruct (Nat.eqb_spec position 0) as [->|Hp]; cbn [andb]; [|reflexivity].
  destruct (Nat.leb_spec (List.length (data b)) len) as [Hle|Hgt]; [|reflexivity].
  cbn [ofBytes ofUint8Array data]. rewrite drop_0, take_ge by exact Hle. reflexivity.
Qed.

Lemma lookups_agree (l m : list Z) :
  (List.length l <= List.length m)%nat ->
  forallb (fun i => match l !! i, m !! i with
                    | Some x, Some y => x =? y
                    | _, _ => false
                    end) (seq 0 (List.length m)) = true
  <-> l = m.
Proof.
  intros Hlen. split.
  - intros H. rewrite forallb_forall in H. apply list_eq. intros i.
    destruct (Nat.lt_ge_cases i (List.length m)) as [Hi|Hi].
    + specialize (H i ltac:(apply in_seq; lia)).
      destruct (l !! i) as [x|]; [|discriminate].
      destruct (m !! i) as [y|]; [|discriminate].
      apply Z.eqb_eq in H. subst. reflexivity.
    + rewrite (lookup_ge_None_2 l i) by lia.
      rewrite (lookup_ge_None_2 m i) by lia. reflexivity.
  - intros ->. apply forallb_forall. intros i Hi. apply in_seq in Hi.
    destruct (lookup_lt_is_Some_2 m i ltac:(lia)) as [y Hy]. rewrite Hy.
    apply Z.eqb_refl.
Qed.

(** X16: [compare(input, offset)] answers true exactly when [input] is not
    empty and its values, reduced to bytes, are the bytes of the data from
    [offset] on; an input that reaches past the end of the data, or an empty
    one, never compares equal. *)
Theorem compare_matches_bytes (input : list Z) (off : nat) (b : t) :
  compare input off b = true
  <-> input <> [] /\ take (List.length input) (drop off (data b)) = toUint8Array input.
Proof.
  unfold compare. cbv zeta. cbn [ofBytes ofUint8Array data].
  assert (Hl : List.length (toUint8Array input) = List.length input)
    by (unfold toUint8Array; apply length_map).
  destruct (Nat.eqb_spec (List.length (toUint8Array input)) 0) as [Hz|Hnz].
  - split; [discriminate|]. intros [Hne _]. destruct input; [contradiction|].
    rewrite Hl in Hz. discriminate.
  - rewrite slice_data, Hl.
    assert (Hle : (List.length (take (List.length input) (drop off (data b)))
                   <= List.length (toUint8Array input))%nat)
      by (rewrite length_take, Hl; lia).
    pose proof (lookups_agree _ _ Hle) as E. rewrite Hl in E. rewrite E.
    split; [intros H; split; [|exact H]|intros [_ H]; exact H].
    intros ->. apply Hnz. reflexivity.
Qed.

End Compare.

